(** * penn_chime.parameters: parameter resolution and validation

    A shallow embedding of [src/penn_chime/parameters.py]: the command-line
    schema ([cli_args]), the per-flag [validator] closures, the layering of a
    parameters file over the command line in [Parameters.create], and the
    keyword validation of [Parameters.__init__].

    Python objects are attribute dictionaries in insertion order, exceptions
    are values of [exn], and a Python [float] is a binary64 number
    ([PrimFloat.float]).  The library pieces the module calls ([int], [float],
    [str.split], [datetime.strptime], [argparse]) are modelled next to the
    code that uses them; [date.today()], the process environment and the file
    system are inputs. *)

From Stdlib Require Import ZArith Bool List Ascii String Lia.
From Stdlib Require Import Floats.
Import ListNotations.

#[local] Set Warnings "-inexact-float,-register-all".
#[local] Open Scope string_scope.
#[local] Open Scope Z_scope.

(* ================================================================== *)
(** ** Python values and exceptions *)

(** [datetime.date]. *)
Record date := mkdate { year : Z; month : Z; day : Z }.

(** The values that flow through the module.  [VList] is what argparse
    stores when an option is left without argument strings, [VDict] is a
    [dict] with string keys, [VDisposition] the [Disposition] named tuple and
    [VRegions] a [Regions] object (its attributes, [population] last). *)
Inductive value :=
| VNone
| VInt (z : Z)
| VFloat (f : float)
| VStr (s : string)
| VDate (d : date)
| VList (items : list value)
| VDict (items : list (string * value))
| VDisposition (days rate : value)
| VRegions (attributes : list (string * value)).

(** Texts of the exceptions the module raises, kept symbolic where an
    f-string interpolates a value. *)
Inductive message :=
| Msg (text : string)
| MsgBuiltin (function : string) (argument : string)
    (* the ValueError of int(), float() or strptime() on [argument] *)
| MsgRequired (arg : string)
    (* f'{arg} is required.' *)
| MsgGreater (arg : string) (min_value : value)
    (* f'{arg} must be greater than {min_value}.' *)
| MsgLess (arg : string) (max_value : value)
    (* f'{arg} must be less than {max_value}.' *)
| MsgUnexpected (key : string)
    (* f"Unexpected parameter {key}" *)
| MsgValidation (key : string) (v : value) (cause : message).
    (* the message of the ValueError that wraps a validator's TypeError:
       For parameter 'key', with value 'value', validation returned error ... *)

(** What argparse prints on stderr (or stdout, for the help) before it exits. *)
Inductive argument_problem :=
| ExpectedOneArgument
| IgnoredExplicitArgument (explicit_arg : string)
| InvalidValue (type_name : string) (arg_string : string).

Inductive parser_message :=
| ArgumentError (argument_name : string) (problem : argument_problem)
| AmbiguousOption (arg_string : string) (matches : list string)
| UnrecognizedArguments (extras : list string)
| HelpText.

Inductive exn :=
| ValueError (m : message)
| TypeError (m : message)
| AssertionError (m : message)
| AttributeError (name : string)
| IndexError
| KeyError (key : string)
| OSError (path : string)
| ValidationError (key : string) (constraint : string)
| SystemExit (code : Z) (printed : parser_message).

Inductive result (A : Type) :=
| Ok (a : A)
| Err (e : exn).
Arguments Ok {A} a.
Arguments Err {A} e.

Definition bind {A B} (r : result A) (k : A -> result B) : result B :=
  match r with
  | Ok a => k a
  | Err e => Err e
  end.

Declare Scope py_scope.
Delimit Scope py_scope with py.
Notation "x <- c ;; k" := (bind c (fun x => k))
  (at level 61, c at next level, right associativity) : py_scope.
Notation "c ;; k" := (bind c (fun _ => k))
  (at level 61, right associativity) : py_scope.
#[local] Open Scope py_scope.

(** [v is None]. *)
Definition is_None (v : value) : bool :=
  match v with
  | VNone => true
  | _ => false
  end.

(* ================================================================== *)
(** ** Built-ins: strings *)

Definition code (c : ascii) : Z := Z.of_nat (nat_of_ascii c).

(** [str.isspace] on the ASCII range. *)
Definition isspace (c : ascii) : bool :=
  ((9 <=? code c) && (code c <=? 13)) || ((28 <=? code c) && (code c <=? 32)).

Fixpoint lstrip (s : string) : string :=
  match s with
  | String c s' => if isspace c then lstrip s' else s
  | EmptyString => s
  end.

Fixpoint rstrip (s : string) : string :=
  match s with
  | String c s' =>
      match rstrip s' with
      | EmptyString => if isspace c then EmptyString else String c EmptyString
      | r => String c r
      end
  | EmptyString => s
  end.

Definition strip (s : string) : string := rstrip (lstrip s).

(** [str.split()] with no separator: the maximal runs of non-whitespace. *)
Fixpoint split_from (word : option string) (s : string) : list string :=
  match s with
  | EmptyString =>
      match word with
      | Some w => [w]
      | None => []
      end
  | String c s' =>
      if isspace c then
        match word with
        | Some w => w :: split_from None s'
        | None => split_from None s'
        end
      else
        match word with
        | Some w => split_from (Some (w ++ String c EmptyString)) s'
        | None => split_from (Some (String c EmptyString)) s'
        end
  end.

Definition split (s : string) : list string := split_from None s.

Fixpoint contains (c : ascii) (s : string) : bool :=
  match s with
  | String c' s' => Ascii.eqb c c' || contains c s'
  | EmptyString => false
  end.

(** [s.split(c, 1)] for a string that contains [c]. *)
Fixpoint split_once (c : ascii) (s : string) : string * string :=
  match s with
  | String c' s' =>
      if Ascii.eqb c c' then (EmptyString, s')
      else let (before, after) := split_once c s' in (String c' before, after)
  | EmptyString => (EmptyString, EmptyString)
  end.

(** [s.replace(a, b)] for single characters. *)
Fixpoint replace (a b : ascii) (s : string) : string :=
  match s with
  | String c s' => String (if Ascii.eqb c a then b else c) (replace a b s')
  | EmptyString => EmptyString
  end.

(** [s.lstrip(c)]. *)
Fixpoint lstrip_char (c : ascii) (s : string) : string :=
  match s with
  | String c' s' => if Ascii.eqb c c' then lstrip_char c s' else s
  | EmptyString => s
  end.

Definition lower (c : ascii) : ascii :=
  if (65 <=? code c) && (code c <=? 90) then ascii_of_nat (nat_of_ascii c + 32) else c.

Fixpoint lowercase (s : string) : string :=
  match s with
  | String c s' => String (lower c) (lowercase s')
  | EmptyString => EmptyString
  end.

(* ================================================================== *)
(** ** Built-ins: [int] and [float] of a string *)

Definition digit (c : ascii) : option Z :=
  if (48 <=? code c) && (code c <=? 57) then Some (code c - 48) else None.

(** The rest of a digit part, [(["_"] digit)*], and what follows it. *)
Fixpoint digits_tail (s : string) : list Z * string :=
  match s with
  | String c s' =>
      match digit c with
      | Some d => let (ds, rest) := digits_tail s' in (d :: ds, rest)
      | None =>
          if Ascii.eqb c "_" then
            match s' with
            | String c2 s'' =>
                match digit c2 with
                | Some d => let (ds, rest) := digits_tail s'' in (d :: ds, rest)
                | None => ([], s)
                end
            | EmptyString => ([], s)
            end
          else ([], s)
      end
  | EmptyString => ([], s)
  end.

(** A digit part, [digit (["_"] digit)*], at the head of [s]. *)
Definition digitpart (s : string) : option (list Z * string) :=
  match s with
  | String c s' =>
      match digit c with
      | Some d => let (ds, rest) := digits_tail s' in Some (d :: ds, rest)
      | None => None
      end
  | EmptyString => None
  end.

Definition number (ds : list Z) : Z := fold_left (fun n d => 10 * n + d) ds 0.

(** An optional sign: [true] for a minus. *)
Definition sign (s : string) : bool * string :=
  match s with
  | String "-" s' => (true, s')
  | String "+" s' => (false, s')
  | _ => (false, s)
  end.

(** [int(string)], base 10. *)
Definition parse_int (s : string) : option Z :=
  let (minus, body) := sign (strip s) in
  match digitpart body with
  | Some (ds, EmptyString) => Some (if minus then - number ds else number ds)
  | _ => None
  end.

(** The binary64 number nearest to [n / d] (ties to even), for [0 < n] and
    [0 < d]. *)
Definition nearest_float (n d : Z) : float :=
  let fit e := if e <? 0 then (n * 2 ^ (- e)) / d else n / (d * 2 ^ e) in
  let e0 := Z.log2 n - Z.log2 d - 53 in
  let e1 := if fit e0 <? 2 ^ 53 then e0 else e0 + 1 in
  let e := Z.max e1 (-1074) in
  let num := if e <? 0 then n * 2 ^ (- e) else n in
  let den := if e <? 0 then d else d * 2 ^ e in
  let q := num / den in
  let r := num mod den in
  let m := if (den <? 2 * r) || ((den =? 2 * r) && Z.odd q) then q + 1 else q in
  Z.ldexp (PrimFloat.of_uint63 (Uint63.of_Z m)) e.

(** The value of the decimal [mantissa * 10 ^ exponent]. *)
Definition decimal_float (minus : bool) (mantissa exponent : Z) : float :=
  let magnitude :=
    if mantissa =? 0 then PrimFloat.zero
    else if 0 <=? exponent then nearest_float (mantissa * 10 ^ exponent) 1
    else nearest_float mantissa (10 ^ (- exponent)) in
  if minus then PrimFloat.opp magnitude else magnitude.

(** The exponent of a float literal: [("e" | "E") ["+" | "-"] digitpart]. *)
Definition exponent_part (s : string) : option Z :=
  match s with
  | EmptyString => Some 0
  | String c s' =>
      if Ascii.eqb (lower c) "e" then
        let (minus, body) := sign s' in
        match digitpart body with
        | Some (ds, EmptyString) => Some (if minus then - number ds else number ds)
        | _ => None
        end
      else None
  end.

(** [float(string)]. *)
Definition parse_float (s : string) : option float :=
  let (minus, body) := sign (strip s) in
  let word := lowercase body in
  if (word =? "inf")%string || (word =? "infinity")%string then
    Some (if minus then PrimFloat.neg_infinity else PrimFloat.infinity)
  else if (word =? "nan")%string then Some PrimFloat.nan
  else
    let (int_digits, rest) :=
      match digitpart body with
      | Some (ds, rest) => (ds, rest)
      | None => ([], body)
      end in
    let (frac_digits, rest') :=
      match rest with
      | String "." after =>
          match digitpart after with
          | Some (ds, rest') => (ds, rest')
          | None => ([], after)
          end
      | _ => ([], rest)
      end in
    match (int_digits ++ frac_digits)%list with
    | [] => None
    | ds =>
        match exponent_part rest' with
        | Some e => Some (decimal_float minus (number ds) (e - Z.of_nat (List.length frac_digits)))
        | None => None
        end
    end.

(* ================================================================== *)
(** ** Built-ins: dates and comparisons *)

Definition is_leap (y : Z) : bool :=
  (y mod 4 =? 0) && (negb (y mod 100 =? 0) || (y mod 400 =? 0)).

Definition days_in_month (y m : Z) : Z :=
  if m =? 2 then (if is_leap y then 29 else 28)
  else if (m =? 4) || (m =? 6) || (m =? 9) || (m =? 11) then 30
  else 31.

(** [datetime.date(y, m, d)]: the range checks of the constructor. *)
Definition valid_date (y m d : Z) : bool :=
  (1 <=? y) && (y <=? 9999) && (1 <=? m) && (m <=? 12) && (1 <=? d) && (d <=? days_in_month y m).

(** The directive [%m]: [1[0-2]|0[1-9]|[1-9]]. *)
Definition month_directive (cs : list ascii) : option Z :=
  match cs with
  | [c1; c2] =>
      match digit c1, digit c2 with
      | Some 1, Some d => if d <=? 2 then Some (10 + d) else None
      | Some 0, Some d => if 1 <=? d then Some d else None
      | _, _ => None
      end
  | [c] =>
      match digit c with
      | Some d => if 1 <=? d then Some d else None
      | None => None
      end
  | _ => None
  end.

(** The directive [%d]: [3[01]|[12]\d|0[1-9]|[1-9]| [1-9]]. *)
Definition day_directive (cs : list ascii) : option Z :=
  match cs with
  | [c1; c2] =>
      match digit c1, digit c2 with
      | Some 3, Some d => if d <=? 1 then Some (30 + d) else None
      | Some 0, Some d => if 1 <=? d then Some d else None
      | Some t, Some d => if t <=? 2 then Some (10 * t + d) else None
      | None, Some d => if Ascii.eqb c1 " " && (1 <=? d) then Some d else None
      | _, _ => None
      end
  | [c] =>
      match digit c with
      | Some d => if 1 <=? d then Some d else None
      | None => None
      end
  | _ => None
  end.

(** [datetime.strptime(string, '%Y-%m-%d').date()]: four digits, a month
    and a day, each followed by what the format says, and nothing else. *)
Definition strptime_Ymd (s : string) : option date :=
  match list_ascii_of_string s with
  | y1 :: y2 :: y3 :: y4 :: "-"%char :: rest =>
      match digit y1, digit y2, digit y3, digit y4 with
      | Some a, Some b, Some c, Some d =>
          let y := number [a; b; c; d] in
          let found :=
            match rest with
            | m1 :: "-"%char :: ds => Some ([m1], ds)
            | m1 :: m2 :: "-"%char :: ds => Some ([m1; m2], ds)
            | _ => None
            end in
          match found with
          | Some (ms, ds) =>
              match month_directive ms, day_directive ds with
              | Some m, Some d' =>
                  if valid_date y m d' then Some (mkdate y m d') else None
              | _, _ => None
              end
          | None => None
          end
      | _, _, _, _ => None
      end
  | _ => None
  end.

Definition date_compare (a b : date) : comparison :=
  match year a ?= year b with
  | Eq => match month a ?= month b with
          | Eq => day a ?= day b
          | c => c
          end
  | c => c
  end.

(** An [int] against a [float], compared exactly as Python does;
    [None] when the float is a NaN. *)
Definition int_float_compare (z : Z) (f : float) : option comparison :=
  match Prim2SF f with
  | S754_nan => None
  | S754_infinity neg => Some (if neg then Gt else Lt)
  | S754_zero _ => Some (z ?= 0)
  | S754_finite neg m e =>
      let n := if neg then Z.neg m else Z.pos m in
      Some (if 0 <=? e then z ?= n * 2 ^ e else z * 2 ^ (- e) ?= n)
  end.

Definition is_Lt (c : option comparison) : bool :=
  match c with
  | Some Lt => true
  | _ => false
  end.

Definition is_Gt (c : option comparison) : bool :=
  match c with
  | Some Gt => true
  | _ => false
  end.

(** [a < b]: numbers with numbers, dates with dates, strings with
    strings; anything else is a TypeError. *)
Definition py_lt (a b : value) : result bool :=
  match a, b with
  | VInt x, VInt y => Ok (x <? y)
  | VFloat x, VFloat y => Ok (PrimFloat.ltb x y)
  | VInt x, VFloat y => Ok (is_Lt (int_float_compare x y))
  | VFloat x, VInt y => Ok (is_Gt (int_float_compare y x))
  | VDate x, VDate y => Ok (is_Lt (Some (date_compare x y)))
  | VStr x, VStr y => Ok (String.ltb x y)
  | _, _ => Err (TypeError (Msg "'<' not supported between instances"))
  end.

(** [a > b]. *)
Definition py_gt (a b : value) : result bool :=
  match a, b with
  | VInt x, VInt y => Ok (y <? x)
  | VFloat x, VFloat y => Ok (PrimFloat.ltb y x)
  | VInt x, VFloat y => Ok (is_Gt (int_float_compare x y))
  | VFloat x, VInt y => Ok (is_Lt (int_float_compare y x))
  | VDate x, VDate y => Ok (is_Gt (Some (date_compare x y)))
  | VStr x, VStr y => Ok (String.ltb y x)
  | _, _ => Err (TypeError (Msg "'>' not supported between instances"))
  end.

(* ================================================================== *)
(** ** Objects: attributes in insertion order *)

Definition attrs := list (string * value).

Fixpoint lookup (name : string) (o : attrs) : option value :=
  match o with
  | (k, v) :: o' => if (k =? name)%string then Some v else lookup name o'
  | [] => None
  end.

(** [name in d] / [hasattr(o, name)]. *)
Definition has (name : string) (o : attrs) : bool :=
  match lookup name o with
  | Some _ => true
  | None => false
  end.

(** [o.name]. *)
Definition getattr (o : attrs) (name : string) : result value :=
  match lookup name o with
  | Some v => Ok v
  | None => Err (AttributeError name)
  end.

(** [setattr(o, name, v)] / [d[name] = v]: an existing name keeps its
    place, a new one goes last. *)
Fixpoint setattr (o : attrs) (name : string) (v : value) : attrs :=
  match o with
  | (k, w) :: o' =>
      if (k =? name)%string then (k, v) :: o' else (k, w) :: setattr o' name v
  | [] => [(name, v)]
  end.

Fixpoint remove (name : string) (o : attrs) : attrs :=
  match o with
  | (k, w) :: o' => if (k =? name)%string then o' else (k, w) :: remove name o'
  | [] => []
  end.

(** [del o.name]. *)
Definition delattr (o : attrs) (name : string) : result attrs :=
  if has name o then Ok (remove name o) else Err (AttributeError name).

(* ================================================================== *)
(** ** argparse

    [ArgumentParser] as the module uses it (CPython 3.8): the help option
    and options that store one converted argument string, no positional
    arguments, abbreviations allowed.  [parser.error] and the help action
    leave through [SystemExit]; what they print is kept in the exception. *)

Inductive action :=
| HelpAction
| StoreAction (option_string dest : string) (type : string -> result value).

Record ArgumentParser := { actions : list action }.

(** [ArgumentParser(...)]: the parser starts with [-h/--help]. *)
Definition new_ArgumentParser : ArgumentParser := {| actions := [HelpAction] |}.

(** The destination argparse infers from a long option string. *)
Definition infer_dest (option_string : string) : string :=
  replace "-" "_" (lstrip_char "-" option_string).

(** [parser.add_argument(arg, type=type, help=help)]. *)
Definition add_argument (parser : ArgumentParser) (arg : string)
    (type : string -> result value) : ArgumentParser :=
  {| actions := actions parser ++ [StoreAction arg (infer_dest arg) type] |}.

(** [parser._option_string_actions], in registration order. *)
Definition option_string_actions (parser : ArgumentParser) : list (string * action) :=
  flat_map (fun a =>
              match a with
              | HelpAction => [("-h", a); ("--help", a)]
              | StoreAction option_string _ _ => [(option_string, a)]
              end) (actions parser).

Fixpoint find_action (registry : list (string * action)) (option_string : string)
    : option action :=
  match registry with
  | (k, a) :: registry' =>
      if (k =? option_string)%string then Some a else find_action registry' option_string
  | [] => None
  end.

(** How an error names the action: its option strings joined by [/]. *)
Definition argument_name (a : action) : string :=
  match a with
  | HelpAction => "-h/--help"
  | StoreAction option_string _ _ => option_string
  end.

(** An argument string read as an option: the action (if any), the option
    string and the argument given with it ([--flag=value], [-hvalue]). *)
Definition option_tuple := (option action * string * option string)%type.

(** [option_string[1] in parser.prefix_chars]: a long option. *)
Definition is_long (option_string : string) : bool :=
  match option_string with
  | String _ (String c _) => Ascii.eqb c "-"
  | _ => false
  end.

(** [parser._get_option_tuples], for an argument string that starts with
    [-] and has a second character: the options an abbreviation may stand
    for. *)
Definition get_option_tuples (registry : list (string * action)) (arg_string : string)
    : list option_tuple :=
  if is_long arg_string then
    let (option_prefix, explicit_arg) :=
      if contains "=" arg_string
      then let (before, after) := split_once "=" arg_string in (before, Some after)
      else (arg_string, None) in
    flat_map (fun entry : string * action =>
                let (option_string, a) := entry in
                if String.prefix option_prefix option_string
                then [(Some a, option_string, explicit_arg)]
                else []) registry
  else
    let short_option_prefix := substring 0 2 arg_string in
    let short_explicit_arg := substring 2 (String.length arg_string - 2) arg_string in
    flat_map (fun entry : string * action =>
                let (option_string, a) := entry in
                if (option_string =? short_option_prefix)%string
                then [(Some a, option_string, Some short_explicit_arg)]
                else if String.prefix arg_string option_string
                then [(Some a, option_string, None)]
                else []) registry.

Fixpoint skip_digits (s : string) : nat * string :=
  match s with
  | String c s' =>
      match digit c with
      | Some _ => let (n, rest) := skip_digits s' in (S n, rest)
      | None => (O, s)
      end
  | EmptyString => (O, s)
  end.

(** Where the regular expression's [$] matches: at the end, or before a
    final newline. *)
Definition at_end (s : string) : bool :=
  match s with
  | EmptyString => true
  | String c EmptyString => Ascii.eqb c (ascii_of_nat 10)
  | _ => false
  end.

(** [parser._negative_number_matcher]: [^-\d+$|^-\d*\.\d+$]. *)
Definition negative_number_like (arg_string : string) : bool :=
  match arg_string with
  | String "-" body =>
      let (n, rest) := skip_digits body in
      (negb (Nat.eqb n 0) && at_end rest)
      || match rest with
         | String "." after =>
             let (k, rest') := skip_digits after in negb (Nat.eqb k 0) && at_end rest'
         | _ => false
         end
  | _ => false
  end.

(** [parser._parse_optional]: [None] for an argument, an option tuple for
    an option, an error for an ambiguous abbreviation. *)
Definition parse_optional (registry : list (string * action)) (arg_string : string)
    : result (option option_tuple) :=
  match arg_string with
  | EmptyString => Ok None
  | String c tail =>
      if negb (Ascii.eqb c "-") then Ok None
      else
        match find_action registry arg_string with
        | Some a => Ok (Some (Some a, arg_string, None))
        | None =>
            match tail with
            | EmptyString => Ok None
            | _ =>
                let explicit :=
                  if contains "=" arg_string then
                    let (option_string, explicit_arg) := split_once "=" arg_string in
                    match find_action registry option_string with
                    | Some a => Some (Some a, option_string, Some explicit_arg)
                    | None => None
                    end
                  else None in
                match explicit with
                | Some t => Ok (Some t)
                | None =>
                    match get_option_tuples registry arg_string with
                    | (_ :: _ :: _) as option_tuples =>
                        Err (SystemExit 2
                               (AmbiguousOption arg_string
                                  (map (fun t : option_tuple => snd (fst t)) option_tuples)))
                    | [t] => Ok (Some t)
                    | [] =>
                        if negative_number_like arg_string then Ok None
                        else if contains " " arg_string then Ok None
                        else Ok (Some (None, arg_string, None))
                    end
                end
            end
        end
  end.

(** The letters of argparse's pattern of argument strings: ['A'] for an
    argument, ['-'] for the separator [--], ['O'] for an option. *)
Inductive arg_class :=
| ClassA
| ClassDash
| ClassO (t : option_tuple).

(** The first pass of [parser._parse_known_args]: everything after [--] is
    an argument. *)
Fixpoint classify (registry : list (string * action)) (arg_strings : list string)
    : result (list (string * arg_class)) :=
  match arg_strings with
  | [] => Ok []
  | arg_string :: rest =>
      if (arg_string =? "--")%string
      then Ok ((arg_string, ClassDash) :: map (fun s => (s, ClassA)) rest)
      else
        t <- parse_optional registry arg_string ;;
        classified <- classify registry rest ;;
        Ok ((arg_string,
             match t with
             | None => ClassA
             | Some t => ClassO t
             end) :: classified)
  end.

(** [parser._get_value]: a TypeError or ValueError of the type function is
    reported as an invalid value of the option. *)
Definition get_value (a : action) (type : string -> result value) (arg_string : string)
    : result value :=
  match type arg_string with
  | Ok v => Ok v
  | Err (ValueError _) | Err (TypeError _) =>
      Err (SystemExit 2 (ArgumentError (argument_name a) (InvalidValue "validate" arg_string)))
  | Err e => Err e
  end.

Fixpoint remove_first (x : string) (l : list string) : list string :=
  match l with
  | y :: l' => if (y =? x)%string then l' else y :: remove_first x l'
  | [] => []
  end.

Fixpoint map_result {A B} (f : A -> result B) (l : list A) : result (list B) :=
  match l with
  | [] => Ok []
  | x :: l' => y <- f x ;; ys <- map_result f l' ;; Ok (y :: ys)
  end.

(** [parser._get_values] for an option with [nargs=None]: the first [--] is
    dropped; one string gives its value, any other number a list. *)
Definition get_values (a : action) (type : string -> result value)
    (arg_strings : list string) : result value :=
  match remove_first "--" arg_strings with
  | [arg_string] => get_value a type arg_string
  | others => vs <- map_result (get_value a type) others ;; Ok (VList vs)
  end.

(** [-h] with characters attached: each must again be [h]. *)
Fixpoint short_help (explicit_arg : string) : exn :=
  match explicit_arg with
  | String c rest =>
      if Ascii.eqb c "h" then
        match rest with
        | EmptyString => SystemExit 0 HelpText
        | _ => short_help rest
        end
      else SystemExit 2 (ArgumentError (argument_name HelpAction)
                           (IgnoredExplicitArgument explicit_arg))
  | EmptyString => IndexError
  end.

(** The second pass of [parser._parse_known_args]: the values the options
    store, in order, and the argument strings no action consumed.  An option
    takes the argument given with it, or else the next argument string. *)
Fixpoint consume (classified : list (string * arg_class))
    : result (list (string * value) * list string) :=
  match classified with
  | [] => Ok ([], [])
  | (arg_string, ClassO (Some HelpAction, option_string, explicit_arg)) :: rest =>
      match explicit_arg with
      | None => Err (SystemExit 0 HelpText)
      | Some explicit_arg =>
          if is_long option_string
          then Err (SystemExit 2 (ArgumentError (argument_name HelpAction)
                                    (IgnoredExplicitArgument explicit_arg)))
          else Err (short_help explicit_arg)
      end
  | (arg_string, ClassO (Some (StoreAction _ dest type as a), option_string, explicit_arg))
      :: rest =>
      match explicit_arg with
      | Some explicit_arg =>
          v <- get_values a type [explicit_arg] ;;
          r <- consume rest ;;
          Ok ((dest, v) :: fst r, snd r)
      | None =>
          match rest with
          | (arg, ClassA) :: rest' =>
              v <- get_values a type [arg] ;;
              r <- consume rest' ;;
              Ok ((dest, v) :: fst r, snd r)
          | _ => Err (SystemExit 2 (ArgumentError (argument_name a) ExpectedOneArgument))
          end
      end
  | (arg_string, _) :: rest =>
      r <- consume rest ;;
      Ok (fst r, arg_string :: snd r)
  end.

(** The stores of a whole argument vector; [parse_args] refuses argument
    strings that are left over. *)
Definition parse_actions (parser : ArgumentParser) (args : list string)
    : result (list (string * value)) :=
  classified <- classify (option_string_actions parser) args ;;
  r <- consume classified ;;
  match snd r with
  | [] => Ok (fst r)
  | extras => Err (SystemExit 2 (UnrecognizedArguments extras))
  end.

(** The defaults of the actions ([None] for every option here), for the
    attributes the namespace does not have yet. *)
Definition add_defaults (parser : ArgumentParser) (namespace : attrs) : attrs :=
  fold_left (fun ns a =>
               match a with
               | HelpAction => ns
               | StoreAction _ dest _ => if has dest ns then ns else setattr ns dest VNone
               end) (actions parser) namespace.

Definition store (namespace : attrs) (assignment : string * value) : attrs :=
  setattr namespace (fst assignment) (snd assignment).

(** [parser.parse_args(args, namespace)]; a fresh namespace is [[]].  The
    parse does not read the namespace: it receives the defaults and then
    the stores, or the parse fails. *)
Definition parse_args (parser : ArgumentParser) (args : list string) (namespace : attrs)
    : result attrs :=
  assignments <- parse_actions parser args ;;
  Ok (fold_left store assignments (add_defaults parser namespace)).

(* ================================================================== *)
(** ** parameters.py: casts and the flag validators *)

(** The cast functions of the two schemas. *)
Inductive Cast :=
| Str
| Int
| Float
| CastDate.

Definition Cast_eqb (a b : Cast) : bool :=
  match a, b with
  | Str, Str | Int, Int | Float, Float | CastDate, CastDate => true
  | _, _ => false
  end.

Definition of_option {A} (function : string) (string : string) (o : option A)
    (inject : A -> value) : result value :=
  match o with
  | Some a => Ok (inject a)
  | None => Err (ValueError (MsgBuiltin function string))
  end.

Definition cast_date (string : string) : result value :=
  of_option "strptime" string (strptime_Ymd string) VDate.

(** [cast(string)]. *)
Definition apply_cast (cast : Cast) (string : string) : result value :=
  match cast with
  | Str => Ok (VStr string)
  | Int => of_option "int" string (parse_int string) VInt
  | Float => of_option "float" string (parse_float string) VFloat
  | CastDate => cast_date string
  end.

Definition declarative_validator (cast : Cast) : string -> result value :=
  fun string =>
    if (string =? "")%string && negb (Cast_eqb cast Str) then Ok VNone
    else apply_cast cast string.

Definition validator (arg : string) (cast : Cast) (min_value max_value : value)
    (required : bool) : string -> result value :=
  fun string =>
    if (string =? "")%string && negb (Cast_eqb cast Str) then
      if required then Err (ValueError (MsgRequired arg)) else Ok VNone
    else
      value <- apply_cast cast string ;;
      below <- (if is_None min_value then Ok false else py_lt value min_value) ;;
      if below then Err (ValueError (MsgGreater arg min_value))
      else
        above <- (if is_None max_value then Ok false else py_gt value max_value) ;;
        if above then Err (ValueError (MsgLess arg max_value))
        else Ok value.

(** An entry of the command-line schema:
    [(name, cast, min_value, max_value, help, required)]. *)
Definition cli_arg := (string * Cast * value * value * string * bool)%type.

Definition cli_args : list cli_arg :=
  [ ("parameters", Str, VNone, VNone, "Parameters file.", false);
    ("current_hospitalized", Int, VInt 0, VNone,
     "Currently hospitalized COVID-19 patients (>= 0)", true);
    ("current_date", CastDate, VNone, VNone, "Current date (default is today)", false);
    ("date_first_hospitalized", CastDate, VNone, VNone,
     "Date of first hospitalization", false);
    ("doubling_time", Float, VFloat 0.0, VNone,
     "Doubling time before social distancing (days)", true);
    ("hospitalized_days", Int, VInt 0, VNone,
     "Average hospital length of stay (in days)", true);
    ("hospitalized_rate", Float, VFloat 0.00001, VFloat 1.0,
     "Hospitalized Rate: 0.00001 - 1.0", true);
    ("icu_days", Int, VInt 0, VNone, "Average days in ICU", true);
    ("icu_rate", Float, VFloat 0.0, VFloat 1.0, "ICU rate: 0.0 - 1.0", true);
    ("market_share", Float, VFloat 0.00001, VFloat 1.0,
     "Hospital market share (0.00001 - 1.0)", true);
    ("infectious_days", Int, VFloat 0.0, VNone, "Infectious days", true);
    ("mitigation_date", CastDate, VNone, VNone,
     "Mitigation date for social distancing.", false);
    ("max_y_axis", Int, VInt 0, VNone, "Maximum y axis", true);
    ("n-days", Int, VInt 0, VNone, "Number of days to project >= 0", true);
    ("recovered", Int, VInt 0, VNone, "Initial recovered >= 0", true);
    ("relative-contact-rate", Float, VFloat 0.0, VFloat 1.0,
     "Social distancing reduction rate: 0.0 - 1.0", true);
    ("population", Int, VInt 1, VNone, "Regional population >= 1", true);
    ("ventilated_days", Int, VInt 0, VNone, "Average days on ventilator", true);
    ("ventilated_rate", Float, VFloat 0.0, VFloat 1.0,
     "Ventilated Rate: 0.0 - 1.0", true) ].

Definition to_cli (name : string) : string := "--" ++ replace "_" "-" name.

(** [Parameters.parser]: one option per schema entry, converted by the
    entry's [validator].  (The description only shows in the help.) *)
Definition Parameters_parser : ArgumentParser :=
  fold_left (fun parser (entry : cli_arg) =>
               let '(name, cast, min_value, max_value, help, required) := entry in
               let arg := to_cli name in
               add_argument parser arg (validator arg cast min_value max_value required))
    cli_args new_ArgumentParser.

(* ================================================================== *)
(** ** The validators *)

(** Modelled from the spec: the package [penn_chime.validators] that
    parameters.py imports is not among the sources.  By section 4.1 a
    validator takes [(key, value)] and either returns silently or signals a
    [ValidationError] naming the offending key and the violated constraint;
    section 4.5 adds that a validator may fail with a type mismatch (the
    TypeError that [Parameters.__init__] catches). *)
Inductive verdict :=
| Accept
| Reject (constraint : string)
| Mismatch (why : string).

(** Modelled from the spec: the eight names parameters.py imports from
    [penn_chime.validators]; the code below is written against any such
    eight validators. *)
Record Validators := {
  Date : string -> value -> verdict;
  OptionalDate : string -> value -> verdict;
  OptionalValue : string -> value -> verdict;
  OptionalStrictlyPositive : string -> value -> verdict;
  Positive : string -> value -> verdict;
  Rate : string -> value -> verdict;
  StrictlyPositive : string -> value -> verdict;
  ValDisposition : string -> value -> verdict
}.

(** [validator(key=key, value=value)]. *)
Definition call (validator : string -> value -> verdict) (key : string) (v : value)
    : result unit :=
  match validator key v with
  | Accept => Ok tt
  | Reject constraint => Err (ValidationError key constraint)
  | Mismatch why => Err (TypeError (Msg why))
  end.

(* ================================================================== *)
(** ** Methods: computations on [self] that may raise *)

Definition method (A : Type) : Type := attrs -> attrs * result A.

Definition mret {A} (a : A) : method A := fun self => (self, Ok a).

Definition mbind {A B} (m : method A) (k : A -> method B) : method B :=
  fun self =>
    match m self with
    | (self', Ok a) => k a self'
    | (self', Err e) => (self', Err e)
    end.

Definition lift {A} (r : result A) : method A := fun self => (self, r).

Definition raise {A} (e : exn) : method A := fun self => (self, Err e).

(** [self.name]. *)
Definition self_get (name : string) : method value :=
  fun self => (self, getattr self name).

(** [self.name = v]. *)
Definition self_set (name : string) (v : value) : method unit :=
  fun self => (setattr self name v, Ok tt).

Declare Scope method_scope.
Delimit Scope method_scope with method.
Bind Scope method_scope with method.
Notation "x <- c ;; k" := (mbind c (fun x => k))
  (at level 61, c at next level, right associativity) : method_scope.
Notation "c ;; k" := (mbind c (fun _ => k))
  (at level 61, right associativity) : method_scope.

(** [for key, value in items: body(key, value)]. *)
Fixpoint for_each (items : attrs) (body : string -> value -> method unit) : method unit :=
  match items with
  | [] => mret tt
  | (key, v) :: items' => (body key v ;; for_each items' body)%method
  end.

(* ================================================================== *)
(** ** parameters.py: Disposition, Regions, Parameters *)

(** [Regions] called with integer keyword arguments: every count becomes an
    attribute, then [population] is set to their sum. *)
Definition Regions (kwargs : list (string * Z)) : value :=
  let population := fold_left (fun population kv => population + snd kv) kwargs 0 in
  let self := fold_left (fun self kv => setattr self (fst kv) (VInt (snd kv))) kwargs [] in
  VRegions (setattr self "population" (VInt population)).

(** [env.get(name)]. *)
Fixpoint env_get (env : list (string * string)) (name : string) : value :=
  match env with
  | (k, v) :: env' => if (k =? name)%string then VStr v else env_get env' name
  | [] => VNone
  end.

(** [open(path, 'r')] and [fin.read()], on a file system given as the
    text of each readable path. *)
Definition open_read (fs : string -> option string) (path : value) : result string :=
  match path with
  | VStr p =>
      match fs p with
      | Some contents => Ok contents
      | None => Err (OSError p)
      end
  | _ => Err (TypeError (Msg "expected str, bytes or os.PathLike object"))
  end.

(** A call with the keywords [explicit] followed by the unpacked
    dictionary [rest]: a keyword given twice is a TypeError. *)
Definition keywords (explicit rest : attrs) : result attrs :=
  if existsb (fun kv : string * value => has (fst kv) explicit) rest
  then Err (TypeError (Msg "got multiple values for keyword argument"))
  else Ok (explicit ++ rest)%list.

Section Parameters.

Variable V : Validators.

(** [Disposition.create(days=days, rate=rate)]. *)
Definition Disposition_create (days rate : value) : result value :=
  call (Positive V) "days" days ;;
  call (Rate V) "rate" rate ;;
  Ok (VDisposition days rate).

(** Dictionary from parameter names to (validator, cast function, help text). *)
Definition ACCEPTED_PARAMETERS
    : list (string * ((string -> value -> verdict) * option Cast * option string)) :=
  [ ("current_hospitalized",
     (Positive V, Some Int, Some "Currently hospitalized COVID-19 patients (>= 0)"));
    ("current_date",
     (OptionalDate V, Some CastDate, Some "Date on which the forecast should be based"));
    ("date_first_hospitalized",
     (OptionalDate V, Some CastDate, Some "Date the first patient was hospitalized"));
    ("doubling_time",
     (OptionalStrictlyPositive V, Some Float,
      Some "Doubling time before social distancing (days)"));
    ("infectious_days", (StrictlyPositive V, Some Int, Some "Infectious days"));
    ("mitigation_date",
     (OptionalDate V, Some CastDate,
      Some "Date on which social distancing measures too effect"));
    ("market_share", (Rate V, Some Float, Some "Hospital market share (0.00001 - 1.0)"));
    ("max_y_axis", (OptionalStrictlyPositive V, Some Int, None));
    ("n_days", (StrictlyPositive V, Some Int, Some "Number of days to project >= 0"));
    ("population", (OptionalStrictlyPositive V, Some Int, Some "Regional population >= 1"));
    ("recovered",
     (Positive V, Some Int,
      Some "Number of patients already recovered (not yet implemented)"));
    ("region", (OptionalValue V, None, Some "No help available"));
    ("relative_contact_rate",
     (Rate V, Some Float, Some "Social distancing reduction rate: 0.0 - 1.0"));
    ("ventilated", (ValDisposition V, None, None));
    ("hospitalized", (ValDisposition V, None, None));
    ("icu", (ValDisposition V, None, None)) ].

(** [ACCEPTED_PARAMETERS[key]]. *)
Fixpoint item {A} (d : list (string * A)) (key : string) : result A :=
  match d with
  | (k, a) :: d' => if (k =? key)%string then Ok a else item d' key
  | [] => Err (KeyError key)
  end.

(** [key in ACCEPTED_PARAMETERS]. *)
Definition accepted (key : string) : bool :=
  existsb (fun entry => (fst entry =? key)%string) ACCEPTED_PARAMETERS.

(** The first loop of [Parameters.__init__]: the keywords are copied into
    [passed_and_default_parameters] unless one is not accepted. *)
Fixpoint passed_and_default_parameters (kwargs : attrs) (collected : attrs)
    : result attrs :=
  match kwargs with
  | [] => Ok collected
  | (key, v) :: kwargs' =>
      if negb (accepted key) then Err (ValueError (MsgUnexpected key))
      else passed_and_default_parameters kwargs' (setattr collected key v)
  end.

(** The [try] of the second loop: a TypeError of the validator is raised
    again as a ValueError that names the key and the value. *)
Definition validated (validator : string -> value -> verdict) (key : string) (v : value)
    : result unit :=
  match call validator key v with
  | Err (TypeError ve) => Err (ValueError (MsgValidation key v ve))
  | r => r
  end.

Definition labels : value :=
  VDict [ ("hospitalized", VStr "Hospitalized");
          ("icu", VStr "ICU");
          ("ventilated", VStr "Ventilated");
          ("day", VStr "Day");
          ("date", VStr "Date");
          ("susceptible", VStr "Susceptible");
          ("infected", VStr "Infected");
          ("recovered", VStr "Recovered") ].

(** [Parameters.__init__] on the keywords [kwargs], with
    [today = date.today()]. *)
Definition Parameters_init (today : date) (kwargs : attrs) : method unit :=
  (self_set "current_date" VNone ;;
   self_set "current_hospitalized" VNone ;;
   self_set "date_first_hospitalized" VNone ;;
   self_set "doubling_time" VNone ;;
   self_set "hospitalized" VNone ;;
   self_set "icu" VNone ;;
   self_set "infectious_days" VNone ;;
   self_set "market_share" VNone ;;
   self_set "max_y_axis" VNone ;;
   self_set "mitigation_date" VNone ;;
   self_set "n_days" VNone ;;
   self_set "population" VNone ;;
   self_set "region" VNone ;;
   self_set "relative_contact_rate" VNone ;;
   self_set "recovered" VNone ;;
   self_set "ventilated" VNone ;;

   passed <- lift (passed_and_default_parameters kwargs []) ;;

   for_each passed (fun key v =>
     entry <- lift (item ACCEPTED_PARAMETERS key) ;;
     lift (validated (fst (fst entry)) key v) ;;
     self_set key v) ;;

   region <- self_get "region" ;;
   (if is_None region then
      population <- self_get "population" ;;
      if is_None population
      then raise (AssertionError (Msg "population or regions must be provided."))
      else mret tt
    else mret tt) ;;

   current_date <- self_get "current_date" ;;
   (if is_None current_date then self_set "current_date" (VDate today) else mret tt) ;;

   mitigation_date <- self_get "mitigation_date" ;;
   (if is_None mitigation_date then self_set "mitigation_date" (VDate today) else mret tt) ;;

   current_date <- self_get "current_date" ;;
   lift (call (Date V) "current_date" current_date) ;;
   mitigation_date <- self_get "mitigation_date" ;;
   lift (call (Date V) "mitigation_date" mitigation_date) ;;

   self_set "labels" labels ;;

   hospitalized <- self_get "hospitalized" ;;
   icu <- self_get "icu" ;;
   ventilated <- self_get "ventilated" ;;
   self_set "dispositions"
     (VDict [ ("hospitalized", hospitalized);
              ("icu", icu);
              ("ventilated", ventilated) ]))%method.

(** The call of [Parameters] with keywords: [__init__] runs on a new
    object, which is the result unless it raises. *)
Definition Parameters (today : date) (kwargs : attrs) : result attrs :=
  match Parameters_init today kwargs [] with
  | (self, Ok _) => Ok self
  | (_, Err e) => Err e
  end.

(** [Parameters.create(env, argv)]; [fs] is the file system it reads the
    parameters file from. *)
Definition Parameters_create (today : date) (env : list (string * string))
    (fs : string -> option string) (argv : list string) : result attrs :=
  let parser := Parameters_parser in
  a <- parse_args parser argv [] ;;

  parameters <- getattr a "parameters" ;;
  let a := if is_None parameters
           then setattr a "parameters" (env_get env "PARAMETERS") else a in

  parameters <- getattr a "parameters" ;;
  a <- (if negb (is_None parameters) then
          contents <- open_read fs parameters ;;
          parse_args parser (split contents) a
        else Ok a) ;;

  a <- delattr a "parameters" ;;

  hospitalized_days <- getattr a "hospitalized_days" ;;
  call (Positive V) "hospitalized_days" hospitalized_days ;;
  icu_days <- getattr a "icu_days" ;;
  call (Positive V) "icu_days" icu_days ;;
  ventilated_days <- getattr a "ventilated_days" ;;
  call (Positive V) "ventilated_days" ventilated_days ;;

  hospitalized_rate <- getattr a "hospitalized_rate" ;;
  call (Rate V) "hospitalized_rate" hospitalized_rate ;;
  icu_rate <- getattr a "icu_rate" ;;
  call (Rate V) "icu_rate" icu_rate ;;
  ventilated_rate <- getattr a "ventilated_rate" ;;
  call (Rate V) "ventilated_rate" ventilated_rate ;;

  hospitalized_days <- getattr a "hospitalized_days" ;;
  hospitalized_rate <- getattr a "hospitalized_rate" ;;
  hospitalized <- Disposition_create hospitalized_days hospitalized_rate ;;
  icu_days <- getattr a "icu_days" ;;
  icu_rate <- getattr a "icu_rate" ;;
  icu <- Disposition_create icu_days icu_rate ;;
  ventilated_days <- getattr a "ventilated_days" ;;
  ventilated_rate <- getattr a "ventilated_rate" ;;
  ventilated <- Disposition_create ventilated_days ventilated_rate ;;

  a <- delattr a "hospitalized_days" ;;
  a <- delattr a "hospitalized_rate" ;;
  a <- delattr a "icu_days" ;;
  a <- delattr a "icu_rate" ;;
  a <- delattr a "ventilated_days" ;;
  a <- delattr a "ventilated_rate" ;;

  kwargs <- keywords [ ("hospitalized", hospitalized);
                       ("icu", icu);
                       ("ventilated", ventilated) ] a ;;
  Parameters today kwargs.

End Parameters.

(* ================================================================== *)
(** ** The validators of section 4.1 *)

Definition ge_zero (v : value) : bool :=
  match v with
  | VInt z => 0 <=? z
  | VFloat f => PrimFloat.leb 0 f
  | _ => false
  end.

Definition gt_zero (v : value) : bool :=
  match v with
  | VInt z => 0 <? z
  | VFloat f => PrimFloat.ltb 0 f
  | _ => false
  end.

Definition le_one (v : value) : bool :=
  match v with
  | VInt z => z <=? 1
  | VFloat f => PrimFloat.leb f 1
  | _ => false
  end.

Definition is_date (v : value) : bool :=
  match v with
  | VDate _ => true
  | _ => false
  end.

Definition check (holds : bool) (constraint : string) : verdict :=
  if holds then Accept else Reject constraint.

(** Modelled from the spec: the table of section 4.1 of what each
    validator of [penn_chime.validators] accepts.  "Positive: value >= 0;
    fails otherwise.  StrictlyPositive: value > 0; fails otherwise.
    OptionalStrictlyPositive: None accepted; else StrictlyPositive.  Rate:
    0 <= value <= 1; fails otherwise.  Date: value is a valid calendar date
    object; fails otherwise.  OptionalDate: None accepted; else Date.
    OptionalValue: accepts any value including None.  ValDisposition:
    accepts a Disposition-shaped value (delegates to Disposition's own
    validation)." *)
Definition spec_validators : Validators :=
  {| Date := fun _ v => check (is_date v) "a calendar date";
     OptionalDate := fun _ v => check (is_None v || is_date v) "None or a calendar date";
     OptionalValue := fun _ _ => Accept;
     OptionalStrictlyPositive := fun _ v => check (is_None v || gt_zero v) "None or value > 0";
     Positive := fun _ v => check (ge_zero v) "value >= 0";
     Rate := fun _ v => check (ge_zero v && le_one v) "0 <= value <= 1";
     StrictlyPositive := fun _ v => check (gt_zero v) "value > 0";
     ValDisposition := fun _ v =>
       match v with
       | VDisposition days rate =>
           check (ge_zero days && (ge_zero rate && le_one rate)) "a valid Disposition"
       | _ => Reject "a Disposition"
       end |}.

(* ================================================================== *)
(** ** Notions used in the statements *)

Definition keys (o : attrs) : list string := map fst o.

(** The object after the sixteen [self.name = None] that open
    [Parameters.__init__]: no keyword has been assigned yet. *)
Definition unassigned : attrs :=
  [ ("current_date", VNone); ("current_hospitalized", VNone);
    ("date_first_hospitalized", VNone); ("doubling_time", VNone);
    ("hospitalized", VNone); ("icu", VNone); ("infectious_days", VNone);
    ("market_share", VNone); ("max_y_axis", VNone); ("mitigation_date", VNone);
    ("n_days", VNone); ("population", VNone); ("region", VNone);
    ("relative_contact_rate", VNone); ("recovered", VNone); ("ventilated", VNone) ].

(** The names of the Field Schema, in its order. *)
Definition parameter_names : list string :=
  [ "current_hospitalized"; "current_date"; "date_first_hospitalized"; "doubling_time";
    "infectious_days"; "mitigation_date"; "market_share"; "max_y_axis"; "n_days";
    "population"; "recovered"; "region"; "relative_contact_rate"; "ventilated";
    "hospitalized"; "icu" ].

(** The first keyword, in keyword order, that the Field Schema does not have. *)
Definition first_unexpected (V : Validators) (kwargs : attrs) : option string :=
  option_map fst (find (fun kv : string * value => negb (accepted V (fst kv))) kwargs).

(** The last binding of [name] in a sequence of stores. *)
Definition final (name : string) (stores : attrs) : option value :=
  lookup name (rev stores).

(** The value the keywords give to [name]; [None] when it is absent. *)
Definition given (name : string) (kwargs : attrs) : value :=
  match final name kwargs with
  | Some v => v
  | None => VNone
  end.

(** [name] is absent from the keywords or [None]. *)
Definition unset (name : string) (kwargs : attrs) : Prop :=
  forall v, In (name, v) kwargs -> v = VNone.

(** A date attribute after the defaulting: today when it was [None]. *)
Definition resolve (today : date) (v : value) : value :=
  if is_None v then VDate today else v.

(** The keyword is in the Field Schema and its validator accepts the value. *)
Definition passes (V : Validators) (kv : string * value) : Prop :=
  exists entry, item (ACCEPTED_PARAMETERS V) (fst kv) = Ok entry /\
                fst (fst entry) (fst kv) (snd kv) = Accept.

(** The body of the second loop of [Parameters.__init__]: look the
    keyword's validator up, apply it, assign the attribute. *)
Definition validate_and_assign (V : Validators) : string -> value -> method unit :=
  (fun (key : string) (v : value) =>
     entry <- lift (item (ACCEPTED_PARAMETERS V) key) ;;
     lift (validated (fst (fst entry)) key v) ;;
     self_set key v)%method.

(** [0 <= r <= 1] on binary64 numbers (false for a NaN). *)
Definition in_unit_interval (r : float) : Prop :=
  PrimFloat.leb 0 r = true /\ PrimFloat.leb r 1 = true.

(** A bound the values of [cast] can be compared with. *)
Definition bound_fits (cast : Cast) (bound : value) : bool :=
  match cast, bound with
  | _, VNone => true
  | Int, VInt _ | Int, VFloat _ | Float, VInt _ | Float, VFloat _ => true
  | _, _ => false
  end.

(** The cast value is below the declared minimum / above the declared
    maximum. *)
Definition below (v bound : value) : Prop := is_None bound = false /\ py_lt v bound = Ok true.
Definition above (v bound : value) : Prop := is_None bound = false /\ py_gt v bound = Ok true.

(** [V] accepts whatever [W] accepts. *)
Definition accepts_at_least (W V : Validators) : Prop :=
  forall key v,
    (Date W key v = Accept -> Date V key v = Accept) /\
    (OptionalDate W key v = Accept -> OptionalDate V key v = Accept) /\
    (OptionalValue W key v = Accept -> OptionalValue V key v = Accept) /\
    (OptionalStrictlyPositive W key v = Accept -> OptionalStrictlyPositive V key v = Accept) /\
    (Positive W key v = Accept -> Positive V key v = Accept) /\
    (Rate W key v = Accept -> Rate V key v = Accept) /\
    (StrictlyPositive W key v = Accept -> StrictlyPositive V key v = Accept) /\
    (ValDisposition W key v = Accept -> ValDisposition V key v = Accept).

(** The argument vector of the round trip. *)
Definition round_trip_argv : list string :=
  [ "--population"; "1000"; "--market-share"; "0.15";
    "--relative-contact-rate"; "0.3"; "--doubling-time"; "4";
    "--infectious-days"; "14"; "--hospitalized-days"; "7";
    "--hospitalized-rate"; "0.025"; "--icu-days"; "9"; "--icu-rate"; "0.0075";
    "--ventilated-days"; "10"; "--ventilated-rate"; "0.005";
    "--current-hospitalized"; "20"; "--n-days"; "60"; "--max-y-axis"; "500";
    "--recovered"; "0" ].

(** The destinations of the options of a parser. *)
Definition parser_dests (parser : ArgumentParser) : list string :=
  flat_map (fun a =>
              match a with
              | HelpAction => []
              | StoreAction _ dest _ => [dest]
              end) (actions parser).

(** What an argument vector stores in [dest] last, if it parses and
    mentions the flag. *)
Definition supplied (args : list string) (dest : string) : option value :=
  match parse_actions Parameters_parser args with
  | Ok stores => final dest stores
  | Err _ => None
  end.

(** The path [Parameters.create] takes the parameters file from: the
    command line's, or else the environment's; [None] for no file. *)
Definition parameters_file (env : list (string * string)) (argv : list string) : value :=
  match supplied argv "parameters" with
  | Some v => if is_None v then env_get env "PARAMETERS" else v
  | None => env_get env "PARAMETERS"
  end.

(** The argument strings of the parameters file, [[]] without a file. *)
Definition file_args (env : list (string * string)) (fs : string -> option string)
    (argv : list string) : list string :=
  if is_None (parameters_file env argv) then []
  else match open_read fs (parameters_file env argv) with
       | Ok contents => split contents
       | Err _ => []
       end.

(** The file's value of a flag when the file supplies it, else the command
    line's, else [None]. *)
Definition layered (env : list (string * string)) (fs : string -> option string)
    (argv : list string) (dest : string) : value :=
  match supplied (file_args env fs argv) dest with
  | Some v => v
  | None =>
      match supplied argv dest with
      | Some v => v
      | None => VNone
      end
  end.

(** The namespace of a parse that stores nothing. *)
Definition cli_defaults : attrs :=
  [ ("parameters", VNone); ("current_hospitalized", VNone); ("current_date", VNone);
    ("date_first_hospitalized", VNone); ("doubling_time", VNone);
    ("hospitalized_days", VNone); ("hospitalized_rate", VNone); ("icu_days", VNone);
    ("icu_rate", VNone); ("market_share", VNone); ("infectious_days", VNone);
    ("mitigation_date", VNone); ("max_y_axis", VNone); ("n_days", VNone);
    ("recovered", VNone); ("relative_contact_rate", VNone); ("population", VNone);
    ("ventilated_days", VNone); ("ventilated_rate", VNone) ].

(** The flags that become fields of the same name. *)
Definition plain_fields : list string :=
  [ "current_hospitalized"; "date_first_hospitalized"; "doubling_time"; "market_share";
    "infectious_days"; "max_y_axis"; "n_days"; "recovered"; "relative_contact_rate";
    "population" ].

(** A store of the parser: the destination is an option's, and the value
    is the option's type function applied to an argument string, or the
    empty list when the option was left without one. *)
Definition stored_by (parser : ArgumentParser) (assignment : string * value) : Prop :=
  exists option_string type,
    In (StoreAction option_string (fst assignment) type) (actions parser) /\
    (snd assignment = VList [] \/ exists arg_string, type arg_string = Ok (snd assignment)).


(** The same, for the classified argument strings and the registry. *)
Definition from_registry (registry : list (string * action)) (c : string * arg_class) : Prop :=
  match snd c with
  | ClassO (Some a, _, _) => In a (map snd registry)
  | _ => True
  end.

Definition registry_store (registry : list (string * action)) (assignment : string * value)
    : Prop :=
  exists option_string type,
    In (StoreAction option_string (fst assignment) type) (map snd registry) /\
    (snd assignment = VList [] \/ exists arg_string, type arg_string = Ok (snd assignment)).


(** The option [Parameters.parser] registers for a schema entry. *)
Definition option_of (entry : cli_arg) : action :=
  let '(name, cast, min_value, max_value, _, required) := entry in
  StoreAction (to_cli name) (infer_dest (to_cli name))
    (validator (to_cli name) cast min_value max_value required).

(** The attribute a flag is stored in. *)
Definition flag_dest (name : string) : string := infer_dest (to_cli name).

(* ================================================================== *)
(** ** Concrete runs *)

Definition a_day : date := mkdate 2020 4 1.

(** No file can be read. *)
Definition no_files : string -> option string := fun _ => None.

(** The round-trip arguments without [--doubling-time] and [--max-y-axis]. *)
Definition short_argv : list string :=
  [ "--population"; "1000"; "--market-share"; "0.15";
    "--relative-contact-rate"; "0.3";
    "--infectious-days"; "14"; "--hospitalized-days"; "7";
    "--hospitalized-rate"; "0.025"; "--icu-days"; "9"; "--icu-rate"; "0.0075";
    "--ventilated-days"; "10"; "--ventilated-rate"; "0.005";
    "--current-hospitalized"; "20"; "--n-days"; "60";
    "--recovered"; "0" ].

(** A command line that names a parameters file, and the file. *)
Definition layered_argv : list string :=
  (round_trip_argv ++ [ "--current-date"; "2020-03-01"; "--parameters"; "chime.cfg" ])%list.

Definition one_file : string -> option string :=
  fun path => if (path =? "chime.cfg")%string
              then Some "--n-days 30 --current-date=" else None.

Definition two_regions : value := Regions [("north", 600); ("south", 400)].


(* ================================================================== *)
(** ** Further notions *)

(** The sum of the counts of the regions. *)
Definition total (kwargs : list (string * Z)) : Z := fold_right Z.add 0 (map snd kwargs).

(** The character of a decimal digit. *)
Definition digit_char (n : Z) : ascii := ascii_of_nat (Z.to_nat (48 + n)).

(** [d.isoformat()]: [YYYY-MM-DD], zero padded. *)
Definition isoformat (d : date) : string :=
  string_of_list_ascii
    [ digit_char (year d / 1000); digit_char (year d / 100 mod 10);
      digit_char (year d / 10 mod 10); digit_char (year d mod 10); "-"%char;
      digit_char (month d / 10); digit_char (month d mod 10); "-"%char;
      digit_char (day d / 10); digit_char (day d mod 10) ].

(** The dictionary the first loop of [Parameters.__init__] collects when
    every keyword is accepted. *)
Definition collected (kwargs : attrs) : attrs := fold_left store kwargs [].

(** [isinstance(v, (int, float))]. *)
Definition is_number (v : value) : bool :=
  match v with
  | VInt _ | VFloat _ => true
  | _ => false
  end.

(** Validators for the runs below that compare their value with a number,
    as [value < 0] does: on a value that is not a number the comparison
    raises a TypeError. *)
Definition comparing (accepts : value -> bool) (constraint : string)
    : string -> value -> verdict :=
  fun _ v => if is_number v then check (accepts v) constraint
             else Mismatch "'<' not supported between instances".

Definition comparing_validators : Validators :=
  {| Date := Date spec_validators;
     OptionalDate := OptionalDate spec_validators;
     OptionalValue := OptionalValue spec_validators;
     OptionalStrictlyPositive := OptionalStrictlyPositive spec_validators;
     Positive := comparing ge_zero "value >= 0";
     Rate := comparing (fun v => ge_zero v && le_one v) "0 <= value <= 1";
     StrictlyPositive := comparing gt_zero "value > 0";
     ValDisposition := ValDisposition spec_validators |}.

(** The flags that reach [Parameters.__init__] under their own name, in the
    order of the command-line schema. *)
Definition field_flags : list string :=
  [ "current_hospitalized"; "current_date"; "date_first_hospitalized"; "doubling_time";
    "market_share"; "infectious_days"; "mitigation_date"; "max_y_axis"; "n_days";
    "recovered"; "relative_contact_rate"; "population" ].

(** [Parameters.create] without its namespace: the two parses, the checks
    of the days and rates, the three Dispositions, and the constructor on
    the Dispositions and the layered values of the other flags. *)
Definition resolution (V : Validators) (today : date) (env : list (string * string))
    (fs : string -> option string) (argv : list string) : result attrs :=
  parse_actions Parameters_parser argv ;;
  (if is_None (parameters_file env argv) then Ok []
   else contents <- open_read fs (parameters_file env argv) ;;
        parse_actions Parameters_parser (split contents)) ;;
  let value_of := layered env fs argv in
  call (Positive V) "hospitalized_days" (value_of "hospitalized_days") ;;
  call (Positive V) "icu_days" (value_of "icu_days") ;;
  call (Positive V) "ventilated_days" (value_of "ventilated_days") ;;
  call (Rate V) "hospitalized_rate" (value_of "hospitalized_rate") ;;
  call (Rate V) "icu_rate" (value_of "icu_rate") ;;
  call (Rate V) "ventilated_rate" (value_of "ventilated_rate") ;;
  hospitalized <- Disposition_create V (value_of "hospitalized_days")
                    (value_of "hospitalized_rate") ;;
  icu <- Disposition_create V (value_of "icu_days") (value_of "icu_rate") ;;
  ventilated <- Disposition_create V (value_of "ventilated_days")
                  (value_of "ventilated_rate") ;;
  Parameters V today
    ([ ("hospitalized", hospitalized); ("icu", icu); ("ventilated", ventilated) ]
     ++ map (fun dest => (dest, value_of dest)) field_flags)%list.




(** The keywords [Parameters.create] calls the constructor with. *)
Definition created_keywords (value_of : string -> value) : attrs :=
  ([ ("hospitalized",
      VDisposition (value_of "hospitalized_days") (value_of "hospitalized_rate"));
     ("icu", VDisposition (value_of "icu_days") (value_of "icu_rate"));
     ("ventilated", VDisposition (value_of "ventilated_days") (value_of "ventilated_rate")) ]
   ++ map (fun dest => (dest, value_of dest)) field_flags)%list.

(** The parameters file, when one is named, can be read and parsed. *)
Definition file_parses (env : list (string * string)) (fs : string -> option string)
    (argv : list string) : Prop :=
  parameters_file env argv = VNone \/
  exists contents file,
    open_read fs (parameters_file env argv) = Ok contents /\
    parse_actions Parameters_parser (split contents) = Ok file.

(** The days and the rate of a disposition pass [Positive] and [Rate],
    under the names of their flags and under [days] and [rate]. *)
Definition disposition_passes (V : Validators) (value_of : string -> value)
    (days rate : string) : Prop :=
  Positive V days (value_of days) = Accept /\
  Rate V rate (value_of rate) = Accept /\
  Positive V "days" (value_of days) = Accept /\
  Rate V "rate" (value_of rate) = Accept.

(** The option strings of [Parameters.parser], [-h] and [--help] first. *)
Definition option_strings : list string := map fst (option_string_actions Parameters_parser).

(** An argument string that cannot be taken for an option: it does not
    start with [-], or it is a negative number. *)
Definition argument_like (string : string) : bool :=
  negb (String.prefix "-" string) || negative_number_like string.

(** The options that a long option string without [=] may abbreviate. *)
Definition candidates (registry : list (string * action)) (p : string) : list option_tuple :=
  flat_map (fun entry : string * action =>
              if String.prefix p (fst entry)
              then [(Some (snd entry), fst entry, @None string)] else [])
    registry.


(* ================================================================== *)
(** * Properties *)

#[local] Open Scope list_scope.

(* ---------- attribute dictionaries ---------- *)

Lemma lookup_setattr o k v n :
  lookup n (setattr o k v) = if (k =? n)%string then Some v else lookup n o.
Proof.
  induction o as [|[k' w] o IH]; cbn.
  - reflexivity.
  - destruct (String.eqb_spec k' k) as [->|Hk]; cbn.
    + destruct (k =? n)%string; reflexivity.
    + rewrite IH. destruct (String.eqb_spec k' n) as [->|Hn]; [|reflexivity].
      destruct (String.eqb_spec k n) as [->|]; [congruence|reflexivity].
Qed.

Lemma lookup_app n a b :
  lookup n (a ++ b) = match lookup n a with Some v => Some v | None => lookup n b end.
Proof.
  induction a as [|[k w] a IH]; cbn; [reflexivity|].
  destruct (k =? n)%string; [reflexivity|exact IH].
Qed.

Lemma lookup_fold_store n l o :
  lookup n (fold_left store l o) =
  match final n l with Some v => Some v | None => lookup n o end.
Proof.
  unfold final. revert o. induction l as [|[k v] l IH]; intros o; cbn; [reflexivity|].
  rewrite IH, lookup_app. unfold store. rewrite lookup_setattr. cbn.
  destruct (lookup n (rev l)); [reflexivity|].
  destruct (k =? n)%string; reflexivity.
Qed.

Lemma lookup_In n o v : lookup n o = Some v -> In (n, v) o.
Proof.
  induction o as [|[k w] o IH]; cbn; [discriminate|].
  destruct (String.eqb_spec k n) as [->|]; intros H.
  - injection H as ->. now left.
  - right. auto.
Qed.

Lemma final_In n l v : final n l = Some v -> In (n, v) l.
Proof. unfold final. intros H. apply lookup_In in H. now apply in_rev. Qed.

Lemma lookup_None_In n o v : lookup n o = None -> ~ In (n, v) o.
Proof.
  induction o as [|[k w] o IH]; cbn; [tauto|].
  destruct (String.eqb_spec k n) as [->|Hk]; [discriminate|].
  intros H [E|E]; [injection E as -> _; congruence|]. now apply IH.
Qed.

Lemma In_final n v l : In (n, v) l -> exists w, final n l = Some w.
Proof.
  unfold final. intros H. apply in_rev in H.
  destruct (lookup n (rev l)) as [w|] eqn:E; [now exists w|].
  exfalso. eapply lookup_None_In; eauto.
Qed.

Lemma lookup_remove_other n k o : n <> k -> lookup n (remove k o) = lookup n o.
Proof.
  intros Hn. induction o as [|[k' w] o IH]; cbn; [reflexivity|].
  destruct (String.eqb_spec k' k) as [->|Hk]; cbn.
  - destruct (String.eqb_spec k n); [congruence|reflexivity].
  - now rewrite IH.
Qed.

(* ---------- the two loops ---------- *)
Section Loops.
Variable V : Validators.

Lemma first_loop_ok kwargs collected passed :
  passed_and_default_parameters V kwargs collected = Ok passed ->
  passed = fold_left store kwargs collected /\
  Forall (fun kv => accepted V (fst kv) = true) kwargs.
Proof.
  revert collected. induction kwargs as [|[k v] kwargs IH]; intros collected;
    cbn [passed_and_default_parameters find option_map fst fold_left].
  - intros [= <-]. split; [reflexivity|constructor].
  - destruct (accepted V k) eqn:Hk; cbn [negb]; [|discriminate].
    intros H. apply IH in H as [-> HF]. split; [reflexivity|]. constructor; assumption.
Qed.

Lemma first_loop_err kwargs collected e :
  passed_and_default_parameters V kwargs collected = Err e ->
  exists key, first_unexpected V kwargs = Some key /\ e = ValueError (MsgUnexpected key).
Proof.
  unfold first_unexpected.
  revert collected. induction kwargs as [|[k v] kwargs IH]; intros collected;
    cbn [passed_and_default_parameters find option_map fst fold_left].
  - discriminate.
  - destruct (accepted V k) eqn:Hk; cbn [negb option_map fst].
    + apply IH.
    + intros [= <-]. exists k. split; reflexivity.
Qed.

Lemma first_loop_total kwargs collected :
  passed_and_default_parameters V kwargs collected =
  match first_unexpected V kwargs with
  | Some key => Err (ValueError (MsgUnexpected key))
  | None => Ok (fold_left store kwargs collected)
  end.
Proof.
  unfold first_unexpected.
  revert collected. induction kwargs as [|[k v] kwargs IH]; intros collected;
    cbn [passed_and_default_parameters find option_map fst fold_left].
  - reflexivity.
  - destruct (accepted V k) eqn:Hk; cbn [negb option_map fst]; [apply IH|reflexivity].
Qed.

Lemma validated_ok f k v : validated f k v = Ok tt <-> f k v = Accept.
Proof.
  unfold validated, call. destruct (f k v); split; intros H; try discriminate; reflexivity.
Qed.

Lemma second_loop_ok passed self self' :
  for_each passed (validate_and_assign V) self = (self', Ok tt) ->
  self' = fold_left store passed self /\ Forall (passes V) passed.
Proof.
  revert self. induction passed as [|[k v] passed IH]; intros self; cbn.
  - intros [= <-]. split; [reflexivity|constructor].
  - unfold validate_and_assign at 1, mbind, lift, self_set.
    destruct (item (ACCEPTED_PARAMETERS V) k) as [entry|e] eqn:Hi; [|discriminate].
    destruct (validated (fst (fst entry)) k v) as [[]|e] eqn:Hv; [|discriminate].
    intros H. apply IH in H as [-> HF]. split; [reflexivity|].
    constructor; [|assumption]. exists entry. split; [assumption|]. now apply validated_ok.
Qed.

End Loops.

Section Init.
Variable V : Validators.

Lemma init_unexpected today kwargs key :
  first_unexpected V kwargs = Some key ->
  Parameters_init V today kwargs [] = (unassigned, Err (ValueError (MsgUnexpected key))).
Proof.
  intros H. unfold Parameters_init.
  cbn [mbind self_set setattr String.eqb Ascii.eqb Bool.eqb].
  unfold mbind at 1. unfold lift at 1.
  rewrite first_loop_total, H. reflexivity.
Qed.

Lemma call_ok f k v : call f k v = Ok tt <-> f k v = Accept.
Proof. unfold call. destruct (f k v); split; intros H; try discriminate; reflexivity. Qed.

Lemma setattr_same o n v : lookup n o = Some v -> setattr o n v = o.
Proof.
  induction o as [|[k w] o IH]; cbn; [discriminate|].
  destruct (String.eqb_spec k n) as [->|Hk].
  - now intros [= ->].
  - intros H. now rewrite IH.
Qed.

Lemma init_ok today kwargs p :
  Parameters V today kwargs = Ok p ->
  exists self cd md h i v,
    first_unexpected V kwargs = None /\
    self = fold_left store (fold_left store kwargs []) unassigned /\
    Forall (passes V) (fold_left store kwargs []) /\
    lookup "current_date" self = Some cd /\
    lookup "mitigation_date" self = Some md /\
    lookup "hospitalized" self = Some h /\
    lookup "icu" self = Some i /\
    lookup "ventilated" self = Some v /\
    (lookup "region" self <> Some VNone \/ lookup "population" self <> Some VNone) /\
    Date V "current_date" (resolve today cd) = Accept /\
    Date V "mitigation_date" (resolve today md) = Accept /\
    p = setattr
          (setattr
             (setattr (setattr self "current_date" (resolve today cd))
                "mitigation_date" (resolve today md))
             "labels" labels)
          "dispositions" (VDict [("hospitalized", h); ("icu", i); ("ventilated", v)]).
Proof.
  unfold Parameters, Parameters_init.
  cbn [mbind self_set setattr String.eqb Ascii.eqb Bool.eqb].
  fold unassigned.
  unfold mbind at 1. unfold lift at 1.
  rewrite first_loop_total.
  destruct (first_unexpected V kwargs) as [key|] eqn:Hfirst; [discriminate|].
  unfold mbind at 1. fold (validate_and_assign V).
  destruct (for_each (fold_left store kwargs []) (validate_and_assign V) unassigned)
    as [self [[]|e]] eqn:Hloop;
    [|discriminate].
  apply second_loop_ok in Hloop as [Hself Hpass].
  revert Hself. generalize (fold_left store (fold_left store kwargs []) unassigned).
  intros self0 ->.
  unfold mbind, self_get, getattr.
  destruct (lookup "region" self0) as [region|] eqn:Hregion; [|discriminate].
  assert (Hinv : (if is_None region
                  then match lookup "population" self0 with
                       | Some population => is_None population
                       | None => true
                       end
                  else false) = false ->
                 Some region <> Some VNone \/
                 lookup "population" self0 <> Some VNone).
  { destruct region; cbn; intros H; try (left; discriminate).
    right. destruct (lookup "population" self0) as [[]|]; cbn in H; discriminate. }
  repeat (first
            [ rewrite lookup_setattr; cbn [String.eqb Ascii.eqb Bool.eqb]
            | match goal with
              | H : lookup ?n ?s = _ |- context [lookup ?n ?s] => rewrite H
              | |- context [match lookup ?n ?s with _ => _ end] =>
                  is_var s; destruct (lookup n s) eqn:?; try discriminate
              | |- context [if is_None ?v then _ else _] =>
                  destruct (is_None v) eqn:?; try discriminate
              | |- context [call ?f ?k ?v] =>
                  destruct (call f k v) as [[]|] eqn:?; try discriminate
              end ]; cbn [mret raise self_set lift]).
  all: intros [= <-]; exists self0; do 5 eexists.
  all: split; [reflexivity|]; split; [reflexivity|]; split; [assumption|].
  all: do 5 (split; [eassumption|]).
  all: (split; [rewrite Hregion;
                 try match goal with H : lookup "population" _ = _ |- _ => rewrite H end;
                 apply Hinv; reflexivity|]).
  all: unfold resolve;
    repeat match goal with H : is_None _ = _ |- _ => rewrite H; clear H end.
  all: split; [apply call_ok; assumption|]; split; [apply call_ok; assumption|].
  all: repeat match goal with
              | H : lookup ?n _ = Some ?v |- context [setattr ?s ?n ?v] =>
                  rewrite (setattr_same s n v)
                    by (rewrite ?lookup_setattr; cbn [String.eqb Ascii.eqb Bool.eqb]; exact H)
              end.
  all: reflexivity.
Qed.
End Init.

(* ---------- keys ---------- *)

Lemma lookup_None_keys n o : lookup n o = None <-> ~ In n (keys o).
Proof.
  unfold keys. induction o as [|[k w] o IH]; cbn; [tauto|].
  destruct (String.eqb_spec k n) as [->|Hk].
  - split; [discriminate|]. intros H. exfalso. apply H. now left.
  - rewrite IH. split; [intros H [E|E]; [congruence|tauto]|tauto].
Qed.

Lemma keys_setattr o k v :
  keys (setattr o k v) = if has k o then keys o else keys o ++ [k].
Proof.
  unfold has, keys. induction o as [|[k' w] o IH]; cbn; [reflexivity|].
  destruct (String.eqb_spec k' k) as [->|Hk]; cbn; [reflexivity|].
  rewrite IH. destruct (lookup k o); reflexivity.
Qed.

Lemma NoDup_setattr o k v : NoDup (keys o) -> NoDup (keys (setattr o k v)).
Proof.
  intros H. rewrite keys_setattr. unfold has.
  destruct (lookup k o) eqn:E; [assumption|].
  apply lookup_None_keys in E.
  apply NoDup_app; [assumption|repeat constructor; cbn; tauto|].
  intros x Hx [<-|[]]. contradiction.
Qed.

Lemma NoDup_fold_store l o : NoDup (keys o) -> NoDup (keys (fold_left store l o)).
Proof.
  revert o. induction l as [|[k v] l IH]; intros o H; cbn; [assumption|].
  apply IH. now apply NoDup_setattr.
Qed.

Lemma final_NoDup n o : NoDup (keys o) -> final n o = lookup n o.
Proof.
  unfold final, keys. induction o as [|[k w] o IH]; cbn; [reflexivity|].
  intros H. inversion H as [|? ? Hk Ho]; subst. fold (keys o) in Hk.
  rewrite lookup_app. cbn. rewrite (IH Ho).
  destruct (String.eqb_spec k n) as [->|Hn].
  - apply lookup_None_keys in Hk. now rewrite Hk.
  - destruct (lookup n o); reflexivity.
Qed.

Lemma final_collected n kwargs : final n (fold_left store kwargs []) = final n kwargs.
Proof.
  rewrite final_NoDup by (apply NoDup_fold_store; constructor).
  rewrite lookup_fold_store. cbn. now destruct (final n kwargs).
Qed.

Lemma lookup_assigned n kwargs :
  In n (keys unassigned) ->
  lookup n (fold_left store (fold_left store kwargs []) unassigned) = Some (given n kwargs).
Proof.
  intros Hn. rewrite lookup_fold_store, final_collected. unfold given.
  destruct (final n kwargs); [reflexivity|].
  cbn in Hn. repeat (destruct Hn as [<-|Hn]; [reflexivity|]). contradiction.
Qed.

Lemma unset_given n kwargs : unset n kwargs -> given n kwargs = VNone.
Proof.
  unfold unset, given. intros H. destruct (final n kwargs) as [v|] eqn:E; [|reflexivity].
  apply H. now apply final_In.
Qed.

Lemma In_setattr kv o k v : In kv (setattr o k v) -> kv = (k, v) \/ In kv o.
Proof.
  induction o as [|[k' w] o IH]; cbn.
  - intros [<-|[]]. now left.
  - destruct (k' =? k)%string eqn:E; cbn.
    + apply String.eqb_eq in E as ->. intros [<-|H]; [now left|tauto].
    + intros [<-|H]; [tauto|]. apply IH in H. tauto.
Qed.

Lemma In_fold_store kv l o : In kv (fold_left store l o) -> In kv l \/ In kv o.
Proof.
  revert o. induction l as [|[k v] l IH]; intros o; cbn; [tauto|].
  intros H. apply IH in H as [H|H]; [tauto|].
  apply In_setattr in H as [->|H]; tauto.
Qed.

Lemma accepted_names V key : accepted V key = true <-> In key parameter_names.
Proof.
  unfold accepted. rewrite existsb_exists. split.
  - intros [[k e] [Hin Hk]]. cbn in Hk. apply String.eqb_eq in Hk as <-.
    change parameter_names with (map fst (ACCEPTED_PARAMETERS V)).
    now apply (in_map fst) in Hin.
  - change parameter_names with (map fst (ACCEPTED_PARAMETERS V)).
    intros H. apply in_map_iff in H as [[k e] [<- Hin]].
    exists (k, e). split; [assumption|]. apply String.eqb_refl.
Qed.

Lemma first_unexpected_Some V kwargs key :
  first_unexpected V kwargs = Some key ->
  In key (keys kwargs) /\ accepted V key = false.
Proof.
  unfold first_unexpected.
  destruct (find _ kwargs) as [[k v]|] eqn:E; [|discriminate].
  intros [= <-]. apply find_some in E as [Hin Hk]. cbn [fst] in Hk.
  split; [now apply (in_map fst) in Hin|]. now destruct (accepted V k).
Qed.

Lemma first_unexpected_None V kwargs :
  first_unexpected V kwargs = None <->
  forall key, In key (keys kwargs) -> accepted V key = true.
Proof.
  unfold first_unexpected. split.
  - destruct (find _ kwargs) as [[k v]|] eqn:E; [discriminate|]. intros _ key Hin.
    apply in_map_iff in Hin as [[k v] [<- Hin]].
    apply (find_none _ _ E) in Hin. cbn [fst] in *. now destruct (accepted V k).
  - intros H. destruct (find _ kwargs) as [[k v]|] eqn:E; [|reflexivity].
    apply find_some in E as [Hin Hk]. cbn [fst] in Hk.
    rewrite (H k) in Hk; [discriminate|]. now apply (in_map fst) in Hin.
Qed.

(** C8: when the keywords contain a name that is not in the Field Schema,
    [Parameters.__init__] fails with the unexpected-parameter error that
    names the first keyword, in keyword order, the schema does not have,
    and it leaves the object as the sixteen initial assignments made it:
    no keyword has been assigned. *)
Theorem unexpected_keyword_rejected V today kwargs key :
  In key (keys kwargs) ->
  accepted V key = false ->
  exists first,
    first_unexpected V kwargs = Some first /\
    Parameters_init V today kwargs [] = (unassigned, Err (ValueError (MsgUnexpected first))).
Proof.
  intros Hin Hkey.
  destruct (first_unexpected V kwargs) as [first|] eqn:E.
  - exists first. split; [reflexivity|]. now apply init_unexpected.
  - rewrite first_unexpected_None in E. rewrite (E key Hin) in Hkey. discriminate.
Qed.

(** C10: after every successful construction the [dispositions] table maps
    the keys hospitalized, icu and ventilated, in this order, to the very
    values of the object's [hospitalized], [icu] and [ventilated]
    attributes. *)
Theorem dispositions_table V today kwargs p :
  Parameters V today kwargs = Ok p ->
  exists hospitalized icu ventilated,
    getattr p "hospitalized" = Ok hospitalized /\
    getattr p "icu" = Ok icu /\
    getattr p "ventilated" = Ok ventilated /\
    getattr p "dispositions" =
      Ok (VDict [("hospitalized", hospitalized); ("icu", icu); ("ventilated", ventilated)]).
Proof.
  intros H.
  apply init_ok in H as (self & cd & md & h & i & v & _ & _ & _ & _ & _ & Hh & Hi & Hv
                         & _ & _ & _ & ->).
  exists h, i, v. unfold getattr.
  rewrite !lookup_setattr. cbn [String.eqb Ascii.eqb Bool.eqb].
  rewrite Hh, Hi, Hv. repeat split; reflexivity.
Qed.

(** C9: whenever construction succeeds, the object's [current_date] is
    today's date if the keywords leave [current_date] unset (absent or
    None), likewise for [mitigation_date], and both dates of the object are
    ones the [Date] validator accepts: they were validated again after the
    defaulting. *)
Theorem dates_default_to_today V today kwargs p :
  Parameters V today kwargs = Ok p ->
  (unset "current_date" kwargs -> getattr p "current_date" = Ok (VDate today)) /\
  (unset "mitigation_date" kwargs -> getattr p "mitigation_date" = Ok (VDate today)) /\
  exists current_date mitigation_date,
    getattr p "current_date" = Ok current_date /\
    getattr p "mitigation_date" = Ok mitigation_date /\
    Date V "current_date" current_date = Accept /\
    Date V "mitigation_date" mitigation_date = Accept.
Proof.
  intros H.
  apply init_ok in H as (self & cd & md & h & i & v & _ & -> & _ & Hcd & Hmd & _ & _ & _ & _
                         & Dcd & Dmd & ->).
  rewrite lookup_assigned in Hcd, Hmd by (cbn; tauto).
  injection Hcd as <-. injection Hmd as <-.
  unfold getattr. rewrite !lookup_setattr. cbn [String.eqb Ascii.eqb Bool.eqb].
  split; [|split].
  - intros U. now rewrite (unset_given _ _ U).
  - intros U. now rewrite (unset_given _ _ U).
  - eauto 10.
Qed.

(* ---------- running the constructor forward ---------- *)

Section Forward.
Variable V : Validators.

Lemma second_loop_run passed self :
  Forall (passes V) passed ->
  for_each passed (validate_and_assign V) self = (fold_left store passed self, Ok tt).
Proof.
  revert self. induction passed as [|[k v] passed IH]; intros self H; cbn; [reflexivity|].
  inversion H as [|? ? [entry [Hi Hv]] Hrest]; subst. cbn [fst snd] in Hi, Hv.
  unfold validate_and_assign at 1, mbind, lift, self_set. rewrite Hi.
  apply validated_ok in Hv. rewrite Hv. now apply IH.
Qed.

Lemma call_err f k v e :
  call f k v = Err e ->
  (exists c, e = ValidationError k c) \/ (exists w, e = TypeError (Msg w)).
Proof.
  unfold call. destruct (f k v); intros [= <-]; eauto.
Qed.

Lemma second_loop_err passed self self' e :
  for_each passed (validate_and_assign V) self = (self', Err e) ->
  forall key, e <> ValueError (MsgUnexpected key).
Proof.
  revert self. induction passed as [|[k v] passed IH]; intros self; cbn; [discriminate|].
  unfold validate_and_assign at 1, mbind, lift, self_set.
  destruct (item (ACCEPTED_PARAMETERS V) k) as [entry|e0] eqn:Hi.
  - unfold validated.
    destruct (call (fst (fst entry)) k v) as [[]|e0] eqn:Hc.
    + apply IH.
    + apply call_err in Hc as [[c ->]|[w ->]]; cbn; intros [= _ <-] key; discriminate.
  - intros [= _ <-] key. clear -Hi. revert Hi.
    generalize (ACCEPTED_PARAMETERS V). intros d. induction d as [|[k' a] d IH]; cbn.
    + intros [= <-]. discriminate.
    + destruct (k' =? k)%string; [discriminate|exact IH].
Qed.

Lemma item_accepted key entry :
  item (ACCEPTED_PARAMETERS V) key = Ok entry -> accepted V key = true.
Proof.
  unfold accepted. generalize (ACCEPTED_PARAMETERS V). intros d.
  induction d as [|[k a] d IH]; cbn; [discriminate|].
  destruct (k =? key)%string; [reflexivity|exact IH].
Qed.

(** What the constructor does once the keywords are accepted and pass
    their validators. *)
Lemma init_run today kwargs :
  let self := fold_left store (fold_left store kwargs []) unassigned in
  first_unexpected V kwargs = None ->
  Forall (passes V) (fold_left store kwargs []) ->
  Parameters V today kwargs =
    if is_None (given "region" kwargs) && is_None (given "population" kwargs)
    then Err (AssertionError (Msg "population or regions must be provided."))
    else
      call (Date V) "current_date" (resolve today (given "current_date" kwargs)) ;;
      call (Date V) "mitigation_date" (resolve today (given "mitigation_date" kwargs)) ;;
      Ok (setattr
            (setattr
               (setattr
                  (setattr self "current_date" (resolve today (given "current_date" kwargs)))
                  "mitigation_date" (resolve today (given "mitigation_date" kwargs)))
               "labels" labels)
            "dispositions"
            (VDict [ ("hospitalized", given "hospitalized" kwargs);
                     ("icu", given "icu" kwargs);
                     ("ventilated", given "ventilated" kwargs) ])).
Proof.
  intros self Hfirst Hpass.
  unfold Parameters, Parameters_init.
  cbn [mbind self_set setattr String.eqb Ascii.eqb Bool.eqb].
  fold unassigned.
  unfold mbind at 1. unfold lift at 1.
  rewrite first_loop_total, Hfirst.
  unfold mbind at 1. fold (validate_and_assign V).
  rewrite (second_loop_run _ _ Hpass). fold self.
  assert (L : forall n, In n (keys unassigned) -> lookup n self = Some (given n kwargs))
    by (intros n Hn; now apply lookup_assigned).
  clearbody self.
  unfold mbind, self_get, getattr, resolve, bind.
  generalize (L "region" ltac:(cbn; tauto)) (L "population" ltac:(cbn; tauto))
    (L "current_date" ltac:(cbn; tauto)) (L "mitigation_date" ltac:(cbn; tauto))
    (L "hospitalized" ltac:(cbn; tauto)) (L "icu" ltac:(cbn; tauto))
    (L "ventilated" ltac:(cbn; tauto)).
  clear L.
  generalize (given "region" kwargs) (given "population" kwargs) (given "current_date" kwargs)
    (given "mitigation_date" kwargs) (given "hospitalized" kwargs) (given "icu" kwargs)
    (given "ventilated" kwargs).
  intros region population cd md h i v Hregion Hpopulation Hcd Hmd Hh Hi Hv.
  rewrite Hregion.
  destruct (is_None region); cbn [andb mret raise];
    [rewrite Hpopulation; destruct (is_None population); cbn [mret raise]; [reflexivity|]|].
  all: rewrite Hcd.
  all: destruct (is_None cd); cbn [mret raise self_set lift].
  all: repeat (first [ rewrite lookup_setattr; cbn [String.eqb Ascii.eqb Bool.eqb]
                     | match goal with
                       | H : lookup ?n ?s = _ |- context [lookup ?n ?s] => rewrite H
                       end ]).
  all: destruct (is_None md); cbn [mret raise self_set lift].
  all: repeat (first [ rewrite lookup_setattr; cbn [String.eqb Ascii.eqb Bool.eqb]
                     | match goal with
                       | H : lookup ?n ?s = _ |- context [lookup ?n ?s] => rewrite H
                       end ]).
  all: repeat match goal with
              | |- context [call ?f ?k ?x] => destruct (call f k x) as [[]|]
              end; try reflexivity.
  all: cbn [mret raise self_set lift].
  all: repeat (first [ rewrite lookup_setattr; cbn [String.eqb Ascii.eqb Bool.eqb]
                     | match goal with
                       | H : lookup ?n ?s = _ |- context [lookup ?n ?s] => rewrite H
                       end ]).
  all: repeat match goal with
              | H : lookup ?n _ = Some ?v |- context [setattr ?s ?n ?v] =>
                  rewrite (setattr_same s n v)
                    by (rewrite ?lookup_setattr; cbn [String.eqb Ascii.eqb Bool.eqb]; exact H)
              end.
  all: reflexivity.
Qed.

End Forward.

Lemma given_not_None n kwargs :
  given n kwargs <> VNone -> exists v, v <> VNone /\ In (n, v) kwargs.
Proof.
  unfold given. destruct (final n kwargs) as [v|] eqn:E; [|congruence].
  intros H. exists v. split; [assumption|]. now apply final_In.
Qed.

Lemma passes_collected V kwargs :
  (forall key v, In (key, v) kwargs -> passes V (key, v)) ->
  first_unexpected V kwargs = None /\ Forall (passes V) (fold_left store kwargs []).
Proof.
  intros H. split.
  - apply first_unexpected_None. intros key Hin.
    apply in_map_iff in Hin as [[k v] [<- Hin]].
    destruct (H k v Hin) as [entry [Hi _]]. now apply item_accepted in Hi.
  - apply Forall_forall. intros [k v] Hin.
    apply In_fold_store in Hin as [Hin|[]]. now apply H.
Qed.

(** C3: construction succeeds only if [region] or [population] is given a
    value other than None (at least one of them, possibly both); when both
    are unset construction fails, and the failure is the population/region
    invariant error provided every keyword is in the Field Schema and
    passes its validator. *)
Theorem population_or_region_required V today kwargs :
  (forall p, Parameters V today kwargs = Ok p ->
     exists v, v <> VNone /\ (In ("region", v) kwargs \/ In ("population", v) kwargs)) /\
  (unset "region" kwargs -> unset "population" kwargs ->
     exists e, Parameters V today kwargs = Err e /\
       ((forall key v, In (key, v) kwargs -> passes V (key, v)) ->
        e = AssertionError (Msg "population or regions must be provided."))).
Proof.
  split.
  - intros p H.
    apply init_ok in H as (self & cd & md & h & i & v & _ & -> & _ & _ & _ & _ & _ & _ & Hinv & _).
    rewrite !lookup_assigned in Hinv by (cbn; tauto).
    destruct Hinv as [Hinv|Hinv].
    + destruct (given_not_None "region" kwargs) as [w [Hw Hin]]; [congruence|eauto].
    + destruct (given_not_None "population" kwargs) as [w [Hw Hin]]; [congruence|eauto].
  - intros Hregion Hpopulation.
    destruct (Parameters V today kwargs) as [p|e] eqn:E.
    + exfalso.
      apply init_ok in E as (self & cd & md & h & i & v & _ & -> & _ & _ & _ & _ & _ & _
                             & Hinv & _).
      rewrite !lookup_assigned in Hinv by (cbn; tauto).
      rewrite (unset_given _ _ Hregion), (unset_given _ _ Hpopulation) in Hinv.
      destruct Hinv as [Hinv|Hinv]; now apply Hinv.
    + exists e. split; [reflexivity|]. intros Hpass.
      apply passes_collected in Hpass as [Hfirst Hpass].
      rewrite (init_run V today kwargs Hfirst Hpass) in E.
      rewrite (unset_given _ _ Hregion), (unset_given _ _ Hpopulation) in E.
      cbn in E. now injection E as <-.
Qed.

Lemma tail_not_unexpected V today kwargs e :
  first_unexpected V kwargs = None ->
  Parameters V today kwargs = Err e ->
  forall key, e <> ValueError (MsgUnexpected key).
Proof.
  intros Hfirst.
  unfold Parameters, Parameters_init.
  cbn [mbind self_set setattr String.eqb Ascii.eqb Bool.eqb].
  fold unassigned.
  unfold mbind at 1. unfold lift at 1.
  rewrite first_loop_total, Hfirst.
  unfold mbind at 1.
  match goal with
  | |- context [for_each ?l ?b ?s] => destruct (for_each l b s) as [self [[]|e']] eqn:Hloop
  end.
  2:{ intros [= <-]. eapply second_loop_err. exact Hloop. }
  clear Hloop. unfold mbind, self_get, getattr.
  repeat (first
            [ rewrite lookup_setattr; cbn [String.eqb Ascii.eqb Bool.eqb]
            | match goal with
              | H : lookup ?n ?s = _ |- context [lookup ?n ?s] => rewrite H
              | |- context [match lookup ?n ?s with _ => _ end] =>
                  is_var s; destruct (lookup n s) eqn:?
              | |- context [if is_None ?v then _ else _] =>
                  destruct (is_None v) eqn:?
              | |- context [call ?f ?k ?v] =>
                  let H := fresh "Hcall" in
                  destruct (call f k v) as [[]|] eqn:H;
                  [|apply call_err in H as [[? ->]|[? ->]]]
              end ]; cbn [mret raise self_set lift]).
  all: intros [= <-] key; discriminate.
Qed.

(** C6: the Field Schema has exactly sixteen names, none of them twice, and
    the constructor fails with the unexpected-parameter error exactly when
    some keyword is not one of them. *)
Theorem field_schema_names V :
  map fst (ACCEPTED_PARAMETERS V) = parameter_names /\
  List.length parameter_names = 16%nat /\
  NoDup parameter_names /\
  forall today kwargs,
    (exists key, Parameters V today kwargs = Err (ValueError (MsgUnexpected key))) <->
    (exists key, In key (keys kwargs) /\ ~ In key parameter_names).
Proof.
  split; [reflexivity|]. split; [reflexivity|]. split.
  - unfold parameter_names.
    repeat (constructor; [cbn; intuition discriminate|]). constructor.
  - intros today kwargs. split.
    + intros [key H].
      destruct (first_unexpected V kwargs) as [first|] eqn:E.
      * apply first_unexpected_Some in E as [Hin Hacc]. exists first. split; [assumption|].
        rewrite <- accepted_names with (V := V). now rewrite Hacc.
      * exfalso. now apply (tail_not_unexpected _ _ _ _ E H key).
    + intros [key [Hin Hkey]].
      destruct (first_unexpected V kwargs) as [first|] eqn:E.
      * exists first. unfold Parameters. now rewrite (init_unexpected V today kwargs first E).
      * rewrite first_unexpected_None in E. apply E, accepted_names in Hin. contradiction.
Qed.

(** [Disposition.create] under the validators of section 4.1. *)
Lemma Disposition_create_spec (d : Z) (r : float) :
  Disposition_create spec_validators (VInt d) (VFloat r) =
  if 0 <=? d then
    if PrimFloat.leb 0 r && PrimFloat.leb r 1
    then Ok (VDisposition (VInt d) (VFloat r))
    else Err (ValidationError "rate" "0 <= value <= 1")
  else Err (ValidationError "days" "value >= 0").
Proof.
  unfold Disposition_create, call, bind. cbn.
  destruct (0 <=? d); cbn; [|reflexivity].
  destruct (PrimFloat.leb 0 r && PrimFloat.leb r 1); reflexivity.
Qed.

(** C5: with the validators of section 4.1, for an integer [d] and a
    binary64 [r], [Disposition.create] succeeds exactly when [0 <= d] and
    [0 <= r <= 1]; on success the result holds both inputs unchanged; for
    [d < 0] it fails with a validation error citing days, and for [r]
    outside [0, 1] it fails citing rate when [0 <= d]: days is checked
    first. *)
Theorem disposition_create_validates (d : Z) (r : float) :
  let created := Disposition_create spec_validators (VInt d) (VFloat r) in
  (0 <= d /\ in_unit_interval r <-> exists disposition, created = Ok disposition) /\
  (forall disposition, created = Ok disposition ->
     disposition = VDisposition (VInt d) (VFloat r)) /\
  (d < 0 -> exists constraint, created = Err (ValidationError "days" constraint)) /\
  (0 <= d -> ~ in_unit_interval r ->
   exists constraint, created = Err (ValidationError "rate" constraint)).
Proof.
  cbv zeta. rewrite Disposition_create_spec. unfold in_unit_interval.
  destruct (Z.leb_spec 0 d) as [Hd|Hd];
    [destruct (PrimFloat.leb 0 r); destruct (PrimFloat.leb r 1); cbn [andb]|].
  all: repeat match goal with
              | |- _ /\ _ => split
              | |- _ <-> _ => split
              | |- forall _, _ => intro
              | |- _ -> _ => intro
              | H : _ /\ _ |- _ => destruct H
              | H : exists _, _ |- _ => destruct H
              | H : Ok _ = Ok _ |- _ => injection H as <-
              end.
  all: try discriminate; try lia; try congruence; try tauto; eauto.
Qed.

(* ---------- the flag validators ---------- *)

Lemma apply_cast_shape cast string v :
  apply_cast cast string = Ok v ->
  match cast with
  | Str => exists s, v = VStr s
  | Int => exists z, v = VInt z
  | Float => exists f, v = VFloat f
  | CastDate => exists d, v = VDate d
  end.
Proof.
  destruct cast; cbn; unfold cast_date, of_option.
  - intros [= <-]. eauto.
  - destruct (parse_int string); intros [= <-]. eauto.
  - destruct (parse_float string); intros [= <-]. eauto.
  - destruct (strptime_Ymd string); intros [= <-]. eauto.
Qed.

Lemma py_lt_fits cast string v bound :
  apply_cast cast string = Ok v -> bound_fits cast bound = true -> is_None bound = false ->
  exists b, py_lt v bound = Ok b.
Proof.
  intros Hv Hfit Hbound. apply apply_cast_shape in Hv.
  destruct cast, bound; try discriminate; destruct Hv as [x ->]; cbn; eauto.
Qed.

Lemma py_gt_fits cast string v bound :
  apply_cast cast string = Ok v -> bound_fits cast bound = true -> is_None bound = false ->
  exists b, py_gt v bound = Ok b.
Proof.
  intros Hv Hfit Hbound. apply apply_cast_shape in Hv.
  destruct cast, bound; try discriminate; destruct Hv as [x ->]; cbn; eauto.
Qed.

Lemma cli_args_bounds_fit :
  Forall (fun entry : cli_arg =>
            let '(_, cast, min_value, max_value, _, _) := entry in
            bound_fits cast min_value = true /\ bound_fits cast max_value = true) cli_args.
Proof. repeat constructor. Qed.

Lemma validator_cases arg cast min_value max_value required string :
  bound_fits cast min_value = true ->
  bound_fits cast max_value = true ->
  let validate := validator arg cast min_value max_value required in
  (string = "" /\ cast <> Str ->
     (required = false -> validate string = Ok VNone) /\
     (required = true -> validate string = Err (ValueError (MsgRequired arg)))) /\
  (~ (string = "" /\ cast <> Str) ->
     (forall e, apply_cast cast string = Err e -> validate string = Err e) /\
     (forall v, apply_cast cast string = Ok v ->
        (below v min_value -> validate string = Err (ValueError (MsgGreater arg min_value))) /\
        (~ below v min_value -> above v max_value ->
         validate string = Err (ValueError (MsgLess arg max_value))) /\
        (~ below v min_value -> ~ above v max_value -> validate string = Ok v))).
Proof.
  intros Hmin Hmax validate. subst validate. unfold validator, below, above.
  assert (Hcond : (string =? "")%string && negb (Cast_eqb cast Str) = true <->
                  string = "" /\ cast <> Str).
  { rewrite andb_true_iff, String.eqb_eq, negb_true_iff.
    destruct cast; cbn; intuition congruence. }
  destruct ((string =? "")%string && negb (Cast_eqb cast Str)) eqn:E.
  - split.
    + intros _. destruct required; split; intros; congruence.
    + intros H. exfalso. apply H. now apply Hcond.
  - split.
    + intros H. apply Hcond in H. discriminate.
    + intros _. split.
      * intros e ->. reflexivity.
      * intros v Hv. rewrite Hv. cbn [bind].
        destruct (is_None min_value) eqn:Emin; cbn [bind].
        -- destruct (is_None max_value) eqn:Emax; cbn [bind].
           ++ repeat split; intros; intuition congruence.
           ++ destruct (py_gt_fits _ _ _ _ Hv Hmax Emax) as [[] ->]; cbn [bind];
                repeat split; intros; intuition congruence.
        -- destruct (py_lt_fits _ _ _ _ Hv Hmin Emin) as [[] ->]; cbn [bind].
           ++ repeat split; intros; intuition congruence.
           ++ destruct (is_None max_value) eqn:Emax; cbn [bind].
              ** repeat split; intros; intuition congruence.
              ** destruct (py_gt_fits _ _ _ _ Hv Hmax Emax) as [[] ->]; cbn [bind];
                   repeat split; intros; intuition congruence.
Qed.

(** C7: for every CLI schema entry and every input string, the flag's
    validation function returns None on the empty string when the cast is
    not [str] and the entry is not required, and fails saying that the flag
    is required when it is; on any other string it casts (a failure of the
    cast is the failure of the function), fails with the must-be-greater
    message when a minimum is declared and the cast value is below it,
    else with the must-be-less message when a maximum is declared and the
    value is above it, and returns the cast value otherwise. *)
Theorem flag_validation name cast min_value max_value help required string :
  In (name, cast, min_value, max_value, help, required) cli_args ->
  let validate := validator (to_cli name) cast min_value max_value required in
  (string = "" /\ cast <> Str ->
     (required = false -> validate string = Ok VNone) /\
     (required = true -> validate string = Err (ValueError (MsgRequired (to_cli name))))) /\
  (~ (string = "" /\ cast <> Str) ->
     (forall e, apply_cast cast string = Err e -> validate string = Err e) /\
     (forall v, apply_cast cast string = Ok v ->
        (below v min_value ->
         validate string = Err (ValueError (MsgGreater (to_cli name) min_value))) /\
        (~ below v min_value -> above v max_value ->
         validate string = Err (ValueError (MsgLess (to_cli name) max_value))) /\
        (~ below v min_value -> ~ above v max_value -> validate string = Ok v))).
Proof.
  intros Hin.
  pose proof cli_args_bounds_fit as Hfit. rewrite Forall_forall in Hfit.
  destruct (Hfit _ Hin) as [Hmin Hmax].
  now apply validator_cases.
Qed.

(* ---------- more accepting validators ---------- *)

Section Monotone.
Variables W V : Validators.
Hypothesis HWV : accepts_at_least W V.

Lemma first_unexpected_any kwargs : first_unexpected V kwargs = first_unexpected W kwargs.
Proof. reflexivity. Qed.

Lemma passes_monotone kv : passes W kv -> passes V kv.
Proof.
  destruct kv as [k v]. unfold passes, ACCEPTED_PARAMETERS. cbn [fst snd item].
  repeat match goal with
         | |- context [(?s =? k)%string] =>
             destruct (s =? k)%string;
             [ intros [entry [[= <-] H]]; cbn [fst] in H; eexists; split; [reflexivity|];
               cbn [fst]; now apply HWV in H
             | ]
         end.
  intros [entry [H _]]. discriminate.
Qed.

Lemma call_monotone (f : Validators -> string -> value -> verdict) key v :
  (f W key v = Accept -> f V key v = Accept) ->
  call (f W) key v = Ok tt -> call (f V) key v = Ok tt.
Proof. intros H Hc. apply call_ok. apply H. now apply call_ok. Qed.

Lemma Disposition_create_monotone days rate x :
  Disposition_create W days rate = Ok x -> Disposition_create V days rate = Ok x.
Proof.
  unfold Disposition_create, bind.
  destruct (call (Positive W) "days" days) as [[]|] eqn:E1; [|discriminate].
  destruct (call (Rate W) "rate" rate) as [[]|] eqn:E2; [|discriminate].
  apply (call_monotone Positive) in E1; [|apply HWV].
  apply (call_monotone Rate) in E2; [|apply HWV].
  now rewrite E1, E2.
Qed.

Lemma Parameters_monotone today kwargs p :
  Parameters W today kwargs = Ok p -> Parameters V today kwargs = Ok p.
Proof.
  intros H.
  apply init_ok in H as (self & cd & md & h & i & v & Hfirst & -> & Hpass & Hcd & Hmd & Hh & Hi
                         & Hv & Hinv & Dcd & Dmd & ->).
  rewrite lookup_assigned in Hcd, Hmd, Hh, Hi, Hv by (cbn; tauto).
  rewrite !lookup_assigned in Hinv by (cbn; tauto).
  injection Hcd as <-. injection Hmd as <-. injection Hh as <-. injection Hi as <-.
  injection Hv as <-.
  rewrite init_run.
  - replace (is_None (given "region" kwargs) && is_None (given "population" kwargs))
      with false.
    + apply HWV in Dcd, Dmd. apply call_ok in Dcd, Dmd. now rewrite Dcd, Dmd.
    + destruct (given "region" kwargs), (given "population" kwargs); try reflexivity.
      destruct Hinv; congruence.
  - now rewrite first_unexpected_any.
  - eapply Forall_impl; [|exact Hpass]. intros kv. apply passes_monotone.
Qed.

Lemma Parameters_create_monotone today env fs argv p :
  Parameters_create W today env fs argv = Ok p ->
  Parameters_create V today env fs argv = Ok p.
Proof.
  unfold Parameters_create.
  repeat lazymatch goal with
         | |- bind (call (?f W) ?k ?v) _ = _ -> _ =>
             let E := fresh "E" in
             destruct (call (f W) k v) as [[]|] eqn:E; [|discriminate];
             apply (call_monotone f) in E; [|apply HWV]; rewrite E; cbn [bind]
         | |- bind (Disposition_create W ?d ?r) _ = _ -> _ =>
             let E := fresh "E" in
             destruct (Disposition_create W d r) eqn:E; [|discriminate];
             apply Disposition_create_monotone in E; rewrite E; cbn [bind]
         | |- bind ?c _ = _ -> _ =>
             destruct c; [|discriminate]; cbn [bind]
         | |- (let a := ?x in _) = _ -> _ => cbv zeta
         end.
  apply Parameters_monotone.
Qed.

End Monotone.

(* ---------- namespaces ---------- *)

Lemma has_setattr d o k v : has d (setattr o k v) = (k =? d)%string || has d o.
Proof. unfold has. rewrite lookup_setattr. now destruct (k =? d)%string. Qed.

Lemma has_fold_store d l o : has d o = true -> has d (fold_left store l o) = true.
Proof.
  revert o. induction l as [|[k v] l IH]; intros o H; cbn; [assumption|].
  apply IH. unfold store. cbn. rewrite has_setattr, H. apply orb_true_r.
Qed.

Lemma add_defaults_present parser ns :
  (forall d, In d (parser_dests parser) -> has d ns = true) ->
  add_defaults parser ns = ns.
Proof.
  unfold add_defaults, parser_dests. induction (actions parser) as [|a l IH]; cbn.
  - reflexivity.
  - intros H. destruct a as [|o d t].
    + apply IH. intros d Hd. apply H. exact Hd.
    + rewrite (H d) by (cbn; now left). apply IH. intros d' Hd. apply H. cbn. now right.
Qed.

Lemma parse_args_ok parser args ns a :
  parse_args parser args ns = Ok a ->
  exists stores,
    parse_actions parser args = Ok stores /\
    a = fold_left store stores (add_defaults parser ns).
Proof.
  unfold parse_args, bind. destruct (parse_actions parser args) as [stores|]; [|discriminate].
  intros [= <-]. eauto.
Qed.

Lemma fresh_defaults : add_defaults Parameters_parser [] = cli_defaults.
Proof. reflexivity. Qed.

Lemma dests_of_parser : parser_dests Parameters_parser = keys cli_defaults.
Proof. reflexivity. Qed.

Lemma NoDup_cli_defaults : NoDup (keys cli_defaults).
Proof.
  unfold cli_defaults, keys. cbn [map fst].
  repeat (constructor; [cbn; intuition discriminate|]). constructor.
Qed.

Lemma NoDup_remove k o : NoDup (keys o) -> NoDup (keys (remove k o)).
Proof.
  unfold keys. induction o as [|[k' w] o IH]; cbn; [constructor|].
  intros H. inversion H as [|? ? Hk Ho]; subst.
  destruct (k' =? k)%string; [assumption|]. cbn. constructor; [|now apply IH].
  intros Hin. apply Hk. clear -Hin. induction o as [|[k2 w2] o IH]; cbn in *; [assumption|].
  destruct (k2 =? k)%string; cbn in *; [now right|]. destruct Hin; [now left|right; auto].
Qed.

Lemma has_remove_other d k o : d <> k -> has d (remove k o) = has d o.
Proof. intros H. unfold has. now rewrite lookup_remove_other. Qed.

Lemma delattr_ok o k o' :
  delattr o k = Ok o' -> o' = remove k o.
Proof. unfold delattr. destruct (has k o); [now intros [= <-]|discriminate]. Qed.

Lemma getattr_ok o k v : getattr o k = Ok v <-> lookup k o = Some v.
Proof.
  unfold getattr. destruct (lookup k o); split; intros H; try discriminate; congruence.
Qed.

Lemma final_app n a b :
  final n (a ++ b) = match final n b with Some v => Some v | None => final n a end.
Proof. unfold final. now rewrite rev_app_distr, lookup_app. Qed.

(* ---------- Parameters.create ---------- *)

Lemma supplied_ok args stores dest :
  parse_actions Parameters_parser args = Ok stores -> supplied args dest = final dest stores.
Proof. unfold supplied. now intros ->. Qed.

Lemma lookup_cli_defaults dest :
  In dest (keys cli_defaults) -> lookup dest cli_defaults = Some VNone.
Proof.
  cbn. intros H. repeat (destruct H as [<-|H]; [reflexivity|]). contradiction.
Qed.

Lemma has_cli_defaults dest stores :
  In dest (keys cli_defaults) -> has dest (fold_left store stores cli_defaults) = true.
Proof.
  intros H. apply has_fold_store. unfold has. now rewrite lookup_cli_defaults.
Qed.

Section Create.
Variable V : Validators.

Lemma create_ok today env fs argv p :
  Parameters_create V today env fs argv = Ok p ->
  exists cli file a,
    parse_actions Parameters_parser argv = Ok cli /\
    parse_actions Parameters_parser (file_args env fs argv) = Ok file /\
    a = fold_left store file
          (if is_None (given "parameters" cli)
           then setattr (fold_left store cli cli_defaults) "parameters"
                  (env_get env "PARAMETERS")
           else fold_left store cli cli_defaults) /\
    NoDup (keys a) /\
    (forall dest, In dest (keys cli_defaults) -> dest <> "parameters" ->
                  lookup dest a = Some (layered env fs argv dest)) /\
    exists hospitalized icu ventilated kwargs,
      Disposition_create V (layered env fs argv "hospitalized_days")
        (layered env fs argv "hospitalized_rate") = Ok hospitalized /\
      Disposition_create V (layered env fs argv "icu_days")
        (layered env fs argv "icu_rate") = Ok icu /\
      Disposition_create V (layered env fs argv "ventilated_days")
        (layered env fs argv "ventilated_rate") = Ok ventilated /\
      keywords [ ("hospitalized", hospitalized); ("icu", icu); ("ventilated", ventilated) ]
        (remove "ventilated_rate" (remove "ventilated_days" (remove "icu_rate"
           (remove "icu_days" (remove "hospitalized_rate" (remove "hospitalized_days"
              (remove "parameters" a))))))) = Ok kwargs /\
      Parameters V today kwargs = Ok p.
Proof.
  unfold Parameters_create.
  destruct (parse_args Parameters_parser argv []) as [a1|] eqn:P1; [|discriminate].
  apply parse_args_ok in P1 as [cli [Hcli ->]]. rewrite fresh_defaults.
  cbn [bind].
  set (a1 := fold_left store cli cli_defaults).
  assert (L1 : forall dest, In dest (keys cli_defaults) ->
                            lookup dest a1 = Some (given dest cli)).
  { intros dest Hd. unfold a1, given. rewrite lookup_fold_store.
    destruct (final dest cli); [reflexivity|now apply lookup_cli_defaults]. }
  unfold getattr at 1. rewrite (L1 "parameters") by (cbn; tauto). cbn [bind].
  set (a1' := if is_None (given "parameters" cli)
              then setattr a1 "parameters" (env_get env "PARAMETERS") else a1).
  assert (Hfile : parameters_file env argv =
                  if is_None (given "parameters" cli)
                  then env_get env "PARAMETERS" else given "parameters" cli).
  { unfold parameters_file, given. rewrite (supplied_ok _ _ _ Hcli).
    destruct (final "parameters" cli); reflexivity. }
  assert (L1' : lookup "parameters" a1' = Some (parameters_file env argv)).
  { rewrite Hfile. unfold a1'. destruct (is_None (given "parameters" cli)).
    - rewrite lookup_setattr. reflexivity.
    - apply L1. cbn; tauto. }
  assert (L1'' : forall dest, dest <> "parameters" -> lookup dest a1' = lookup dest a1).
  { intros dest Hd. unfold a1'. destruct (is_None (given "parameters" cli)); [|reflexivity].
    rewrite lookup_setattr. destruct (String.eqb_spec "parameters" dest); congruence. }
  assert (H1' : forall dest, In dest (parser_dests Parameters_parser) -> has dest a1' = true).
  { rewrite dests_of_parser. intros dest Hd. unfold a1'.
    destruct (is_None (given "parameters" cli)); [rewrite has_setattr|];
      unfold a1; rewrite has_cli_defaults by assumption; [apply orb_true_r|reflexivity]. }
  assert (N1' : NoDup (keys a1')).
  { unfold a1'. destruct (is_None (given "parameters" cli)); [apply NoDup_setattr|];
      apply NoDup_fold_store, NoDup_cli_defaults. }
  unfold getattr at 1. rewrite L1'. cbn [bind].
  intros H.
  match type of H with
  | bind _ ?k = _ =>
      assert (Hlayer : exists file,
                 parse_actions Parameters_parser (file_args env fs argv) = Ok file /\
                 k (fold_left store file a1') = Ok p)
  end.
  { unfold file_args. destruct (is_None (parameters_file env argv)); cbn [negb bind] in H.
    - exists []. split; [reflexivity|exact H].
    - destruct (open_read fs (parameters_file env argv)) as [contents|];
        [|discriminate]. cbn [bind] in H.
      destruct (parse_args Parameters_parser (split contents) a1') as [a2|] eqn:P2;
        [|discriminate].
      apply parse_args_ok in P2 as [file [Hfile2 ->]].
      rewrite (add_defaults_present _ _ H1') in H. exists file. now split. }
  clear H. destruct Hlayer as [file [Hfile2 H]].
  set (a := fold_left store file a1') in *.
  assert (N : NoDup (keys a)) by now apply NoDup_fold_store.
  assert (L : forall dest, In dest (keys cli_defaults) -> dest <> "parameters" ->
                           lookup dest a = Some (layered env fs argv dest)).
  { intros dest Hd Hp. unfold a, layered. rewrite lookup_fold_store.
    rewrite (supplied_ok _ _ _ Hfile2), (supplied_ok _ _ _ Hcli).
    destruct (final dest file); [reflexivity|].
    rewrite (L1'' _ Hp), (L1 _ Hd). reflexivity. }
  exists cli, file, a. split; [assumption|]. split; [assumption|].
  split; [reflexivity|]. split; [assumption|]. split; [assumption|].
  revert H.
  destruct (delattr a "parameters") as [a0|] eqn:D0; [|discriminate].
  apply delattr_ok in D0. cbn [bind].
  assert (L0 : forall dest, In dest (keys cli_defaults) -> dest <> "parameters" ->
                            getattr a0 dest = Ok (layered env fs argv dest)).
  { intros dest Hd Hp. apply getattr_ok. rewrite D0, lookup_remove_other by assumption.
    now apply L. }
  rewrite !L0 by (cbn; intuition discriminate). cbn [bind].
  repeat lazymatch goal with
         | |- bind (call ?f ?k ?v) _ = _ -> _ =>
             destruct (call f k v) as [[]|]; [|discriminate]; cbn [bind]
         end.
  destruct (Disposition_create V (layered env fs argv "hospitalized_days")
              (layered env fs argv "hospitalized_rate")) as [hospitalized|];
    [|discriminate].
  destruct (Disposition_create V (layered env fs argv "icu_days")
              (layered env fs argv "icu_rate")) as [icu|]; [|discriminate].
  destruct (Disposition_create V (layered env fs argv "ventilated_days")
              (layered env fs argv "ventilated_rate")) as [ventilated|]; [|discriminate].
  cbn [bind].
  repeat lazymatch goal with
         | |- bind (delattr ?o ?k) _ = _ -> _ =>
             let D := fresh "D" in
             destruct (delattr o k) eqn:D; [|discriminate]; apply delattr_ok in D; subst;
             cbn [bind]
         end.
  match goal with
  | |- bind ?c _ = _ -> _ => destruct c as [kwargs|] eqn:K; [|discriminate]
  end.
  cbn [bind]. intros H. exists hospitalized, icu, ventilated, kwargs. auto.
Qed.

Lemma init_fields today kwargs p :
  Parameters V today kwargs = Ok p ->
  (forall name, In name (keys unassigned) -> name <> "current_date" ->
                name <> "mitigation_date" -> getattr p name = Ok (given name kwargs)) /\
  getattr p "current_date" = Ok (resolve today (given "current_date" kwargs)) /\
  getattr p "mitigation_date" = Ok (resolve today (given "mitigation_date" kwargs)).
Proof.
  intros H.
  apply init_ok in H as (self & cd & md & h & i & v & _ & -> & _ & Hcd & Hmd & _ & _ & _ & _
                         & _ & _ & ->).
  rewrite lookup_assigned in Hcd, Hmd by (cbn; tauto).
  injection Hcd as <-. injection Hmd as <-.
  unfold getattr. split; [|split].
  - intros name Hn Hc Hm. rewrite !lookup_setattr.
    assert (Hd : name <> "dispositions" /\ name <> "labels").
    { cbn in Hn. split; intros ->; intuition discriminate. }
    destruct Hd as [Hd Hl].
    destruct (String.eqb_spec "dispositions" name); [congruence|].
    destruct (String.eqb_spec "labels" name); [congruence|].
    destruct (String.eqb_spec "mitigation_date" name); [congruence|].
    destruct (String.eqb_spec "current_date" name); [congruence|].
    now rewrite lookup_assigned.
  - rewrite !lookup_setattr. reflexivity.
  - rewrite !lookup_setattr. reflexivity.
Qed.

End Create.

Lemma keywords_ok explicit rest kwargs :
  keywords explicit rest = Ok kwargs ->
  kwargs = explicit ++ rest /\ forall k, has k explicit = true -> lookup k rest = None.
Proof.
  unfold keywords.
  destruct (existsb (fun kv : string * value => has (fst kv) explicit) rest) eqn:E;
    [discriminate|].
  intros [= <-]. split; [reflexivity|]. intros k Hk.
  destruct (lookup k rest) as [w|] eqn:L; [|reflexivity].
  apply lookup_In in L.
  assert (X : existsb (fun kv : string * value => has (fst kv) explicit) rest = true).
  { apply existsb_exists. exists (k, w). split; assumption. }
  congruence.
Qed.


(* ---------- what the parser stores ---------- *)

Lemma find_action_In registry s a :
  find_action registry s = Some a -> In a (map snd registry).
Proof.
  induction registry as [|[k b] registry IH]; cbn; [discriminate|].
  destruct (k =? s)%string; [intros [= <-]; now left|right; auto].
Qed.

Lemma get_option_tuples_In registry s a o e :
  In (Some a, o, e) (get_option_tuples registry s) -> In a (map snd registry).
Proof.
  unfold get_option_tuples.
  assert (G : forall (f : string * action -> list option_tuple),
             (forall k b, In (Some a, o, e) (f (k, b)) -> b = a) ->
             In (Some a, o, e) (flat_map f registry) -> In a (map snd registry)).
  { intros f Hf H. apply in_flat_map in H as [[k b] [Hin H]]. apply Hf in H as <-.
    now apply (in_map snd) in Hin. }
  destruct (is_long s).
  - destruct (contains "=" s); [destruct (split_once "=" s)|];
      apply G; intros k b; (destruct (String.prefix _ k); [|contradiction]);
      intros [[= <-]|[]]; reflexivity.
  - apply G; intros k b.
    destruct (k =? _)%string; [|destruct (String.prefix _ k); [|contradiction]];
      intros [[= <-]|[]]; reflexivity.
Qed.

Lemma parse_optional_In registry s a o e :
  parse_optional registry s = Ok (Some (Some a, o, e)) -> In a (map snd registry).
Proof.
  unfold parse_optional. destruct s as [|c tail]; [discriminate|].
  destruct (negb (Ascii.eqb c "-")); [discriminate|].
  destruct (find_action registry (String c tail)) as [b|] eqn:F.
  { intros [= <- _ _]. now apply find_action_In in F. }
  destruct tail as [|c2 tail]; [discriminate|].
  destruct (contains "=" (String c (String c2 tail))).
  - destruct (split_once "=" (String c (String c2 tail))) as [before after].
    destruct (find_action registry before) as [b|] eqn:F2.
    { intros [= <- _ _]. now apply find_action_In in F2. }
    destruct (get_option_tuples registry (String c (String c2 tail))) as [|t [|t2 l]] eqn:T;
      [|intros [= ->]; eapply get_option_tuples_In; rewrite T; now left|discriminate].
    destruct (negative_number_like _); [discriminate|].
    destruct (contains " " _); discriminate.
  - destruct (get_option_tuples registry (String c (String c2 tail))) as [|t [|t2 l]] eqn:T;
      [|intros [= ->]; eapply get_option_tuples_In; rewrite T; now left|discriminate].
    destruct (negative_number_like _); [discriminate|].
    destruct (contains " " _); discriminate.
Qed.

Lemma classify_from_registry registry args classified :
  classify registry args = Ok classified -> Forall (from_registry registry) classified.
Proof.
  revert classified. induction args as [|s args IH]; intros classified; cbn.
  - intros [= <-]. constructor.
  - destruct (s =? "--")%string.
    + intros [= <-]. constructor; [exact I|].
      apply Forall_forall. intros [x c] H. apply in_map_iff in H as [y [[= <- <-] _]]. exact I.
    + destruct (parse_optional registry s) as [t|] eqn:P; [|discriminate]. cbn [bind].
      destruct (classify registry args) as [cl|]; [|discriminate]. cbn [bind].
      intros [= <-]. constructor; [|now apply IH].
      unfold from_registry. cbn [snd]. destruct t as [[[[a|] o] e]|]; try exact I.
      now apply parse_optional_In in P.
Qed.

Lemma get_values_shape a type s v :
  get_values a type [s] = Ok v -> v = VList [] \/ type s = Ok v.
Proof.
  unfold get_values. cbn [remove_first].
  destruct (s =? "--")%string; cbn.
  - intros [= <-]. now left.
  - unfold get_value. destruct (type s) as [w|[]]; try discriminate. intros [= <-]. now right.
Qed.

Lemma consume_stores registry n classified r :
  (List.length classified <= n)%nat ->
  Forall (from_registry registry) classified ->
  consume classified = Ok r -> Forall (registry_store registry) (fst r).
Proof.
  revert classified r. induction n as [|n IH]; intros classified r Hn HF.
  - destruct classified; [|cbn in Hn; lia]. cbn. intros [= <-]. constructor.
  - destruct classified as [|[s c] rest]; [cbn; intros [= <-]; constructor|].
    cbn in Hn. inversion HF as [|? ? Hc Hrest]; subst.
    assert (Hskip : forall r, (x <- consume rest ;; Ok (fst x, s :: snd x)) = Ok r ->
                              Forall (registry_store registry) (fst r)).
    { intros r0. destruct (consume rest) as [x|] eqn:C; [|discriminate]. cbn [bind].
      intros [= <-]. cbn [fst]. eapply IH; [|exact Hrest|exact C]. lia. }
    destruct c as [| |[[[a|] o] e]]; try exact (Hskip r).
    unfold from_registry in Hc. cbn [snd] in Hc.
    destruct a as [|os dest type]; cbn [consume].
    + destruct e as [e|]; [destruct (is_long o)|]; discriminate.
    + destruct e as [e|].
      * destruct (get_values (StoreAction os dest type) type [e]) as [v|] eqn:G;
          [|discriminate]. cbn [bind].
        destruct (consume rest) as [x|] eqn:C; [|discriminate]. cbn [bind].
        intros [= <-]. cbn [fst]. constructor.
        -- exists os, type. split; [exact Hc|]. cbn [snd].
           apply get_values_shape in G as [->|G]; eauto.
        -- eapply IH; [|exact Hrest|exact C]. lia.
      * destruct rest as [|[x [| |t]] rest']; try discriminate.
        destruct (get_values (StoreAction os dest type) type [x]) as [v|] eqn:G;
          [|discriminate]. cbn [bind].
        destruct (consume rest') as [y|] eqn:C; [|discriminate]. cbn [bind].
        intros [= <-]. cbn [fst]. constructor.
        -- exists os, type. split; [exact Hc|]. cbn [snd].
           apply get_values_shape in G as [->|G]; eauto.
        -- inversion Hrest; subst. eapply IH; [|eassumption|exact C]. cbn in Hn. lia.
Qed.

Lemma registry_actions parser a :
  In a (map snd (option_string_actions parser)) -> In a (actions parser).
Proof.
  unfold option_string_actions. intros H. apply in_map_iff in H as [[k b] [<- H]].
  apply in_flat_map in H as [c [Hc H]].
  destruct c; cbn in H; intuition (try congruence).
  - injection H0 as _ <-. exact Hc.
  - injection H as _ <-. exact Hc.
  - injection H0 as _ <-. exact Hc.
Qed.

Lemma parse_actions_stores parser args stores :
  parse_actions parser args = Ok stores -> Forall (stored_by parser) stores.
Proof.
  unfold parse_actions.
  destruct (classify (option_string_actions parser) args) as [classified|] eqn:C;
    [|discriminate]. cbn [bind].
  destruct (consume classified) as [r|] eqn:R; [|discriminate]. cbn [bind].
  destruct (snd r); [|discriminate]. intros [= <-].
  apply classify_from_registry in C.
  pose proof (consume_stores _ _ _ _ (le_n _) C R) as H.
  eapply Forall_impl; [|exact H].
  intros [d v] (os & type & Hin & Hv). exists os, type. split; [|exact Hv].
  now apply registry_actions.
Qed.

(* ---------- the keywords Parameters.create passes on ---------- *)

Lemma keys_fold_store k l o :
  In k (keys (fold_left store l o)) -> In k (keys o) \/ In k (keys l).
Proof.
  revert o. induction l as [|[k' v] l IH]; intros o; cbn; [tauto|].
  intros H. apply IH in H as [H|H]; [|tauto].
  unfold store in H. cbn [fst snd] in H. rewrite keys_setattr in H.
  destruct (has k' o); [tauto|]. apply in_app_or in H as [H|[<-|[]]]; tauto.
Qed.

Lemma keys_remove k k' o : In k (keys (remove k' o)) -> In k (keys o).
Proof.
  unfold keys. induction o as [|[k2 w] o IH]; cbn; [tauto|].
  destruct (k2 =? k')%string; cbn; [tauto|]. intros [H|H]; [tauto|right; auto].
Qed.

Lemma stores_dests args stores k :
  parse_actions Parameters_parser args = Ok stores ->
  In k (keys stores) -> In k (keys cli_defaults).
Proof.
  intros H Hk. apply parse_actions_stores in H. rewrite Forall_forall in H.
  apply in_map_iff in Hk as [[d v] [<- Hin]].
  destruct (H _ Hin) as (os & type & Ha & _). cbn [fst] in *.
  rewrite <- dests_of_parser. unfold parser_dests. apply in_flat_map.
  exists (StoreAction os d type). split; [assumption|now left].
Qed.

Section Create.
Variable V : Validators.

Lemma create_kwargs today env fs argv p :
  Parameters_create V today env fs argv = Ok p ->
  exists kwargs hospitalized icu ventilated,
    Parameters V today kwargs = Ok p /\
    (forall name, In name ("current_date" :: "mitigation_date" :: plain_fields) ->
                  final name kwargs = Some (layered env fs argv name)) /\
    final "hospitalized" kwargs = Some hospitalized /\
    final "icu" kwargs = Some icu /\
    final "ventilated" kwargs = Some ventilated /\
    final "region" kwargs = None /\
    Disposition_create V (layered env fs argv "hospitalized_days")
      (layered env fs argv "hospitalized_rate") = Ok hospitalized /\
    Disposition_create V (layered env fs argv "icu_days")
      (layered env fs argv "icu_rate") = Ok icu /\
    Disposition_create V (layered env fs argv "ventilated_days")
      (layered env fs argv "ventilated_rate") = Ok ventilated.
Proof.
  intros H.
  apply create_ok in H as (cli & file & a & Hcli & Hfile & Ha & N & L & h & i & v & kwargs
                            & Hh & Hi & Hv & K & H).
  apply keywords_ok in K as [-> K].
  set (a7 := remove "ventilated_rate" _) in *.
  assert (N7 : NoDup (keys a7)) by (unfold a7; repeat apply NoDup_remove; exact N).
  assert (G : forall name, final name ([("hospitalized", h); ("icu", i); ("ventilated", v)] ++ a7)
                           = match lookup name a7 with
                             | Some w => Some w
                             | None => final name [("hospitalized", h); ("icu", i);
                                                   ("ventilated", v)]
                             end).
  { intros name. rewrite final_app, (final_NoDup _ _ N7). reflexivity. }
  assert (R : lookup "region" a7 = None).
  { apply lookup_None_keys. intros Hin. unfold a7 in Hin.
    do 7 apply keys_remove in Hin. rewrite Ha in Hin.
    apply keys_fold_store in Hin as [Hin|Hin].
    - assert (Hin' : In "region" (keys (fold_left store cli cli_defaults))).
      { destruct (is_None (given "parameters" cli)); [|exact Hin].
        rewrite keys_setattr in Hin. destruct (has "parameters" _); [exact Hin|].
        apply in_app_or in Hin as [Hin|[Hin|[]]]; [exact Hin|discriminate]. }
      apply keys_fold_store in Hin' as [Hin'|Hin'].
      + cbn in Hin'. intuition discriminate.
      + apply (stores_dests _ _ _ Hcli) in Hin'. cbn in Hin'. intuition discriminate.
    - apply (stores_dests _ _ _ Hfile) in Hin. cbn in Hin. intuition discriminate. }
  exists ([("hospitalized", h); ("icu", i); ("ventilated", v)] ++ a7), h, i, v.
  split; [exact H|]. split.
  - intros name Hn. rewrite G. unfold a7.
    rewrite !lookup_remove_other by (cbn in Hn; intros ->; intuition discriminate).
    rewrite L; [reflexivity| |]; cbn in Hn |- *; intuition (subst; try discriminate; auto 25).
  - rewrite !G, !K, R by reflexivity. auto 10.
Qed.

Lemma Disposition_create_value days rate x :
  Disposition_create V days rate = Ok x ->
  x = VDisposition days rate /\ Positive V "days" days = Accept /\ Rate V "rate" rate = Accept.
Proof.
  unfold Disposition_create, bind.
  destruct (call (Positive V) "days" days) as [[]|] eqn:E1; [|discriminate].
  destruct (call (Rate V) "rate" rate) as [[]|] eqn:E2; [|discriminate].
  intros [= <-]. apply call_ok in E1, E2. auto.
Qed.

Lemma final_given n kwargs v : final n kwargs = Some v -> given n kwargs = v.
Proof. unfold given. now intros ->. Qed.

(** C2: when [Parameters.create] succeeds, each flag that becomes a field
    of the same name carries the layered value: the file's when the
    parameters file supplies the flag, else the command line's.  The two
    defaulted dates carry the layered value unless it is None, and today's
    date then; the day and rate flags are carried inside the three
    Dispositions; the [--parameters] flag is not carried at all. *)
Theorem file_overrides_command_line today env fs argv p :
  Parameters_create V today env fs argv = Ok p ->
  let value_of := layered env fs argv in
  (forall name, In name plain_fields -> getattr p name = Ok (value_of name)) /\
  getattr p "current_date" = Ok (resolve today (value_of "current_date")) /\
  getattr p "mitigation_date" = Ok (resolve today (value_of "mitigation_date")) /\
  getattr p "hospitalized" =
    Ok (VDisposition (value_of "hospitalized_days") (value_of "hospitalized_rate")) /\
  getattr p "icu" = Ok (VDisposition (value_of "icu_days") (value_of "icu_rate")) /\
  getattr p "ventilated" =
    Ok (VDisposition (value_of "ventilated_days") (value_of "ventilated_rate")) /\
  getattr p "parameters" = Err (AttributeError "parameters").
Proof.
  intros H value_of. subst value_of.
  apply create_kwargs in H as (kwargs & h & i & v & H & F & Fh & Fi & Fv & _ & Hh & Hi & Hv).
  apply Disposition_create_value in Hh as [-> _], Hi as [-> _], Hv as [-> _].
  pose proof (init_fields V today kwargs p H) as (Fields & Hcd & Hmd).
  split; [|split; [|split; [|split; [|split; [|split]]]]].
  - intros name Hn. rewrite Fields.
    + f_equal. apply final_given, F. now do 2 right.
    + cbn in Hn |- *. intuition (subst; auto 25).
    + cbn in Hn. intros ->. intuition discriminate.
    + cbn in Hn. intros ->. intuition discriminate.
  - rewrite Hcd. do 2 f_equal. apply final_given, F. now left.
  - rewrite Hmd. do 2 f_equal. apply final_given, F. right. now left.
  - rewrite Fields by (cbn; intuition discriminate). f_equal. now apply final_given.
  - rewrite Fields by (cbn; intuition discriminate). f_equal. now apply final_given.
  - rewrite Fields by (cbn; intuition discriminate). f_equal. now apply final_given.
  - apply init_ok in H as (self & cd & md & h & i & v & A & -> & _ & _ & _ & _ & _ & _ & _ & _
                           & _ & ->).
    unfold getattr. rewrite !lookup_setattr. cbn [String.eqb Ascii.eqb Bool.eqb].
    rewrite lookup_fold_store.
    destruct (final "parameters" (fold_left store kwargs [])) as [w|] eqn:E; [|reflexivity].
    exfalso.
    rewrite first_unexpected_None in A.
    apply final_In, In_fold_store in E as [E|[]].
    apply (in_map fst) in E. apply A in E. cbn in E. discriminate.
Qed.

End Create.

(* ---------- required flags ---------- *)

Lemma parser_actions : actions Parameters_parser = HelpAction :: map option_of cli_args.
Proof. reflexivity. Qed.

Lemma NoDup_map_inj {A B} (f : A -> B) (l : list A) x y :
  NoDup (map f l) -> In x l -> In y l -> f x = f y -> x = y.
Proof.
  induction l as [|a l IH]; cbn; [tauto|].
  intros N. inversion N as [|? ? Ha Hl]; subst.
  intros [->|Hx] [->|Hy] E; try reflexivity.
  - exfalso. apply Ha. rewrite E. now apply in_map.
  - exfalso. apply Ha. rewrite <- E. now apply in_map.
  - now apply IH.
Qed.

Lemma entry_of_dest (e e' : cli_arg) :
  In e cli_args -> In e' cli_args ->
  flag_dest (fst (fst (fst (fst (fst e))))) = flag_dest (fst (fst (fst (fst (fst e'))))) ->
  e = e'.
Proof.
  apply (NoDup_map_inj (fun e : cli_arg => flag_dest (fst (fst (fst (fst (fst e))))))).
  change (NoDup (keys cli_defaults)). apply NoDup_cli_defaults.
Qed.

Lemma validator_required_value arg cast min_value max_value string v :
  validator arg cast min_value max_value true string = Ok v -> v <> VNone.
Proof.
  unfold validator.
  destruct ((string =? "")%string && negb (Cast_eqb cast Str)); [discriminate|].
  destruct (apply_cast cast string) as [w|] eqn:C; [|discriminate]. cbn [bind].
  assert (Hw : w <> VNone).
  { apply apply_cast_shape in C. destruct cast; destruct C as [x ->]; discriminate. }
  destruct (if is_None min_value then Ok false else py_lt w min_value) as [[]|];
    try discriminate; cbn [bind].
  destruct (if is_None max_value then Ok false else py_gt w max_value) as [[]|];
    try discriminate; cbn [bind].
  now intros [= <-].
Qed.

Lemma supplied_required name cast min_value max_value help args v :
  In (name, cast, min_value, max_value, help, true) cli_args ->
  supplied args (flag_dest name) = Some v -> v <> VNone.
Proof.
  intros Hin. unfold supplied.
  destruct (parse_actions Parameters_parser args) as [stores|] eqn:P; [|discriminate].
  intros F. apply final_In in F.
  apply parse_actions_stores in P. rewrite Forall_forall in P.
  destruct (P _ F) as (os & type & Ha & Hv). cbn [fst snd] in *.
  rewrite parser_actions in Ha. destruct Ha as [Ha|Ha]; [discriminate|].
  apply in_map_iff in Ha as [e' [He' Hin']].
  assert (E : (name, cast, min_value, max_value, help, true) = e').
  { apply entry_of_dest; [assumption..|].
    destruct e' as [[[[[n' c'] mn'] mx'] h'] r']. cbn [fst].
    unfold option_of in He'. now injection He' as _ <- _. }
  subst e'. unfold option_of in He'. injection He' as _ <-.
  destruct Hv as [->|[s Hs]]; [discriminate|].
  now apply validator_required_value in Hs.
Qed.

Lemma absent_is_None args a dest :
  In dest (keys cli_defaults) ->
  parse_args Parameters_parser args [] = Ok a ->
  supplied args dest = None -> getattr a dest = Ok VNone.
Proof.
  intros Hd H. apply parse_args_ok in H as [stores [P ->]].
  rewrite (supplied_ok _ _ _ P). intros F.
  apply getattr_ok. rewrite lookup_fold_store, F, fresh_defaults.
  now apply lookup_cli_defaults.
Qed.

Lemma collected_final n kwargs v :
  final n kwargs = Some v -> In (n, v) (fold_left store kwargs []).
Proof. intros H. apply final_In. now rewrite final_collected. Qed.

(** What the validators of section 4.1 let through [Parameters.create]. *)
Lemma resolved_values today env fs argv p :
  Parameters_create spec_validators today env fs argv = Ok p ->
  let value_of := layered env fs argv in
  ge_zero (value_of "hospitalized_days") = true /\
  ge_zero (value_of "hospitalized_rate") = true /\
  ge_zero (value_of "icu_days") = true /\
  ge_zero (value_of "icu_rate") = true /\
  ge_zero (value_of "ventilated_days") = true /\
  ge_zero (value_of "ventilated_rate") = true /\
  ge_zero (value_of "current_hospitalized") = true /\
  gt_zero (value_of "infectious_days") = true /\
  ge_zero (value_of "market_share") = true /\
  gt_zero (value_of "n_days") = true /\
  ge_zero (value_of "recovered") = true /\
  ge_zero (value_of "relative_contact_rate") = true /\
  value_of "population" <> VNone.
Proof.
  intros H value_of. subst value_of.
  apply create_kwargs in H as (kwargs & h & i & v & H & F & Fh & Fi & Fv & Fr & Hh & Hi & Hv).
  apply Disposition_create_value in Hh as (_ & Hh1 & Hh2), Hi as (_ & Hi1 & Hi2),
      Hv as (_ & Hv1 & Hv2).
  apply init_ok in H as (self & cd & md & h' & i' & v' & _ & -> & Hpass & _ & _ & _ & _ & _
                         & Hinv & _).
  rewrite Forall_forall in Hpass.
  assert (P : forall name, In name plain_fields ->
                           passes spec_validators (name, layered env fs argv name)).
  { intros name Hn. apply Hpass, collected_final, F. now do 2 right. }
  assert (C : forall b c, check b c = Accept -> b = true) by (now intros [] c).
  cbn in Hh1, Hh2, Hi1, Hi2, Hv1, Hv2.
  apply C in Hh1, Hh2, Hi1, Hi2, Hv1, Hv2.
  apply andb_true_iff in Hh2 as [Hh2 _], Hi2 as [Hi2 _], Hv2 as [Hv2 _].
  repeat (split; [assumption|]).
  assert (Q : forall name, In name plain_fields ->
              exists entry, item (ACCEPTED_PARAMETERS spec_validators) name = Ok entry /\
                            fst (fst entry) name (layered env fs argv name) = Accept).
  { intros name Hn. exact (P name Hn). }
  split; [destruct (Q "current_hospitalized") as [e [[= <-] A]]; [cbn; tauto|];
          now apply C in A|].
  split; [destruct (Q "infectious_days") as [e [[= <-] A]]; [cbn; tauto|];
          now apply C in A|].
  split; [destruct (Q "market_share") as [e [[= <-] A]]; [cbn; tauto|];
          apply C in A; now apply andb_true_iff in A as [A _]|].
  split; [destruct (Q "n_days") as [e [[= <-] A]]; [cbn; tauto|];
          now apply C in A|].
  split; [destruct (Q "recovered") as [e [[= <-] A]]; [cbn; tauto|];
          now apply C in A|].
  split; [destruct (Q "relative_contact_rate") as [e [[= <-] A]]; [cbn; auto 15|];
          apply C in A; now apply andb_true_iff in A as [A _]|].
  rewrite !lookup_assigned in Hinv by (cbn; tauto).
  unfold given in Hinv. rewrite Fr, (F "population") in Hinv by (cbn; auto 15).
  destruct Hinv as [Hinv|Hinv]; congruence.
Qed.

(** C4: for every CLI schema entry marked required, the flag's validation
    function rejects the empty string saying that the flag is required,
    and the parser then exits naming the flag; a value the argument vector
    supplies for the flag is never None; a flag the argument vector leaves
    out is left None by the parser, without an error; and with the
    validators of section 4.1 a successful [Parameters.create] had, after
    the layering, a value other than None for every required flag but
    [--doubling-time] and [--max-y-axis]. *)
Theorem required_flags name cast min_value max_value help :
  In (name, cast, min_value, max_value, help, true) cli_args ->
  let flag := to_cli name in
  let dest := flag_dest name in
  validator flag cast min_value max_value true "" = Err (ValueError (MsgRequired flag)) /\
  (forall namespace,
     parse_args Parameters_parser [flag; ""] namespace =
     Err (SystemExit 2 (ArgumentError flag (InvalidValue "validate" "")))) /\
  (forall args v, supplied args dest = Some v -> v <> VNone) /\
  (forall args a, parse_args Parameters_parser args [] = Ok a ->
                  supplied args dest = None -> getattr a dest = Ok VNone) /\
  (forall today env fs argv p,
     Parameters_create spec_validators today env fs argv = Ok p ->
     name <> "doubling_time" -> name <> "max_y_axis" ->
     layered env fs argv dest <> VNone).
Proof.
  intros Hin flag dest. subst flag dest.
  split; [|split; [|split; [|split]]].
  - cbn in Hin.
    repeat (destruct Hin as [Hin|Hin];
            [first [discriminate Hin | injection Hin as <- <- <- <- <-; reflexivity]|]).
    contradiction.
  - intros namespace. unfold parse_args.
    cbn in Hin.
    repeat (destruct Hin as [Hin|Hin];
            [first [discriminate Hin | injection Hin as <- <- <- <- <-; reflexivity]|]).
    contradiction.
  - intros args v. now apply supplied_required with (1 := Hin).
  - intros args a. apply absent_is_None.
    cbn in Hin.
    repeat (destruct Hin as [Hin|Hin];
            [first [discriminate Hin | injection Hin as <- <- <- <- <-; cbn; auto 25]|]).
    contradiction.
  - intros today env fs argv p H Hd Hm.
    apply resolved_values in H. cbv zeta in H.
    destruct H as (H1 & H2 & H3 & H4 & H5 & H6 & H7 & H8 & H9 & H10 & H11 & H12 & H13).
    cbn in Hin.
    repeat (destruct Hin as [Hin|Hin];
            [first [ discriminate Hin
                   | injection Hin as <- <- <- <- <-;
                     first [ congruence
                           | exact H13
                           | intros E; unfold flag_dest in E; cbn in E;
                             rewrite E in *; discriminate ] ]|]).
    contradiction.
Qed.

(* ---------- concrete runs ---------- *)

Lemma create_env V today env env' fs argv :
  env_get env "PARAMETERS" = env_get env' "PARAMETERS" ->
  Parameters_create V today env fs argv = Parameters_create V today env' fs argv.
Proof. intros H. unfold Parameters_create. now rewrite H. Qed.

Lemma round_trip_spec today fs :
  exists p,
    Parameters_create spec_validators today [] fs round_trip_argv = Ok p /\
    getattr p "hospitalized" = Ok (VDisposition (VInt 7) (VFloat 0.025)) /\
    getattr p "population" = Ok (VInt 1000) /\
    exists dispositions icu_days,
      getattr p "dispositions" = Ok (VDict dispositions) /\
      lookup "icu" dispositions = Some (VDisposition icu_days (VFloat 0.0075)).
Proof.
  eexists. split; [vm_compute; reflexivity|].
  split; [reflexivity|]. split; [reflexivity|]. do 2 eexists. split; reflexivity.
Qed.

Lemma accepts_at_least_refl V : accepts_at_least V V.
Proof. intros key v. tauto. Qed.

(** C1: resolving the round-trip argument vector, when the environment has
    no PARAMETERS entry (the vector names no parameters file), succeeds for
    every date and every validators that accept at least what section 4.1
    says they accept; the object's [hospitalized] is the Disposition with
    days 7 and rate 0.025, its [population] is 1000, and the rate of the
    icu entry of [dispositions] is 0.0075. *)
Theorem cli_round_trip V today env fs :
  accepts_at_least spec_validators V ->
  env_get env "PARAMETERS" = VNone ->
  exists p,
    Parameters_create V today env fs round_trip_argv = Ok p /\
    getattr p "hospitalized" = Ok (VDisposition (VInt 7) (VFloat 0.025)) /\
    getattr p "population" = Ok (VInt 1000) /\
    exists dispositions icu_days,
      getattr p "dispositions" = Ok (VDict dispositions) /\
      lookup "icu" dispositions = Some (VDisposition icu_days (VFloat 0.0075)).
Proof.
  intros HV Henv.
  destruct (round_trip_spec today fs) as [p [H Hp]].
  exists p. split; [|exact Hp].
  apply (Parameters_create_monotone spec_validators V HV).
  now rewrite (create_env _ _ env []).
Qed.

(** C1 on a fixed day, with the validators of section 4.1. *)
Lemma cli_round_trip_witness :
  exists p,
    Parameters_create spec_validators a_day [] no_files round_trip_argv = Ok p /\
    getattr p "hospitalized" = Ok (VDisposition (VInt 7) (VFloat 0.025)) /\
    getattr p "population" = Ok (VInt 1000) /\
    exists dispositions icu_days,
      getattr p "dispositions" = Ok (VDict dispositions) /\
      lookup "icu" dispositions = Some (VDisposition icu_days (VFloat 0.0075)).
Proof.
  apply (cli_round_trip spec_validators a_day [] no_files).
  - apply accepts_at_least_refl.
  - reflexivity.
Defined.

(** C2 on a run with a parameters file: [--n-days] is in both sources and
    the file's 30 is carried, [--population] is on the command line only. *)
Lemma file_overrides_command_line_witness :
  exists p,
    Parameters_create spec_validators a_day [] one_file layered_argv = Ok p /\
    getattr p "n_days" = Ok (layered [] one_file layered_argv "n_days") /\
    layered [] one_file layered_argv "n_days" = VInt 30 /\
    getattr p "population" = Ok (layered [] one_file layered_argv "population") /\
    layered [] one_file layered_argv "population" = VInt 1000.
Proof.
  eexists. split; [vm_compute; reflexivity|].
  match goal with
  | |- context [getattr ?p "n_days"] =>
      pose proof (file_overrides_command_line spec_validators a_day [] one_file layered_argv p)
        as H
  end.
  destruct H as (Plain & _); [vm_compute; reflexivity|].
  split; [apply Plain; cbn; tauto|]. split; [vm_compute; reflexivity|].
  split; [apply Plain; cbn; tauto|]. vm_compute; reflexivity.
Defined.

(** C2 as stated fails on that run: [--current-date] is 2020-03-01 on the
    command line and empty in the file, and the object carries neither but
    today's date; [--parameters] is on the command line only and the
    object has no such attribute. *)
Lemma empty_date_in_file_counterexample :
  supplied layered_argv "current_date" = Some (VDate (mkdate 2020 3 1)) /\
  supplied (file_args [] one_file layered_argv) "current_date" = Some VNone /\
  supplied layered_argv "parameters" = Some (VStr "chime.cfg") /\
  exists p,
    Parameters_create spec_validators a_day [] one_file layered_argv = Ok p /\
    getattr p "current_date" = Ok (VDate a_day) /\
    getattr p "parameters" = Err (AttributeError "parameters").
Proof.
  split; [vm_compute; reflexivity|]. split; [vm_compute; reflexivity|].
  split; [vm_compute; reflexivity|].
  eexists. split; [vm_compute; reflexivity|]. split; reflexivity.
Qed.

(** C3 on a population alone, and on keywords without either. *)
Lemma population_or_region_required_witness :
  (exists p,
     Parameters spec_validators a_day [("population", VInt 1000)] = Ok p /\
     exists v, v <> VNone /\
               (In ("region", v) [("population", VInt 1000)] \/
                In ("population", v) [("population", VInt 1000)])) /\
  exists e, Parameters spec_validators a_day [("recovered", VInt 0)] = Err e /\
            e = AssertionError (Msg "population or regions must be provided.").
Proof.
  split.
  - eexists. split; [vm_compute; reflexivity|].
    eapply (proj1 (population_or_region_required spec_validators a_day
                     [("population", VInt 1000)])).
    vm_compute. reflexivity.
  - destruct (proj2 (population_or_region_required spec_validators a_day
                       [("recovered", VInt 0)])) as [e [He Hmsg]].
    + intros v [[= <-]|[]].
    + intros v [[= <-]|[]].
    + exists e. split; [exact He|]. apply Hmsg.
      intros key v [[= <- <-]|[]]. eexists. split; reflexivity.
Defined.

(** C3 as stated fails: construction succeeds with both a population and
    a region, and with neither of them a rejected keyword is reported
    instead of the invariant. *)
Lemma population_and_region_counterexample :
  (exists p,
     Parameters spec_validators a_day [("population", VInt 1000); ("region", two_regions)]
     = Ok p /\
     getattr p "population" = Ok (VInt 1000) /\ getattr p "region" = Ok two_regions) /\
  Parameters spec_validators a_day [("recovered", VInt (-1))]
  = Err (ValidationError "recovered" "value >= 0").
Proof.
  split; [|reflexivity].
  eexists. split; [vm_compute; reflexivity|]. split; reflexivity.
Qed.

(** C4 at the entry of [--max-y-axis]. *)
Lemma required_flags_witness :
  validator "--max-y-axis" Int (VInt 0) VNone true "" =
    Err (ValueError (MsgRequired "--max-y-axis")) /\
  (forall args v, supplied args "max_y_axis" = Some v -> v <> VNone).
Proof.
  pose proof (required_flags "max_y_axis" Int (VInt 0) VNone "Maximum y axis") as H.
  cbv zeta in H. destruct H as (H1 & _ & H3 & _); [cbn; auto 25|].
  split; [exact H1|exact H3].
Defined.

(** C4 as stated fails: [--max-y-axis] is marked required, the run has it
    neither on the command line nor in a file, and resolution succeeds
    with [max_y_axis] None. *)
Lemma omitted_required_flag_counterexample :
  In ("max_y_axis", Int, VInt 0, VNone, "Maximum y axis", true) cli_args /\
  supplied short_argv "max_y_axis" = None /\
  file_args [] no_files short_argv = [] /\
  exists p,
    Parameters_create spec_validators a_day [] no_files short_argv = Ok p /\
    getattr p "max_y_axis" = Ok VNone.
Proof.
  split; [cbn; auto 25|]. split; [vm_compute; reflexivity|]. split; [vm_compute; reflexivity|].
  eexists. split; [vm_compute; reflexivity|]. reflexivity.
Qed.

(** C5 as stated fails: with days -1 the rate 2 is outside [0, 1] and the
    error cites days, not rate. *)
Lemma days_before_rate_counterexample :
  ~ in_unit_interval 2 /\
  Disposition_create spec_validators (VInt (-1)) (VFloat 2) =
    Err (ValidationError "days" "value >= 0").
Proof.
  split; [|reflexivity]. intros [_ H]. vm_compute in H. discriminate.
Qed.

(** C6 as stated fails: the Field Schema has sixteen entries, not fifteen. *)
Lemma sixteen_names_counterexample :
  List.length (ACCEPTED_PARAMETERS spec_validators) = 16%nat /\
  List.length (ACCEPTED_PARAMETERS spec_validators) <> 15%nat.
Proof. split; [reflexivity|discriminate]. Qed.

(** C7 at the entry of [--population], inside and below its bound. *)
Lemma flag_validation_witness :
  validator "--population" Int (VInt 1) VNone true "1000" = Ok (VInt 1000) /\
  validator "--population" Int (VInt 1) VNone true "0" =
    Err (ValueError (MsgGreater "--population" (VInt 1))).
Proof.
  pose proof (flag_validation "population" Int (VInt 1) VNone "Regional population >= 1" true)
    as H.
  split.
  - destruct (H "1000") as [_ H2]; [cbn; auto 25|].
    destruct H2 as [_ H2]; [intros [E _]; discriminate|].
    apply (H2 (VInt 1000)); [reflexivity| |]; intros [_ E]; discriminate.
  - destruct (H "0") as [_ H2]; [cbn; auto 25|].
    destruct H2 as [_ H2]; [intros [E _]; discriminate|].
    apply (H2 (VInt 0)); [reflexivity|]. split; reflexivity.
Defined.

(** C8 on a known keyword followed by an unknown one. *)
Lemma unexpected_keyword_rejected_witness :
  exists first,
    first_unexpected spec_validators [("population", VInt 1000); ("foo", VInt 1)]
    = Some first /\
    Parameters_init spec_validators a_day [("population", VInt 1000); ("foo", VInt 1)] []
    = (unassigned, Err (ValueError (MsgUnexpected first))).
Proof.
  apply (unexpected_keyword_rejected spec_validators a_day
           [("population", VInt 1000); ("foo", VInt 1)] "foo").
  - cbn. tauto.
  - reflexivity.
Defined.

(** C8 as stated fails for the second of two unknown keywords: the error
    names the first. *)
Lemma second_unexpected_keyword_counterexample :
  In "bar" (keys [("foo", VInt 1); ("bar", VInt 2)]) /\
  accepted spec_validators "bar" = false /\
  Parameters_init spec_validators a_day [("foo", VInt 1); ("bar", VInt 2)] []
  = (unassigned, Err (ValueError (MsgUnexpected "foo"))).
Proof. split; [cbn; tauto|]. split; reflexivity. Qed.

(** C9 on keywords that give no date. *)
Lemma dates_default_to_today_witness :
  exists p,
    Parameters spec_validators a_day [("population", VInt 1000)] = Ok p /\
    getattr p "current_date" = Ok (VDate a_day) /\
    getattr p "mitigation_date" = Ok (VDate a_day).
Proof.
  eexists. split; [vm_compute; reflexivity|].
  match goal with
  | |- context [getattr ?p "current_date"] =>
      pose proof (dates_default_to_today spec_validators a_day
                    [("population", VInt 1000)] p) as H
  end.
  destruct H as (H1 & H2 & _); [vm_compute; reflexivity|].
  split; [apply H1|apply H2]; intros v [[=]|[]].
Defined.

(** C10 on keywords that give one Disposition. *)
Lemma dispositions_table_witness :
  exists p hospitalized icu ventilated,
    Parameters spec_validators a_day
      [("population", VInt 1000); ("icu", VDisposition (VInt 9) (VFloat 0.0075))] = Ok p /\
    getattr p "hospitalized" = Ok hospitalized /\
    getattr p "icu" = Ok icu /\
    getattr p "ventilated" = Ok ventilated /\
    getattr p "dispositions" =
      Ok (VDict [("hospitalized", hospitalized); ("icu", icu); ("ventilated", ventilated)]).
Proof.
  destruct (Parameters spec_validators a_day
              [("population", VInt 1000); ("icu", VDisposition (VInt 9) (VFloat 0.0075))])
    as [p|e] eqn:E; [|vm_compute in E; discriminate].
  destruct (dispositions_table _ _ _ _ E) as (h & i & v & Hh & Hi & Hv & Hd).
  exists p, h, i, v. auto.
Defined.

(* ================================================================== *)
(** * Further properties *)

(* ---------- Regions ---------- *)

Lemma fold_left_total kwargs n :
  fold_left (fun population (kv : string * Z) => population + snd kv) kwargs n
  = n + total kwargs.
Proof.
  revert n. induction kwargs as [|[k v] kwargs IH]; intros n; cbn.
  - unfold total. cbn. lia.
  - rewrite IH. unfold total. cbn. lia.
Qed.

Lemma lookup_fold_count name kwargs self :
  lookup name (fold_left (fun self (kv : string * Z) => setattr self (fst kv) (VInt (snd kv)))
                 kwargs self)
  = match lookup name (rev (map (fun kv : string * Z => (fst kv, VInt (snd kv))) kwargs)) with
    | Some v => Some v
    | None => lookup name self
    end.
Proof.
  revert self. induction kwargs as [|[k v] kwargs IH]; intros self; cbn; [reflexivity|].
  rewrite IH, lookup_app. cbn.
  destruct (lookup name (rev _)); [reflexivity|].
  rewrite lookup_setattr. now destruct (k =? name)%string.
Qed.

(** X1: a [Regions] object has the attribute [population] with the sum of
    the counts it was called with; it has no attribute but [population] and
    the names of the regions, and each region other than one called
    population has its count. *)
Theorem regions_population kwargs :
  exists attributes,
    Regions kwargs = VRegions attributes /\
    getattr attributes "population" = Ok (VInt (total kwargs)) /\
    (forall name v, getattr attributes name = Ok v ->
                    name = "population" \/ In name (map fst kwargs)) /\
    (NoDup (map fst kwargs) ->
     forall name count, In (name, count) kwargs -> name <> "population" ->
                        getattr attributes name = Ok (VInt count)).
Proof.
  unfold Regions. eexists. split; [reflexivity|]. rewrite fold_left_total.
  unfold getattr. split; [|split].
  - now rewrite lookup_setattr.
  - intros name v. rewrite lookup_setattr.
    destruct (String.eqb_spec "population" name) as [<-|Hn]; [now left|].
    rewrite lookup_fold_count. cbn [lookup].
    destruct (lookup name (rev _)) as [w|] eqn:L; [|discriminate].
    intros _. right. apply lookup_In, in_rev, in_map_iff in L as [[k c] [[= <- _] Hin]].
    now apply (in_map fst) in Hin.
  - intros N name count Hin Hn. rewrite lookup_setattr.
    destruct (String.eqb_spec "population" name) as [E|_]; [congruence|].
    rewrite lookup_fold_count.
    change (lookup name (rev (map (fun kv : string * Z => (fst kv, VInt (snd kv))) kwargs)))
      with (final name (map (fun kv : string * Z => (fst kv, VInt (snd kv))) kwargs)).
    rewrite final_NoDup.
    + assert (L : lookup name (map (fun kv : string * Z => (fst kv, VInt (snd kv))) kwargs)
                  = Some (VInt count)).
      { clear Hn. induction kwargs as [|[k c] kwargs IH]; [contradiction|].
        cbn in *. inversion N as [|? ? Hk Hrest]; subst.
        destruct Hin as [[= -> ->]|Hin].
        - now rewrite String.eqb_refl.
        - destruct (String.eqb_spec k name) as [->|_]; [|now apply IH].
          exfalso. apply Hk. now apply (in_map fst) in Hin. }
      now rewrite L.
    + unfold keys. rewrite map_map. cbn [fst]. exact N.
Qed.

(* ---------- declarative_validator ---------- *)

(** X2: [declarative_validator(cast)] is [validator(arg, cast, None, None,
    required=False)]: on every string both return the same value or raise
    the same error. *)
Theorem declarative_validator_unbounded arg cast string :
  declarative_validator cast string = validator arg cast VNone VNone false string.
Proof.
  unfold declarative_validator, validator.
  destruct ((string =? "")%string && negb (Cast_eqb cast Str)); [reflexivity|].
  now destruct (apply_cast cast string).
Qed.

(* ---------- to_cli ---------- *)

Lemma replace_back s : replace "-" "_" (replace "_" "-" s) = replace "-" "_" s.
Proof.
  induction s as [|c s IH]; cbn; [reflexivity|]. rewrite IH. f_equal.
  destruct (Ascii.eqb_spec c "_") as [->|H1]; [reflexivity|].
  reflexivity.
Qed.

Lemma replace_absent a b s : contains a s = false -> replace a b s = s.
Proof.
  induction s as [|c s IH]; cbn; [reflexivity|].
  intros H. apply orb_false_iff in H as [Hc Hs]. rewrite IH by assumption.
  rewrite Ascii.eqb_sym, Hc. reflexivity.
Qed.

(** X3: for a name that does not begin with a hyphen or an underscore, the
    attribute the parser stores the flag [to_cli(name)] in is the name with
    its hyphens turned into underscores; a name without a hyphen is its own
    destination. *)
Theorem dest_of_flag c rest :
  c <> "-"%char -> c <> "_"%char ->
  let name := String c rest in
  flag_dest name = replace "-" "_" name /\
  (contains "-" name = false -> flag_dest name = name).
Proof.
  intros H1 H2 name.
  assert (E : flag_dest name = replace "-" "_" name).
  { unfold flag_dest, infer_dest, to_cli, name.
    change (("--" ++ replace "_" "-" (String c rest))%string)
      with (String "-" (String "-" (replace "_" "-" (String c rest)))).
    cbn [lstrip_char replace]. rewrite !Ascii.eqb_refl.
    destruct (Ascii.eqb_spec c "_") as [->|_]; [congruence|].
    cbn [lstrip_char replace].
    destruct (Ascii.eqb_spec "-" c) as [<-|_]; [congruence|].
    cbn [replace].
    destruct (Ascii.eqb_spec c "-") as [->|_]; [congruence|].
    now rewrite replace_back. }
  split; [exact E|]. intros H. rewrite E. now apply replace_absent.
Qed.

(** X3 on the names of two flags. *)
Lemma dest_of_flag_witness :
  flag_dest "n-days" = "n_days" /\ flag_dest "icu_rate" = "icu_rate".
Proof.
  split.
  - apply (dest_of_flag "n" "-days"); discriminate.
  - apply (dest_of_flag "i" "cu_rate"); [discriminate..|reflexivity].
Defined.

(* ---------- cast_date ---------- *)

Lemma digit_of_char n : 0 <= n <= 9 -> digit (digit_char n) = Some n.
Proof.
  intros H. assert (C : In n (map Z.of_nat (seq 0 10))) by (cbn; lia).
  cbn in C. repeat (destruct C as [<-|C]; [reflexivity|]). contradiction.
Qed.

Lemma digit_char_not_dash n : 0 <= n <= 9 -> digit_char n <> "-"%char.
Proof.
  intros H E. apply digit_of_char in H. rewrite E in H. discriminate.
Qed.

Lemma strptime_padded y1 y2 y3 y4 m1 m2 d1 d2 :
  m2 <> "-"%char ->
  strptime_Ymd (string_of_list_ascii [y1; y2; y3; y4; "-"%char; m1; m2; "-"%char; d1; d2]) =
  match digit y1, digit y2, digit y3, digit y4 with
  | Some a, Some b, Some c, Some d =>
      match month_directive [m1; m2], day_directive [d1; d2] with
      | Some m, Some d' =>
          if valid_date (number [a; b; c; d]) m d'
          then Some (mkdate (number [a; b; c; d]) m d') else None
      | _, _ => None
      end
  | _, _, _, _ => None
  end.
Proof.
  intros H. unfold strptime_Ymd. rewrite list_ascii_of_string_of_list_ascii.
  destruct (digit y1), (digit y2), (digit y3), (digit y4); try reflexivity.
  destruct m2 as [[] [] [] [] [] [] [] []]; try reflexivity. congruence.
Qed.

Lemma month_of_chars m :
  1 <= m <= 12 -> month_directive [digit_char (m / 10); digit_char (m mod 10)] = Some m.
Proof.
  intros H. assert (C : In m (map Z.of_nat (seq 1 12))) by (cbn; lia).
  cbn in C. repeat (destruct C as [<-|C]; [reflexivity|]). contradiction.
Qed.

Lemma day_of_chars d :
  1 <= d <= 31 -> day_directive [digit_char (d / 10); digit_char (d mod 10)] = Some d.
Proof.
  intros H. assert (C : In d (map Z.of_nat (seq 1 31))) by (cbn; lia).
  cbn in C. repeat (destruct C as [<-|C]; [reflexivity|]). contradiction.
Qed.

Lemma number_of_digits y :
  number [y / 1000; (y / 100) mod 10; (y / 10) mod 10; y mod 10] = y.
Proof. unfold number. cbn [fold_left]. Z.div_mod_to_equations. lia. Qed.

(** X4: [cast_date] reads back the ISO form of every calendar date: for a
    date [d] of the years 1 to 9999, [cast_date(d.isoformat())] is [d]. *)
Theorem cast_date_isoformat d :
  valid_date (year d) (month d) (day d) = true ->
  cast_date (isoformat d) = Ok (VDate d).
Proof.
  destruct d as [y m dd]. cbn [year month day]. intros V.
  pose proof V as V'. unfold valid_date in V'.
  rewrite !andb_true_iff, !Z.leb_le in V'. destruct V' as [[[[[Hy1 Hy2] Hm1] Hm2] Hd1] Hd2].
  assert (Hdim : days_in_month y m <= 31).
  { unfold days_in_month. repeat destruct (_ =? _); try destruct (is_leap y); cbn; lia. }
  unfold cast_date, isoformat. cbn [year month day].
  rewrite strptime_padded by (apply digit_char_not_dash; Z.div_mod_to_equations; lia).
  rewrite !digit_of_char by (Z.div_mod_to_equations; lia).
  rewrite month_of_chars, day_of_chars by lia.
  rewrite number_of_digits, V. reflexivity.
Qed.

(** X4 on a leap day. *)
Lemma cast_date_isoformat_witness :
  cast_date (isoformat (mkdate 2020 2 29)) = Ok (VDate (mkdate 2020 2 29)) /\
  isoformat (mkdate 2020 2 29) = "2020-02-29".
Proof. split; [now apply cast_date_isoformat|reflexivity]. Defined.

(* ---------- the constructor: success ---------- *)

(** X5: the constructor succeeds exactly when every keyword is in the
    Field Schema, every collected keyword passes its schema validator,
    [region] or [population] is given a value other than None, and the
    [Date] validator accepts both dates after the defaulting. *)
Theorem constructor_succeeds_iff V today kwargs :
  (exists p, Parameters V today kwargs = Ok p) <->
  first_unexpected V kwargs = None /\
  Forall (passes V) (collected kwargs) /\
  (given "region" kwargs <> VNone \/ given "population" kwargs <> VNone) /\
  Date V "current_date" (resolve today (given "current_date" kwargs)) = Accept /\
  Date V "mitigation_date" (resolve today (given "mitigation_date" kwargs)) = Accept.
Proof.
  unfold collected. split.
  - intros [p H].
    apply init_ok in H as (self & cd & md & h & i & v & Hfirst & -> & Hpass & Hcd & Hmd & _ & _
                           & _ & Hinv & Dcd & Dmd & _).
    rewrite lookup_assigned in Hcd, Hmd by (cbn; tauto).
    rewrite !lookup_assigned in Hinv by (cbn; tauto).
    injection Hcd as <-. injection Hmd as <-.
    repeat split; try assumption. destruct Hinv as [H|H]; [left|right]; congruence.
  - intros (Hfirst & Hpass & Hinv & Dcd & Dmd).
    rewrite (init_run V today kwargs Hfirst Hpass).
    apply call_ok in Dcd, Dmd. rewrite Dcd, Dmd. cbn [bind].
    destruct (given "region" kwargs), (given "population" kwargs); cbn [is_None andb];
      eauto; destruct Hinv; congruence.
Qed.

(* ---------- the constructor: the first keyword that is rejected ---------- *)

Lemma second_loop_stops V before key v after self entry :
  Forall (passes V) before ->
  item (ACCEPTED_PARAMETERS V) key = Ok entry ->
  fst (fst entry) key v <> Accept ->
  exists e,
    validated (fst (fst entry)) key v = Err e /\
    for_each (before ++ (key, v) :: after) (validate_and_assign V) self
    = (fold_left store before self, Err e).
Proof.
  intros Hbefore Hi Hv. revert self.
  induction Hbefore as [|[k w] before [entry' [Hi' Hv']] _ IH]; intros self.
  - cbn [app for_each fold_left].
    destruct (validated (fst (fst entry)) key v) as [[]|e] eqn:E.
    + apply validated_ok in E. contradiction.
    + exists e. split; [reflexivity|].
      unfold mbind, validate_and_assign, mbind, lift. now rewrite Hi, E.
  - cbn [fst snd] in Hi', Hv'. destruct (IH (store self (k, w))) as [e [He Hrun]].
    exists e. split; [exact He|].
    cbn [app for_each fold_left].
    unfold mbind at 1. unfold validate_and_assign at 1, mbind, lift, self_set.
    apply validated_ok in Hv'. rewrite Hi', Hv'. exact Hrun.
Qed.

Lemma init_loop_err V today kwargs self e :
  first_unexpected V kwargs = None ->
  for_each (fold_left store kwargs []) (validate_and_assign V) unassigned = (self, Err e) ->
  Parameters V today kwargs = Err e.
Proof.
  intros Hfirst Hloop.
  unfold Parameters, Parameters_init.
  cbn [mbind self_set setattr String.eqb Ascii.eqb Bool.eqb].
  fold unassigned.
  unfold mbind at 1. unfold lift at 1.
  rewrite first_loop_total, Hfirst.
  unfold mbind at 1. fold (validate_and_assign V).
  now rewrite Hloop.
Qed.

(** X6: when all keywords are in the Field Schema, the constructor fails at
    the first keyword, in keyword order, that its validator does not
    accept: with the validator's ValidationError, or, if the validator
    raised a TypeError, with a ValueError that names the key and the
    value. *)
Theorem first_rejected_keyword V today kwargs before key v after entry :
  first_unexpected V kwargs = None ->
  collected kwargs = before ++ (key, v) :: after ->
  Forall (passes V) before ->
  item (ACCEPTED_PARAMETERS V) key = Ok entry ->
  (forall constraint, fst (fst entry) key v = Reject constraint ->
     Parameters V today kwargs = Err (ValidationError key constraint)) /\
  (forall why, fst (fst entry) key v = Mismatch why ->
     Parameters V today kwargs = Err (ValueError (MsgValidation key v (Msg why)))).
Proof.
  unfold collected. intros Hfirst Hsplit Hbefore Hi.
  assert (G : forall e, fst (fst entry) key v <> Accept ->
                        validated (fst (fst entry)) key v = Err e ->
                        Parameters V today kwargs = Err e).
  { intros e Hv He.
    destruct (second_loop_stops V before key v after unassigned entry Hbefore Hi Hv)
      as [e' [He' Hrun]].
    rewrite <- Hsplit in Hrun. apply (init_loop_err V today) in Hrun; [|assumption].
    congruence. }
  split.
  - intros c Hv. apply G; [congruence|]. unfold validated, call. now rewrite Hv.
  - intros why Hv. apply G; [congruence|]. unfold validated, call. now rewrite Hv.
Qed.

(** X6 on keywords with a rejected integer and with a string that cannot
    be compared. *)
Lemma first_rejected_keyword_witness :
  Parameters comparing_validators a_day
    [("population", VInt 1000); ("recovered", VInt (-1)); ("n_days", VStr "x")]
  = Err (ValidationError "recovered" "value >= 0") /\
  Parameters comparing_validators a_day
    [("population", VInt 1000); ("n_days", VStr "60"); ("recovered", VInt (-1))]
  = Err (ValueError (MsgValidation "n_days" (VStr "60")
                       (Msg "'<' not supported between instances"))).
Proof.
  split.
  - refine (proj1 (first_rejected_keyword comparing_validators a_day _
                     [("population", VInt 1000)] "recovered" (VInt (-1))
                     [("n_days", VStr "x")] _ _ _ _ _) _ _);
      try reflexivity.
    repeat constructor. eexists. split; reflexivity.
  - refine (proj2 (first_rejected_keyword comparing_validators a_day _
                     [("population", VInt 1000)] "n_days" (VStr "60")
                     [("recovered", VInt (-1))] _ _ _ _ _) _ _);
      try reflexivity.
    repeat constructor. eexists. split; reflexivity.
Defined.

(* ---------- the constructor: what the object holds ---------- *)

Lemma keys_fold_store_present l o :
  (forall k, In k (keys l) -> has k o = true) -> keys (fold_left store l o) = keys o.
Proof.
  revert o. induction l as [|[k v] l IH]; intros o H; cbn; [reflexivity|].
  rewrite IH.
  - unfold store. cbn [fst snd]. rewrite keys_setattr, H; [reflexivity|cbn; now left].
  - intros k' Hk'. unfold store. cbn [fst snd]. rewrite has_setattr.
    rewrite (H k') by (cbn; now right). apply orb_true_r.
Qed.

(** X7: a constructed object has the sixteen schema attributes, then
    [labels] and [dispositions]; every schema attribute other than the two
    defaulted dates holds the keyword's value unchanged, and None when the
    keyword was not passed. *)
Theorem constructed_object V today kwargs p :
  Parameters V today kwargs = Ok p ->
  keys p = keys unassigned ++ ["labels"; "dispositions"] /\
  getattr p "labels" = Ok labels /\
  forall name, In name parameter_names ->
               name <> "current_date" -> name <> "mitigation_date" ->
               getattr p name = Ok (given name kwargs).
Proof.
  intros H. pose proof (init_fields V today kwargs p H) as (Fields & _ & _).
  apply init_ok in H as (self & cd & md & h & i & v & Hfirst & -> & Hpass & Hcd & Hmd & _ & _
                         & _ & _ & _ & _ & ->).
  split; [|split].
  - rewrite !keys_setattr. unfold has. rewrite !lookup_setattr.
    cbn [String.eqb Ascii.eqb Bool.eqb]. rewrite Hcd, Hmd.
    assert (K : keys (fold_left store (fold_left store kwargs []) unassigned) = keys unassigned).
    { apply keys_fold_store_present. intros k Hk.
      apply in_map_iff in Hk as [[k' w] [<- Hin]]. cbn [fst].
      rewrite Forall_forall in Hpass. destruct (Hpass _ Hin) as [entry [Hi _]].
      apply item_accepted, accepted_names in Hi. cbn [fst] in Hi.
      cbn in Hi. repeat (destruct Hi as [<-|Hi]; [reflexivity|]). contradiction. }
    assert (Ll : lookup "labels" (fold_left store (fold_left store kwargs []) unassigned) = None).
    { apply lookup_None_keys. rewrite K. cbn. intuition discriminate. }
    assert (Ld : lookup "dispositions" (fold_left store (fold_left store kwargs []) unassigned)
                 = None).
    { apply lookup_None_keys. rewrite K. cbn. intuition discriminate. }
    rewrite Ll, Ld, K. reflexivity.
  - unfold getattr. rewrite !lookup_setattr. reflexivity.
  - intros name Hn Hc Hm. apply Fields; [|assumption..].
    cbn in Hn |- *. intuition.
Qed.

(** X7 on a region without a population: [population] stays None. *)
Lemma constructed_object_witness :
  exists p,
    Parameters spec_validators a_day [("region", two_regions); ("n_days", VInt 60)] = Ok p /\
    getattr p "n_days" = Ok (VInt 60) /\
    getattr p "population" = Ok VNone.
Proof.
  destruct (Parameters spec_validators a_day [("region", two_regions); ("n_days", VInt 60)])
    as [p|e] eqn:E; [|vm_compute in E; discriminate].
  destruct (constructed_object _ _ _ _ E) as (_ & _ & F).
  exists p. split; [reflexivity|].
  split; apply F; cbn; intuition discriminate.
Defined.

(* ---------- namespaces by their keys ---------- *)

Lemma keys_remove_first k o : keys (remove k o) = remove_first k (keys o).
Proof.
  unfold keys. induction o as [|[k' w] o IH]; cbn; [reflexivity|].
  destruct (k' =? k)%string; cbn; [reflexivity|now rewrite IH].
Qed.

Lemma attrs_by_keys o :
  NoDup (keys o) ->
  o = map (fun k => (k, match lookup k o with Some v => v | None => VNone end)) (keys o).
Proof.
  unfold keys. induction o as [|[k w] o IH]; cbn; [reflexivity|].
  intros N. inversion N as [|? ? Hk Ho]; subst.
  rewrite String.eqb_refl. f_equal.
  etransitivity; [exact (IH Ho)|]. rewrite !map_map. cbn [fst].
  apply map_ext_in. intros [k' w'] Hin. cbn [fst].
  destruct (String.eqb_spec k k') as [->|_]; [|reflexivity].
  exfalso. apply Hk. now apply (in_map fst) in Hin.
Qed.

Lemma has_keys k o : has k o = true <-> In k (keys o).
Proof.
  unfold has. destruct (lookup k o) eqn:L.
  - split; [|reflexivity]. intros _. apply lookup_In in L. now apply (in_map fst) in L.
  - split; [discriminate|]. intros H. now apply lookup_None_keys in L.
Qed.

Section Stages.
Variable V : Validators.

Lemma create_resolution today env fs argv :
  Parameters_create V today env fs argv = resolution V today env fs argv.
Proof.
  unfold Parameters_create, resolution, parse_args.
  destruct (parse_actions Parameters_parser argv) as [cli|] eqn:Hcli; [|reflexivity].
  cbn [bind]. rewrite fresh_defaults.
  set (a1 := fold_left store cli cli_defaults).
  assert (L1 : forall dest, In dest (keys cli_defaults) ->
                            lookup dest a1 = Some (given dest cli)).
  { intros dest Hd. unfold a1, given. rewrite lookup_fold_store.
    destruct (final dest cli); [reflexivity|now apply lookup_cli_defaults]. }
  unfold getattr at 1. rewrite (L1 "parameters") by (cbn; tauto). cbn [bind].
  set (a1' := if is_None (given "parameters" cli)
              then setattr a1 "parameters" (env_get env "PARAMETERS") else a1).
  assert (Hfile : parameters_file env argv =
                  if is_None (given "parameters" cli)
                  then env_get env "PARAMETERS" else given "parameters" cli).
  { unfold parameters_file, given. rewrite (supplied_ok _ _ _ Hcli).
    destruct (final "parameters" cli); reflexivity. }
  assert (L1' : lookup "parameters" a1' = Some (parameters_file env argv)).
  { rewrite Hfile. unfold a1'. destruct (is_None (given "parameters" cli)).
    - rewrite lookup_setattr. reflexivity.
    - apply L1. cbn; tauto. }
  assert (L1'' : forall dest, dest <> "parameters" -> lookup dest a1' = lookup dest a1).
  { intros dest Hd. unfold a1'. destruct (is_None (given "parameters" cli)); [|reflexivity].
    rewrite lookup_setattr. destruct (String.eqb_spec "parameters" dest); congruence. }
  assert (K1 : keys a1' = keys cli_defaults).
  { assert (K : keys a1 = keys cli_defaults).
    { unfold a1. apply keys_fold_store_present. intros k Hk.
      apply has_keys. eapply stores_dests; eassumption. }
    unfold a1'. destruct (is_None (given "parameters" cli)); [|exact K].
    rewrite keys_setattr.
    replace (has "parameters" a1) with true; [exact K|].
    symmetry. apply has_keys. rewrite K. cbn. tauto. }
  assert (H1' : forall dest, In dest (parser_dests Parameters_parser) -> has dest a1' = true).
  { rewrite dests_of_parser. intros dest Hd. apply has_keys. now rewrite K1. }
  unfold getattr at 1. rewrite L1'. cbn [bind].
  rewrite (add_defaults_present _ _ H1').
  match goal with
  | |- bind ?stage ?k = bind ?stage' ?k' =>
      assert (Hstage : stage' = Err (match stage' with Err e => e | Ok _ => IndexError end)
                       /\ stage = Err (match stage' with Err e => e | Ok _ => IndexError end)
                       \/ exists file,
                            parse_actions Parameters_parser (file_args env fs argv) = Ok file /\
                            stage' = Ok file /\ stage = Ok (fold_left store file a1'))
  end.
  { unfold file_args. destruct (is_None (parameters_file env argv)); cbn [negb].
    - right. exists []. auto.
    - destruct (open_read fs (parameters_file env argv)) as [contents|]; cbn [bind];
        [|now left].
      destruct (parse_actions Parameters_parser (split contents)) as [file|]; cbn [bind];
        [|now left].
      right. exists file. auto. }
  destruct Hstage as [[-> ->]|[file [Hfile2 [-> ->]]]]; [reflexivity|].
  cbn [bind]. cbv zeta.
  set (a := fold_left store file a1').
  assert (K : keys a = keys cli_defaults).
  { unfold a. rewrite keys_fold_store_present; [exact K1|].
    intros k Hk. apply has_keys. rewrite K1. eapply stores_dests; eassumption. }
  assert (N : NoDup (keys a)) by (rewrite K; apply NoDup_cli_defaults).
  assert (L : forall dest, In dest (keys cli_defaults) -> dest <> "parameters" ->
                           lookup dest a = Some (layered env fs argv dest)).
  { intros dest Hd Hp. unfold a, layered. rewrite lookup_fold_store.
    rewrite (supplied_ok _ _ _ Hfile2), (supplied_ok _ _ _ Hcli).
    destruct (final dest file); [reflexivity|].
    rewrite (L1'' _ Hp), (L1 _ Hd). reflexivity. }
  unfold delattr at 1.
  replace (has "parameters" a) with true
    by (symmetry; apply has_keys; rewrite K; cbn; tauto).
  cbn [bind].
  set (a0 := remove "parameters" a).
  assert (L0 : forall dest, In dest (keys cli_defaults) -> dest <> "parameters" ->
                            getattr a0 dest = Ok (layered env fs argv dest)).
  { intros dest Hd Hp. apply getattr_ok. unfold a0.
    rewrite lookup_remove_other by assumption. now apply L. }
  rewrite !L0 by (cbn; intuition discriminate). cbn [bind].
  repeat lazymatch goal with
         | |- bind (call ?f ?k ?v) _ = _ =>
             destruct (call f k v) as [[]|]; [|reflexivity]; cbn [bind]
         end.
  destruct (Disposition_create V (layered env fs argv "hospitalized_days")
              (layered env fs argv "hospitalized_rate")) as [hospitalized|];
    [|reflexivity].
  destruct (Disposition_create V (layered env fs argv "icu_days")
              (layered env fs argv "icu_rate")) as [icu|]; [|reflexivity].
  destruct (Disposition_create V (layered env fs argv "ventilated_days")
              (layered env fs argv "ventilated_rate")) as [ventilated|]; [|reflexivity].
  cbn [bind].
  assert (K0 : keys a0 = remove_first "parameters" (keys cli_defaults)).
  { unfold a0. now rewrite keys_remove_first, K. }
  assert (N0 : NoDup (keys a0)) by (unfold a0; now apply NoDup_remove).
  set (rest := remove "ventilated_rate" (remove "ventilated_days" (remove "icu_rate"
                 (remove "icu_days" (remove "hospitalized_rate"
                    (remove "hospitalized_days" a0)))))).
  assert (Kr : keys rest = field_flags).
  { unfold rest. rewrite !keys_remove_first, K0. reflexivity. }
  assert (Nr : NoDup (keys rest)) by (unfold rest; do 6 apply NoDup_remove; exact N0).
  assert (Er : rest = map (fun dest => (dest, layered env fs argv dest)) field_flags).
  { rewrite (attrs_by_keys rest Nr), Kr. apply map_ext_in. intros dest Hd. f_equal.
    unfold rest, a0.
    rewrite !lookup_remove_other by (cbn in Hd; intros ->; intuition discriminate).
    rewrite L; [reflexivity| |]; cbn in Hd |- *; intuition (subst; try discriminate; auto 25). }
  unfold delattr.
  repeat match goal with
         | |- context [has ?k ?o] =>
             replace (has k o) with true
               by (symmetry; apply has_keys; rewrite ?keys_remove_first, K0; cbn; tauto);
             cbn [bind]
         end.
  fold rest. rewrite Er. reflexivity.
Qed.

End Stages.

(* ---------- what the parser raises ---------- *)

Lemma validator_raises arg cast min_value max_value required string e :
  validator arg cast min_value max_value required string = Err e ->
  (exists m, e = ValueError m) \/ (exists m, e = TypeError m).
Proof.
  unfold validator.
  destruct ((string =? "")%string && negb (Cast_eqb cast Str)).
  { destruct required; [|discriminate]. intros [= <-]. eauto. }
  destruct (apply_cast cast string) as [v|e0] eqn:C; cbn [bind].
  2:{ intros [= <-]. destruct cast; cbn in C; unfold cast_date, of_option in C;
      try discriminate;
      match type of C with
      | match ?o with _ => _ end = _ => destruct o; [discriminate|injection C as <-; eauto]
      end. }
  assert (P : forall a b r, py_lt a b = Err r -> exists m, r = TypeError m).
  { intros a b r. destruct a, b; cbn; try discriminate; intros [= <-]; eauto. }
  assert (Q : forall a b r, py_gt a b = Err r -> exists m, r = TypeError m).
  { intros a b r. destruct a, b; cbn; try discriminate; intros [= <-]; eauto. }
  destruct (is_None min_value).
  - cbn [bind]. destruct (is_None max_value); cbn [bind]; [discriminate|].
    destruct (py_gt v max_value) as [[]|r] eqn:G; cbn [bind]; try discriminate.
    + intros [= <-]. eauto.
    + intros [= <-]. right. eauto.
  - destruct (py_lt v min_value) as [[]|r] eqn:G; cbn [bind].
    + intros [= <-]. eauto.
    + destruct (is_None max_value); cbn [bind]; [discriminate|].
      destruct (py_gt v max_value) as [[]|r] eqn:G2; cbn [bind]; try discriminate.
      * intros [= <-]. eauto.
      * intros [= <-]. right. eauto.
    + intros [= <-]. right. eauto.
Qed.








(* ---------- what the constructor raises ---------- *)





(* ---------- Parameters.create: what it raises ---------- *)




(* ---------- Parameters.create: when it succeeds ---------- *)

Lemma is_None_eq v : is_None v = true <-> v = VNone.
Proof. destruct v; cbn; split; intros H; congruence. Qed.

Lemma Disposition_create_iff V days rate x :
  Disposition_create V days rate = Ok x <->
  Positive V "days" days = Accept /\ Rate V "rate" rate = Accept /\ x = VDisposition days rate.
Proof.
  split.
  - intros H. apply Disposition_create_value in H. tauto.
  - intros (H1 & H2 & ->). unfold Disposition_create.
    apply call_ok in H1, H2. now rewrite H1, H2.
Qed.

(** X9: [Parameters.create] returns an object exactly when the command
    line parses, the parameters file (if one is named) can be read and
    parses, the days and rate of each disposition pass [Positive] and
    [Rate] under both of their names, and the constructor returns that
    object for the three Dispositions followed by the layered values of
    the twelve other flags. *)
Theorem create_succeeds_iff V today env fs argv p :
  Parameters_create V today env fs argv = Ok p <->
  (exists cli, parse_actions Parameters_parser argv = Ok cli) /\
  file_parses env fs argv /\
  disposition_passes V (layered env fs argv) "hospitalized_days" "hospitalized_rate" /\
  disposition_passes V (layered env fs argv) "icu_days" "icu_rate" /\
  disposition_passes V (layered env fs argv) "ventilated_days" "ventilated_rate" /\
  Parameters V today (created_keywords (layered env fs argv)) = Ok p.
Proof.
  rewrite create_resolution. unfold resolution, file_parses, disposition_passes.
  split.
  - destruct (parse_actions Parameters_parser argv) as [cli|]; [|discriminate]. cbn [bind].
    match goal with
    | |- bind ?stage _ = _ -> _ => destruct stage as [file|] eqn:Hfile; [|discriminate]
    end.
    cbn [bind]. cbv zeta.
    repeat lazymatch goal with
           | |- bind (call ?f ?k ?v) _ = _ -> _ =>
               let C := fresh "C" in
               destruct (call f k v) as [[]|] eqn:C; [|discriminate];
               apply call_ok in C; cbn [bind]
           | |- bind (Disposition_create V ?d ?r) _ = _ -> _ =>
               let C := fresh "C" in
               destruct (Disposition_create V d r) eqn:C; [|discriminate];
               apply Disposition_create_iff in C as (? & ? & ->); cbn [bind]
           end.
    intros Hp. split; [eauto|]. split.
    { destruct (is_None (parameters_file env argv)) eqn:E; [left; now apply is_None_eq|].
      right. destruct (open_read fs (parameters_file env argv)) as [contents|];
        [|discriminate]. cbn [bind] in Hfile. eauto. }
    repeat split; assumption.
  - intros ([cli ->] & Hfile & (A1 & A2 & A3 & A4) & (B1 & B2 & B3 & B4) & (C1 & C2 & C3 & C4)
            & H).
    cbn [bind].
    replace (if is_None (parameters_file env argv) then Ok []
             else contents <- open_read fs (parameters_file env argv) ;;
                  parse_actions Parameters_parser (split contents))
      with (Ok (match (if is_None (parameters_file env argv) then Ok []
                       else contents <- open_read fs (parameters_file env argv) ;;
                            parse_actions Parameters_parser (split contents))
                with Ok file => file | Err _ => [] end)).
    2:{ destruct Hfile as [->|(contents & file & Ho & Hp)]; [reflexivity|].
        rewrite Ho. cbn [bind]. rewrite Hp.
        now destruct (is_None (parameters_file env argv)). }
    cbn [bind]. cbv zeta.
    apply call_ok in A1, A2, B1, B2, C1, C2.
    rewrite A1, A2, B1, B2, C1, C2. cbn [bind].
    rewrite (proj2 (Disposition_create_iff V _ _ _) (conj A3 (conj A4 eq_refl))).
    rewrite (proj2 (Disposition_create_iff V _ _ _) (conj B3 (conj B4 eq_refl))).
    rewrite (proj2 (Disposition_create_iff V _ _ _) (conj C3 (conj C4 eq_refl))).
    cbn [bind]. exact H.
Qed.

(* ---------- one file ---------- *)

(** X10: [Parameters.create] depends on the environment and the file system
    only through the path of the parameters file and the content of that
    one file. *)
Theorem create_reads_one_file V today env env' fs fs' argv :
  parameters_file env argv = parameters_file env' argv ->
  (forall path, parameters_file env argv = VStr path -> fs path = fs' path) ->
  Parameters_create V today env fs argv = Parameters_create V today env' fs' argv.
Proof.
  intros He Hfs. rewrite !create_resolution. unfold resolution.
  assert (O : open_read fs (parameters_file env argv) = open_read fs' (parameters_file env' argv)).
  { rewrite <- He. unfold open_read. destruct (parameters_file env argv) eqn:E; try reflexivity.
    now rewrite (Hfs s). }
  assert (F : file_args env fs argv = file_args env' fs' argv).
  { unfold file_args. now rewrite <- He, O, <- He. }
  assert (L : layered env fs argv = layered env' fs' argv).
  { unfold layered. now rewrite F. }
  now rewrite L, O, He.
Qed.

(** X10: the environment is not looked at when the command line names the
    file. *)
Lemma create_reads_one_file_witness :
  Parameters_create spec_validators a_day [("PARAMETERS", "other.cfg")] one_file layered_argv
  = Parameters_create spec_validators a_day [] one_file layered_argv.
Proof.
  apply create_reads_one_file; [reflexivity|]. intros path _. reflexivity.
Defined.

(* ---------- a file that cannot be read ---------- *)

(** X11: when the command line parses and the parameters file it or the
    environment names cannot be opened, [Parameters.create] raises the
    OSError of that path. *)
Theorem unreadable_parameters_file V today env fs argv cli path :
  parse_actions Parameters_parser argv = Ok cli ->
  parameters_file env argv = VStr path ->
  fs path = None ->
  Parameters_create V today env fs argv = Err (OSError path).
Proof.
  intros Hcli Hp Hfs. rewrite create_resolution. unfold resolution.
  rewrite Hcli, Hp. cbn. now rewrite Hfs.
Qed.

(** X11 on a file of the environment that does not exist. *)
Lemma unreadable_parameters_file_witness :
  Parameters_create spec_validators a_day [("PARAMETERS", "chime.cfg")] no_files round_trip_argv
  = Err (OSError "chime.cfg").
Proof.
  eapply unreadable_parameters_file; [vm_compute; reflexivity|vm_compute; reflexivity|].
  reflexivity.
Defined.

(* ---------- argument vectors put end to end ---------- *)

Lemma classify_app registry a b :
  ~ In "--" a ->
  classify registry (a ++ b) =
  (ca <- classify registry a ;; cb <- classify registry b ;; Ok (ca ++ cb)).
Proof.
  induction a as [|s a IH]; intros H.
  - cbn. now destruct (classify registry b).
  - cbn [app classify].
    destruct (String.eqb_spec s "--") as [->|_]; [exfalso; apply H; now left|].
    destruct (parse_optional registry s) as [t|]; cbn [bind]; [|reflexivity].
    rewrite IH by (intros Hin; apply H; now right).
    destruct (classify registry a); cbn [bind]; [|reflexivity].
    now destruct (classify registry b).
Qed.

Lemma consume_app n ca cb r :
  (List.length ca <= n)%nat ->
  consume ca = Ok r ->
  consume (ca ++ cb) = (r' <- consume cb ;; Ok (fst r ++ fst r', snd r ++ snd r')).
Proof.
  revert ca r. induction n as [|n IH]; intros ca r Hn.
  - destruct ca; [|cbn in Hn; lia]. intros [= <-]. cbn.
    now destruct (consume cb) as [[x y]|].
  - destruct ca as [|[s c] rest]; [intros [= <-]; cbn; now destruct (consume cb) as [[x y]|]|].
    cbn in Hn.
    assert (Hskip : (x <- consume rest ;; Ok (fst x, s :: snd x)) = Ok r ->
                    (x <- consume (rest ++ cb) ;; Ok (fst x, s :: snd x)) =
                    (r' <- consume cb ;; Ok (fst r ++ fst r', snd r ++ snd r'))).
    { destruct (consume rest) as [x|] eqn:C; [|discriminate]. cbn [bind].
      intros [= <-]. rewrite (IH rest x) by (assumption || lia).
      destruct (consume cb); reflexivity. }
    destruct c as [| |[[[a|] o] e]]; try exact Hskip.
    destruct a as [|os dest type]; cbn [app consume].
    + destruct e as [e|]; [destruct (is_long o)|]; discriminate.
    + destruct e as [e|].
      * destruct (get_values (StoreAction os dest type) type [e]) as [v|]; [|discriminate].
        cbn [bind]. destruct (consume rest) as [x|] eqn:C; [|discriminate]. cbn [bind].
        intros [= <-]. rewrite (IH rest x) by (assumption || lia).
        destruct (consume cb); reflexivity.
      * destruct rest as [|[x [| |t]] rest']; try discriminate. cbn [app].
        destruct (get_values (StoreAction os dest type) type [x]) as [v|]; [|discriminate].
        cbn [bind]. destruct (consume rest') as [y|] eqn:C; [|discriminate]. cbn [bind].
        intros [= <-]. rewrite (IH rest' y) by (assumption || (cbn in Hn; lia)).
        destruct (consume cb); reflexivity.
Qed.

Lemma parse_actions_app parser a b stores :
  ~ In "--" a ->
  parse_actions parser a = Ok stores ->
  parse_actions parser (a ++ b) = (more <- parse_actions parser b ;; Ok (stores ++ more)).
Proof.
  intros H. unfold parse_actions. rewrite classify_app by assumption.
  destruct (classify (option_string_actions parser) a) as [ca|]; [|discriminate].
  cbn [bind]. destruct (consume ca) as [r|] eqn:C; [|discriminate]. cbn [bind].
  destruct (snd r) eqn:E; [|discriminate]. intros [= <-].
  destruct (classify (option_string_actions parser) b) as [cb|]; [|reflexivity].
  cbn [bind]. rewrite (consume_app _ ca cb r (le_n _) C).
  destruct (consume cb) as [r'|]; [|reflexivity]. cbn [bind fst snd].
  rewrite E. cbn [app]. now destruct (snd r').
Qed.

Lemma has_add_defaults parser ns d :
  has d ns = true \/ In d (parser_dests parser) -> has d (add_defaults parser ns) = true.
Proof.
  unfold add_defaults, parser_dests. revert ns.
  induction (actions parser) as [|a l IH]; intros ns; cbn.
  - intros [H|[]]. exact H.
  - intros H. apply IH. destruct a as [|os dest type]; [cbn in H; tauto|].
    cbn in H. destruct H as [H|[->|H]]; [| |tauto].
    + left. destruct (has dest ns); [exact H|]. rewrite has_setattr, H. apply orb_true_r.
    + left. destruct (has d ns) eqn:E; [exact E|]. rewrite has_setattr, String.eqb_refl.
      reflexivity.
Qed.

(** X12: parsing two argument vectors put end to end is parsing the second
    into the namespace the first one gave, provided the first one parses
    and has no [--]: this is how the parameters file is layered over the
    command line. *)
Theorem parse_args_app parser a b namespace namespace' :
  ~ In "--" a ->
  parse_args parser a namespace = Ok namespace' ->
  parse_args parser (a ++ b) namespace = parse_args parser b namespace'.
Proof.
  intros H Ha. apply parse_args_ok in Ha as [stores [Hs ->]].
  unfold parse_args. rewrite (parse_actions_app _ _ _ _ H Hs).
  destruct (parse_actions parser b) as [more|]; [|reflexivity]. cbn [bind].
  rewrite fold_left_app. f_equal. f_equal. symmetry.
  apply add_defaults_present. intros d Hd.
  apply has_fold_store, has_add_defaults. now right.
Qed.

(** X12 on a repeated flag. *)
Lemma parse_args_app_witness :
  parse_args Parameters_parser
    (["--n-days"; "60"; "--population=1000"] ++ ["--n-days"; "30"]) []
  = parse_args Parameters_parser ["--n-days"; "30"]
      (setattr (setattr cli_defaults "n_days" (VInt 60)) "population" (VInt 1000)).
Proof.
  apply parse_args_app; [|reflexivity].
  intros [H|[H|[H|[]]]]; discriminate.
Defined.

(* ---------- the file as more arguments ---------- *)

Lemma given_final n l : given n l = VNone -> final n l = None \/ final n l = Some VNone.
Proof. unfold given. destruct (final n l); intros H; [right; now subst|now left]. Qed.

Lemma no_file_named args stores :
  parse_actions Parameters_parser args = Ok stores ->
  parameters_file [] args = VNone -> given "parameters" stores = VNone.
Proof.
  intros H. unfold parameters_file, given. rewrite (supplied_ok _ _ _ H). cbn [env_get].
  destruct (final "parameters" stores) as [v|]; [|reflexivity].
  destruct (is_None v) eqn:E; [now apply is_None_eq in E|]. now intros ->.
Qed.

(** X13: a parameters file named by the environment acts as arguments
    appended to the command line: when the command line parses, has no
    [--] and names no file, and the file names no file either,
    [Parameters.create] gives the same result as on the command line
    followed by the file's words, without a file. *)
Theorem file_is_more_arguments V today env fs argv cli path contents :
  parse_actions Parameters_parser argv = Ok cli ->
  ~ In "--" argv ->
  parameters_file [] argv = VNone ->
  env_get env "PARAMETERS" = VStr path ->
  fs path = Some contents ->
  parameters_file [] (split contents) = VNone ->
  Parameters_create V today env fs argv =
  Parameters_create V today [] fs (argv ++ split contents).
Proof.
  intros Hcli Hdash Hnone Henv Hfs Hfile.
  pose proof (no_file_named _ _ Hcli Hnone) as Gcli.
  assert (Pf : parameters_file env argv = VStr path).
  { unfold parameters_file. rewrite (supplied_ok _ _ _ Hcli), Henv.
    destruct (given_final _ _ Gcli) as [->| ->]; reflexivity. }
  rewrite !create_resolution. unfold resolution.
  rewrite Hcli, Pf, (parse_actions_app _ _ _ _ Hdash Hcli). cbn [bind is_None open_read].
  rewrite Hfs. cbn [bind].
  destruct (parse_actions Parameters_parser (split contents)) as [file|] eqn:Pfile;
    [|reflexivity].
  cbn [bind].
  pose proof (no_file_named _ _ Pfile Hfile) as Gfile.
  assert (Pboth : parse_actions Parameters_parser (argv ++ split contents) = Ok (cli ++ file)).
  { rewrite (parse_actions_app _ _ _ _ Hdash Hcli), Pfile. reflexivity. }
  assert (Pf' : parameters_file [] (argv ++ split contents) = VNone).
  { unfold parameters_file. rewrite (supplied_ok _ _ _ Pboth), final_app. cbn [env_get].
    destruct (given_final _ _ Gfile) as [->| ->]; [|reflexivity].
    destruct (given_final _ _ Gcli) as [->| ->]; reflexivity. }
  rewrite Pf'. cbn [is_None bind].
  assert (L : forall dest, layered env fs argv dest
                           = layered [] fs (argv ++ split contents) dest).
  { intros dest. unfold layered, file_args. rewrite Pf, Pf'. cbn [is_None open_read].
    rewrite Hfs. rewrite (supplied_ok _ _ _ Pfile), (supplied_ok _ _ _ Pboth),
      (supplied_ok _ _ _ Hcli), final_app.
    unfold supplied. cbn. destruct (final dest file); reflexivity. }
  cbv zeta. rewrite !L. cbn [map field_flags]. rewrite !L. reflexivity.
Qed.

(* ---------- strings ---------- *)

Lemma contains_app c a b : contains c (a ++ b)%string = contains c a || contains c b.
Proof.
  induction a as [|x a IH]; cbn; [reflexivity|]. rewrite IH. now rewrite orb_assoc.
Qed.

Lemma split_once_app c a b :
  contains c a = false -> split_once c (a ++ String c b)%string = (a, b).
Proof.
  induction a as [|x a IH]; cbn.
  - now rewrite Ascii.eqb_refl.
  - intros H. apply orb_false_iff in H as [Hx Ha]. rewrite Hx, (IH Ha). reflexivity.
Qed.

(* ---------- the registry ---------- *)

Lemma find_action_keys registry s :
  find_action registry s = None <-> ~ In s (map fst registry).
Proof.
  induction registry as [|[k a] registry IH]; cbn; [tauto|].
  destruct (String.eqb_spec k s) as [->|Hk].
  - split; [discriminate|]. intros H. exfalso. apply H. now left.
  - rewrite IH. tauto.
Qed.

Lemma option_strings_plain : Forall (fun k => contains "=" k = false) option_strings.
Proof. repeat constructor. Qed.

Lemma registry_flag name cast min_value max_value help required :
  In (name, cast, min_value, max_value, help, required) cli_args ->
  find_action (option_string_actions Parameters_parser) (to_cli name)
  = Some (option_of (name, cast, min_value, max_value, help, required)) /\
  contains "=" (to_cli name) = false /\
  String.prefix "--" (to_cli name) = true.
Proof.
  intros Hin. cbn in Hin.
  repeat (destruct Hin as [Hin|Hin];
          [injection Hin as <- <- <- <- <- <-; repeat split; reflexivity|]).
  contradiction.
Qed.

(* ---------- a flag and its value ---------- *)

Lemma parse_optional_explicit registry flag a string :
  String.prefix "--" flag = true ->
  contains "=" flag = false ->
  Forall (fun k => contains "=" k = false) (map fst registry) ->
  find_action registry flag = Some a ->
  parse_optional registry (flag ++ String "=" string)%string
  = Ok (Some (Some a, flag, Some string)).
Proof.
  intros Hp Hc Hk Hf.
  assert (C : contains "=" (flag ++ String "=" string)%string = true).
  { rewrite contains_app. cbn. apply orb_true_r. }
  assert (N : find_action registry (flag ++ String "=" string)%string = None).
  { apply find_action_keys. intros Hin. rewrite Forall_forall in Hk.
    apply Hk in Hin. congruence. }
  destruct flag as [|c1 [|c2 tail]]; [discriminate| |];
    cbn [String.prefix] in Hp; revert Hp;
    (destruct (ascii_dec "-" c1) as [<-|]; [|discriminate]); [discriminate|]. intros _.
  unfold parse_optional. cbn [append] in *. cbn [Ascii.eqb Bool.eqb negb].
  rewrite N, C.
  change (String "-" (String c2 (tail ++ String "=" string)))%string
    with (String "-" (String c2 tail) ++ String "=" string)%string.
  rewrite (split_once_app _ _ _ Hc), Hf. reflexivity.
Qed.

Lemma get_values_one a type string :
  string <> "--" -> get_values a type [string] = get_value a type string.
Proof.
  intros H. unfold get_values. cbn [remove_first].
  destruct (String.eqb_spec string "--"); [contradiction|reflexivity].
Qed.

Lemma stored_value name cast min_value max_value required dest string :
  get_value (StoreAction (to_cli name) dest
               (validator (to_cli name) cast min_value max_value required))
    (validator (to_cli name) cast min_value max_value required) string
  = match validator (to_cli name) cast min_value max_value required string with
    | Ok v => Ok v
    | Err _ => Err (SystemExit 2 (ArgumentError (to_cli name) (InvalidValue "validate" string)))
    end.
Proof.
  unfold get_value.
  destruct (validator (to_cli name) cast min_value max_value required string) as [v|e] eqn:E;
    [reflexivity|].
  apply validator_raises in E as [[m ->]|[m ->]]; reflexivity.
Qed.

Lemma prefix_dash_neq s : String.prefix "-" s = false -> s <> "--".
Proof. intros H ->. discriminate. Qed.

Lemma negative_number_neq s : negative_number_like s = true -> s <> "--".
Proof. intros H ->. discriminate. Qed.

Lemma parse_optional_negative string :
  negative_number_like string = true ->
  parse_optional (option_string_actions Parameters_parser) string = Ok None.
Proof.
  intros H. destruct string as [|c1 [|c2 rest]]; [discriminate| |].
  { destruct c1 as [[] [] [] [] [] [] [] []]; discriminate. }
  destruct c1 as [[] [] [] [] [] [] [] []]; try (exfalso; cbn in H; discriminate H).
  destruct c2 as [[] [] [] [] [] [] [] []]; try (exfalso; cbn in H; discriminate H).
  all: unfold parse_optional; rewrite H.
  all: match goal with
       | |- context [find_action ?r ?s] =>
           replace (find_action r s) with (@None action) by (vm_compute; reflexivity)
       end.
  all: match goal with
       | |- context [get_option_tuples ?r ?s] =>
           replace (get_option_tuples r s) with (@nil option_tuple) by (vm_compute; reflexivity)
       end.
  all: cbn [Ascii.eqb Bool.eqb negb].
  all: match goal with
       | |- context [contains "=" ?s] => destruct (contains "=" s); [|reflexivity]
       end.
  all: cbn [split_once Ascii.eqb Bool.eqb]; destruct (split_once "=" rest) as [before after].
  all: match goal with
       | |- context [find_action ?r ?s] =>
           replace (find_action r s) with (@None action) by (vm_compute; reflexivity)
       end.
  all: reflexivity.
Qed.

Lemma parse_optional_flag registry flag a :
  String.prefix "--" flag = true ->
  find_action registry flag = Some a ->
  parse_optional registry flag = Ok (Some (Some a, flag, None)).
Proof.
  intros Hp Hf. destruct flag as [|c1 tail]; [discriminate|].
  cbn [String.prefix] in Hp. revert Hp.
  destruct (ascii_dec "-" c1) as [<-|]; [intros _|intros Hp; discriminate Hp].
  unfold parse_optional. cbn [Ascii.eqb Bool.eqb negb]. now rewrite Hf.
Qed.

Lemma parse_optional_plain registry string :
  String.prefix "-" string = false -> parse_optional registry string = Ok None.
Proof.
  destruct string as [|c tail]; [reflexivity|]. cbn [String.prefix].
  destruct (ascii_dec "-" c) as [<-|Hc]; [destruct tail; intros H; discriminate H|]. intros _.
  unfold parse_optional. destruct (Ascii.eqb_spec c "-"); [congruence|reflexivity].
Qed.

Lemma parse_optional_argument string :
  argument_like string = true ->
  parse_optional (option_string_actions Parameters_parser) string = Ok None /\ string <> "--".
Proof.
  unfold argument_like. intros H. apply orb_true_iff in H as [H|H].
  - apply negb_true_iff in H. split; [now apply parse_optional_plain|].
    now apply prefix_dash_neq.
  - split; [now apply parse_optional_negative|now apply negative_number_neq].
Qed.

(** X14: for every flag of the command-line schema and every value other
    than [--], the argument [--flag=value] stores what the flag's validator
    returns for the value in the flag's attribute, or exits with status 2
    naming the flag and the value when the validator raises; the two
    arguments [--flag value] do the same when the value does not start with
    a hyphen or is a negative number. *)
Theorem flag_value_stored name cast min_value max_value help required string namespace :
  In (name, cast, min_value, max_value, help, required) cli_args ->
  string <> "--" ->
  let outcome :=
    match validator (to_cli name) cast min_value max_value required string with
    | Ok v => Ok (setattr (add_defaults Parameters_parser namespace) (flag_dest name) v)
    | Err _ => Err (SystemExit 2 (ArgumentError (to_cli name) (InvalidValue "validate" string)))
    end in
  parse_args Parameters_parser [(to_cli name ++ "=" ++ string)%string] namespace = outcome /\
  (argument_like string = true ->
   parse_args Parameters_parser [to_cli name; string] namespace = outcome).
Proof.
  intros Hin Hs outcome.
  destruct (registry_flag _ _ _ _ _ _ Hin) as (Hf & Hc & Hp).
  assert (Hflag : to_cli name <> "--").
  { intros E. rewrite E in Hf. discriminate. }
  assert (Hstore : forall r,
             (v <- get_values (option_of (name, cast, min_value, max_value, help, required))
                    (validator (to_cli name) cast min_value max_value required) [string] ;;
              Ok (fold_left store [(flag_dest name, v)]
                    (add_defaults Parameters_parser namespace))) = r -> r = outcome).
  { intros r <-. rewrite get_values_one by assumption. unfold option_of.
    rewrite stored_value. unfold outcome.
    now destruct (validator (to_cli name) cast min_value max_value required string). }
  split.
  - unfold parse_args, parse_actions. cbn [classify].
    change ("=" ++ string)%string with (String "=" string).
    destruct (String.eqb_spec (to_cli name ++ String "=" string) "--") as [E|_].
    { exfalso. apply (f_equal (contains "=")) in E. rewrite contains_app in E.
      cbn in E. rewrite orb_true_r in E. discriminate. }
    rewrite (parse_optional_explicit _ _ _ _ Hp Hc option_strings_plain Hf).
    cbn [bind]. unfold option_of at 1. cbn [consume].
    apply Hstore. unfold option_of, flag_dest.
    destruct (get_values _ _ _); reflexivity.
  - intros Ha. apply parse_optional_argument in Ha as [Ha Hne].
    unfold parse_args, parse_actions. cbn [classify].
    destruct (String.eqb_spec (to_cli name) "--") as [E|_]; [contradiction|].
    destruct (String.eqb_spec string "--") as [E|_]; [contradiction|].
    rewrite (parse_optional_flag _ _ _ Hp Hf), Ha.
    cbn [bind]. unfold option_of at 1. cbn [consume].
    apply Hstore. unfold option_of, flag_dest.
    destruct (get_values _ _ _); reflexivity.
Qed.

(** X14 on a negative number below the minimum and on a plain value. *)
Lemma flag_value_stored_witness :
  parse_args Parameters_parser ["--recovered=-5"] []
  = Err (SystemExit 2 (ArgumentError "--recovered" (InvalidValue "validate" "-5"))) /\
  parse_args Parameters_parser ["--recovered"; "-5"] []
  = Err (SystemExit 2 (ArgumentError "--recovered" (InvalidValue "validate" "-5"))) /\
  parse_args Parameters_parser ["--n-days"; "60"] [] = Ok (setattr cli_defaults "n_days" (VInt 60)).
Proof.
  pose proof (flag_value_stored "recovered" Int (VInt 0) VNone "Initial recovered >= 0" true "-5"
                []) as H.
  destruct H as [H1 H2]; [cbn; auto 25|discriminate|].
  pose proof (flag_value_stored "n-days" Int (VInt 0) VNone "Number of days to project >= 0"
                true "60" []) as H'.
  destruct H' as [_ H3]; [cbn; auto 25|discriminate|].
  split; [exact H1|]. split; [apply H2; reflexivity|apply H3; reflexivity].
Defined.

(* ---------- abbreviated flags ---------- *)

Lemma prefix_refl s : String.prefix s s = true.
Proof.
  induction s as [|c s IH]; cbn; [reflexivity|].
  destruct (ascii_dec c c); [exact IH|congruence].
Qed.

Lemma get_option_tuples_long registry p :
  is_long p = true ->
  contains "=" p = false ->
  get_option_tuples registry p =
  candidates registry p.
Proof.
  intros Hl Hc. unfold get_option_tuples, candidates. rewrite Hl, Hc.
  apply flat_map_ext. now intros [k a].
Qed.

Lemma matches_of_tuples registry p :
  map (fun t : option_tuple => snd (fst t))
    (candidates registry p)
  = filter (String.prefix p) (map fst registry).
Proof.
  unfold candidates. induction registry as [|[k a] registry IH]; cbn; [reflexivity|].
  destruct (String.prefix p k); cbn; now rewrite IH.
Qed.

Lemma one_tuple registry p flag a :
  filter (String.prefix p) (map fst registry) = [flag] ->
  find_action registry flag = Some a ->
  candidates registry p
  = [(Some a, flag, None)].
Proof.
  induction registry as [|[k b] registry IH]; cbn; [intros H; discriminate H|].
  unfold candidates. cbn [flat_map fst snd]. fold (candidates registry p).
  destruct (String.prefix p k) eqn:Hk.
  - intros [= -> Hrest]. rewrite String.eqb_refl. intros [= ->]. cbn. f_equal.
    pose proof (matches_of_tuples registry p) as M. rewrite Hrest in M.
    now apply map_eq_nil in M.
  - intros Hf. destruct (String.eqb_spec k flag) as [->|_]; [|now apply IH].
    exfalso. assert (Hin : In flag (filter (String.prefix p) (map fst registry)))
      by (rewrite Hf; now left).
    apply filter_In in Hin as [_ Hp]. congruence.
Qed.

Lemma consume_head s s' a o e rest :
  consume ((s, ClassO (Some a, o, e)) :: rest) = consume ((s', ClassO (Some a, o, e)) :: rest).
Proof. destruct a, e; reflexivity. Qed.

Lemma long_prefix p : String.prefix "--" p = true -> exists tail, p = String "-" (String "-" tail).
Proof.
  destruct p as [|c1 [|c2 tail]]; cbn [String.prefix]; [intros H; discriminate H| |].
  - destruct (ascii_dec "-" c1); intros H; discriminate H.
  - destruct (ascii_dec "-" c1) as [<-|]; [|intros H; discriminate H].
    destruct (ascii_dec "-" c2) as [<-|]; [|intros H; discriminate H]. eauto.
Qed.

Lemma parse_optional_abbreviation p tuples :
  String.prefix "--" p = true ->
  p <> "--" ->
  contains "=" p = false ->
  find_action (option_string_actions Parameters_parser) p = None ->
  get_option_tuples (option_string_actions Parameters_parser) p = tuples ->
  parse_optional (option_string_actions Parameters_parser) p =
  match tuples with
  | (_ :: _ :: _) as option_tuples =>
      Err (SystemExit 2 (AmbiguousOption p
                           (map (fun t : option_tuple => snd (fst t)) option_tuples)))
  | [t] => Ok (Some t)
  | [] => if negative_number_like p then Ok None
          else if contains " " p then Ok None
          else Ok (Some (None, p, None))
  end.
Proof.
  intros Hp Hne Hc Hf Ht. apply long_prefix in Hp as [tail ->].
  unfold parse_optional. cbn [Ascii.eqb Bool.eqb negb]. rewrite Hf, Hc, Ht.
  destruct tail; [congruence|]. now destruct tuples as [|t [|t2 l]].
Qed.

(** X15: a long option string without [=] that is a prefix of exactly one
    option string of the parser stands for that flag. *)
Theorem unique_abbreviation name cast min_value max_value help required p rest namespace :
  In (name, cast, min_value, max_value, help, required) cli_args ->
  String.prefix "--" p = true ->
  contains "=" p = false ->
  filter (String.prefix p) option_strings = [to_cli name] ->
  parse_args Parameters_parser (p :: rest) namespace
  = parse_args Parameters_parser (to_cli name :: rest) namespace.
Proof.
  intros Hin Hp Hc Hone.
  destruct (registry_flag _ _ _ _ _ _ Hin) as (Hf & _ & Hpf).
  destruct (string_dec p (to_cli name)) as [->|Hne]; [reflexivity|].
  assert (Hnk : find_action (option_string_actions Parameters_parser) p = None).
  { apply find_action_keys. intros Hk.
    assert (Hin' : In p (filter (String.prefix p) option_strings)).
    { apply filter_In. split; [exact Hk|apply prefix_refl]. }
    rewrite Hone in Hin'. destruct Hin' as [E|[]]. congruence. }
  assert (Hdash : p <> "--").
  { intros ->. vm_compute in Hone. discriminate. }
  assert (Hflag : to_cli name <> "--").
  { intros E. rewrite E in Hf. discriminate. }
  pose proof (long_prefix _ Hp) as [tail Ep].
  assert (Hl : is_long p = true) by (now rewrite Ep).
  unfold parse_args, parse_actions. cbn [classify].
  destruct (String.eqb_spec p "--"); [contradiction|].
  destruct (String.eqb_spec (to_cli name) "--"); [contradiction|].
  rewrite (parse_optional_abbreviation p _ Hp Hdash Hc Hnk eq_refl).
  rewrite (get_option_tuples_long _ _ Hl Hc), (one_tuple _ _ _ _ Hone Hf).
  rewrite (parse_optional_flag _ _ _ Hpf Hf). cbn [bind].
  destruct (classify (option_string_actions Parameters_parser) rest) as [classified|];
    [|reflexivity].
  cbn [bind]. now rewrite (consume_head p (to_cli name)).
Qed.

(** X15 on an abbreviation of [--population]. *)
Lemma unique_abbreviation_witness :
  parse_args Parameters_parser ["--pop"; "1000"] []
  = parse_args Parameters_parser ["--population"; "1000"] [] /\
  parse_args Parameters_parser ["--population"; "1000"] []
  = Ok (setattr cli_defaults "population" (VInt 1000)).
Proof.
  split; [|reflexivity].
  apply (unique_abbreviation "population" Int (VInt 1) VNone "Regional population >= 1" true);
    [cbn; auto 25|reflexivity..].
Defined.

(** X16: a long option string without [=] that is a prefix of two or more
    option strings of the parser makes the parser exit with status 2,
    reporting the option strings it could stand for. *)
Theorem ambiguous_abbreviation p rest namespace :
  String.prefix "--" p = true ->
  p <> "--" ->
  contains "=" p = false ->
  (2 <= List.length (filter (String.prefix p) option_strings))%nat ->
  parse_args Parameters_parser (p :: rest) namespace
  = Err (SystemExit 2 (AmbiguousOption p (filter (String.prefix p) option_strings))).
Proof.
  intros Hp Hdash Hc Hmany.
  assert (Hnk : find_action (option_string_actions Parameters_parser) p = None).
  { apply find_action_keys. intros Hk. exfalso. revert Hmany.
    change (In p option_strings) in Hk. unfold option_strings in *. cbn in Hk.
    repeat (destruct Hk as [<-|Hk]; [vm_compute; lia|]). contradiction. }
  pose proof (long_prefix _ Hp) as [tail Ep].
  assert (Hl : is_long p = true) by (now rewrite Ep).
  unfold parse_args, parse_actions. cbn [classify].
  destruct (String.eqb_spec p "--"); [contradiction|].
  rewrite (parse_optional_abbreviation p _ Hp Hdash Hc Hnk eq_refl).
  rewrite (get_option_tuples_long _ _ Hl Hc).
  pose proof (matches_of_tuples (option_string_actions Parameters_parser) p) as M.
  fold option_strings in M.
  destruct (candidates (option_string_actions Parameters_parser) p) as [|t1 [|t2 l]].
  - rewrite <- M in Hmany. cbn in Hmany. lia.
  - rewrite <- M in Hmany. cbn in Hmany. lia.
  - rewrite <- M. reflexivity.
Qed.

(** X16 on the common prefix of [--icu-days] and [--icu-rate]. *)
Lemma ambiguous_abbreviation_witness :
  parse_args Parameters_parser ["--icu"; "9"] []
  = Err (SystemExit 2 (AmbiguousOption "--icu" ["--icu-days"; "--icu-rate"])).
Proof.
  apply (ambiguous_abbreviation "--icu"); [reflexivity|discriminate|reflexivity|].
  vm_compute. lia.
Defined.

(* ---------- not a number ---------- *)

Lemma SFcompare_refl s : s <> S754_nan -> SFcompare s s = Some Eq.
Proof.
  destruct s as [[]|[]| |[] m e]; cbn; try reflexivity; try congruence; intros _.
  - rewrite Z.compare_refl. now rewrite Pos.compare_cont_refl.
  - rewrite Z.compare_refl. now rewrite Pos.compare_cont_refl.
Qed.

Lemma nan_spec f : PrimFloat.is_nan f = true -> Prim2SF f = S754_nan.
Proof.
  unfold PrimFloat.is_nan. rewrite negb_true_iff, FloatAxioms.eqb_spec. unfold SFeqb.
  destruct (Prim2SF f) eqn:E; try reflexivity;
    rewrite SFcompare_refl by discriminate; discriminate.
Qed.

Lemma nan_compares f v :
  PrimFloat.is_nan f = true ->
  bound_fits Float v = true -> is_None v = false ->
  py_lt (VFloat f) v = Ok false /\ py_gt (VFloat f) v = Ok false.
Proof.
  intros H Hv Hn. apply nan_spec in H.
  destruct v; try discriminate; cbn [py_lt py_gt].
  - unfold int_float_compare. rewrite H. split; reflexivity.
  - rewrite !FloatAxioms.ltb_spec, H. unfold SFltb. cbn.
    split; [reflexivity|]. now destruct (Prim2SF f0).
Qed.

(** X17: the bounds of a float flag never reject a NaN: a string that
    [float] reads as a NaN is returned by the flag's validator whatever
    numeric minimum and maximum are declared. *)
Theorem nan_passes_bounds arg min_value max_value required string f :
  bound_fits Float min_value = true ->
  bound_fits Float max_value = true ->
  parse_float string = Some f ->
  PrimFloat.is_nan f = true ->
  validator arg Float min_value max_value required string = Ok (VFloat f).
Proof.
  intros Hmin Hmax Hs Hf. unfold validator.
  destruct (String.eqb_spec string "") as [->|_]; [discriminate|]. cbn [andb].
  unfold apply_cast, of_option. rewrite Hs. cbn [bind].
  destruct (is_None min_value) eqn:Emin; cbn [bind].
  - destruct (is_None max_value) eqn:Emax; cbn [bind]; [reflexivity|].
    now rewrite (proj2 (nan_compares f max_value Hf Hmax Emax)).
  - rewrite (proj1 (nan_compares f min_value Hf Hmin Emin)). cbn [bind].
    destruct (is_None max_value) eqn:Emax; cbn [bind]; [reflexivity|].
    now rewrite (proj2 (nan_compares f max_value Hf Hmax Emax)).
Qed.

(** X17 on [--market-share nan]. *)
Lemma nan_passes_bounds_witness :
  exists f,
    validator "--market-share" Float (VFloat 0.00001) (VFloat 1.0) true "nan" = Ok (VFloat f) /\
    PrimFloat.is_nan f = true.
Proof.
  exists PrimFloat.nan. split; [|reflexivity].
  apply nan_passes_bounds; reflexivity.
Defined.

(* ---------- runs ---------- *)


(** X13 on the round-trip command line and a file of two flags. *)
Lemma file_is_more_arguments_witness :
  Parameters_create spec_validators a_day [("PARAMETERS", "chime.cfg")] one_file round_trip_argv
  = Parameters_create spec_validators a_day [] one_file
      (round_trip_argv ++ split "--n-days 30 --current-date=").
Proof.
  eapply file_is_more_arguments; try (vm_compute; reflexivity).
  intros H. cbn in H. repeat (destruct H as [H|H]; [discriminate H|]). contradiction.
Defined.
